(** * Nestify: the swipe preference engine of [frontend_stuff/swipe.js]

    A shallow embedding of the preference-inference and scoring code
    (profile builder, dynamic weights, confidence, match scorer, ranking
    pass, load-more transition) and the properties checked against it.

    Modelling conventions.
    - A JavaScript number is a value of [JS.num]: a rational (finite
      numbers, with exact arithmetic), the two infinities, or NaN.  The
      special values follow IEEE-754 as JavaScript has them (0/0 is NaN,
      a comparison with NaN is false, NaN is falsy).  Binary rounding of
      finite results and the sign of zero are not modelled.
    - A field of a listing, as parsed from the backend's JSON, is a
      [JS.json] value: absent, null, a boolean, a finite number or a
      string.  The location fields of an address are strings when present.
    - [Array.prototype.sort] is stable; it is realised by a stable
      insertion sort driven by the source's comparator.
    - [Math.random] is an oracle: a stream of naturals, one per call.
    - Since finite arithmetic is exact, a sum or a square never overflows
      to Infinity and a mean is never rounded: a statement that is meant
      of the source too either holds whatever the rounding or names the
      bound on its inputs.
    - The counting object [counts = {}] is a list of own keys.  A
      category that names a property of [Object.prototype] (see
      [object_prototype_keys]) reads an inherited value in the source;
      the statements about the counting exclude such categories. *)

From Stdlib Require Import QArith Qround Qabs ZArith List String Ascii Bool Arith Lia Lqa Permutation Sorted.
Import ListNotations.

Open Scope Q_scope.

(** ** JavaScript numbers and JSON values *)

Module JS.

Inductive num : Type :=
| Fin (q : Q)
| PInf
| NInf
| NaN.

Definition of_nat (n : nat) : num := Fin (inject_Z (Z.of_nat n)).

Definition neg (x : num) : num :=
  match x with
  | Fin q => Fin (- q)
  | PInf => NInf
  | NInf => PInf
  | NaN => NaN
  end.

Definition add (x y : num) : num :=
  match x, y with
  | NaN, _ | _, NaN => NaN
  | Fin a, Fin b => Fin (a + b)
  | PInf, NInf | NInf, PInf => NaN
  | PInf, _ | _, PInf => PInf
  | NInf, _ | _, NInf => NInf
  end.

Definition sub (x y : num) : num := add x (neg y).

Definition sign (x : num) : comparison :=
  match x with
  | Fin q => q ?= 0
  | PInf => Gt
  | NInf => Lt
  | NaN => Eq
  end.

Definition mul_sign (a b : comparison) : comparison :=
  match a, b with
  | Eq, _ | _, Eq => Eq
  | Gt, Gt | Lt, Lt => Gt
  | _, _ => Lt
  end.

(** The infinity of a given sign; a zero sign stands for the invalid
    operations (0/0, Infinity * 0), which give NaN. *)
Definition inf_of_sign (c : comparison) : num :=
  match c with
  | Gt => PInf
  | Lt => NInf
  | Eq => NaN
  end.

Definition mul (x y : num) : num :=
  match x, y with
  | NaN, _ | _, NaN => NaN
  | Fin a, Fin b => Fin (a * b)
  | _, _ => inf_of_sign (mul_sign (sign x) (sign y))
  end.

Definition div (x y : num) : num :=
  match x, y with
  | NaN, _ | _, NaN => NaN
  | Fin a, Fin b =>
      if Qeq_bool b 0 then inf_of_sign (a ?= 0) else Fin (a / b)
  | Fin _, _ => Fin 0
  | _, Fin b =>
      inf_of_sign (mul_sign (sign x) (if Qeq_bool b 0 then Gt else b ?= 0))
  | _, _ => NaN
  end.

(** Relational comparison; [None] when an operand is NaN. *)
Definition compare (x y : num) : option comparison :=
  match x, y with
  | NaN, _ | _, NaN => None
  | Fin a, Fin b => Some (a ?= b)
  | PInf, PInf | NInf, NInf => Some Eq
  | PInf, _ | _, NInf => Some Gt
  | NInf, _ | _, PInf => Some Lt
  end.

Definition lt (x y : num) : bool :=
  match compare x y with Some Lt => true | _ => false end.

Definition le (x y : num) : bool :=
  match compare x y with Some Lt | Some Eq => true | _ => false end.

Definition gt (x y : num) : bool := lt y x.
Definition ge (x y : num) : bool := le y x.

(** [x === y] on numbers. *)
Definition eq (x y : num) : bool :=
  match compare x y with Some Eq => true | _ => false end.

(** [Math.max] and [Math.min] of two arguments. *)
Definition max (x y : num) : num :=
  match compare x y with
  | None => NaN
  | Some Lt => y
  | Some _ => x
  end.

Definition min (x y : num) : num :=
  match compare x y with
  | None => NaN
  | Some Gt => y
  | Some _ => x
  end.

Definition abs (x : num) : num :=
  match x with
  | Fin q => Fin (Qabs q)
  | PInf | NInf => PInf
  | NaN => NaN
  end.

(** [Math.round]: the nearest integer, halves towards +Infinity. *)
Definition round (x : num) : num :=
  match x with
  | Fin q => Fin (inject_Z (Qfloor (q + (1 # 2))))
  | _ => x
  end.

Definition floor (x : num) : num :=
  match x with
  | Fin q => Fin (inject_Z (Qfloor q))
  | _ => x
  end.

(** The square root of a non-negative rational, rounded down to a
    multiple of 2^-52 of the denominator; exact on squares. *)
Definition Qsqrt (q : Q) : Q :=
  Qmake (Z.sqrt (Qnum q * Zpos (Qden q) * 4 ^ 52)%Z) (Qden q * 2 ^ 52)%positive.

Definition sqrt (x : num) : num :=
  match x with
  | Fin q => if Qle_bool 0 q then Fin (Qsqrt q) else NaN
  | PInf => PInf
  | NInf | NaN => NaN
  end.

(** Truthiness of a number: 0 and NaN are falsy. *)
Definition truthy (x : num) : bool :=
  match x with
  | Fin q => negb (Qeq_bool q 0)
  | PInf | NInf => true
  | NaN => false
  end.

(** [x || 0]. *)
Definition or0 (x : num) : num := if truthy x then x else Fin 0.

(** A nullable number ([null] or a number), as the profile stores them. *)
Definition nullable := option num.

(** ToNumber on a nullable number: [null] converts to 0. *)
Definition to_num (v : nullable) : num :=
  match v with
  | Some n => n
  | None => Fin 0
  end.

Definition truthy_nullable (v : nullable) : bool :=
  match v with
  | Some n => truthy n
  | None => false
  end.

(** A listing field as parsed from JSON. *)
Inductive json : Type :=
| Undefined
| Null
| Boolean (b : bool)
| Number (q : Q)
| Str (s : string).

Definition truthy_json (v : json) : bool :=
  match v with
  | Undefined | Null => false
  | Boolean b => b
  | Number q => negb (Qeq_bool q 0)
  | Str s => negb (String.eqb s EmptyString)
  end.

(** [a || b] on JSON values. *)
Definition or_json (a b : json) : json := if truthy_json a then a else b.

(** [a === b] on JSON values. *)
Definition strict_eq (a b : json) : bool :=
  match a, b with
  | Undefined, Undefined | Null, Null => true
  | Boolean x, Boolean y => Bool.eqb x y
  | Number x, Number y => Qeq_bool x y
  | Str x, Str y => String.eqb x y
  | _, _ => false
  end.

(** [typeof v === "number" && v > 0]. *)
Definition valid_number (v : json) : bool :=
  match v with
  | Number q => negb (Qle_bool q 0)
  | _ => false
  end.

(** The number carried by a JSON number; the code reads it only after
    the [typeof] check. *)
Definition number_value (v : json) : num :=
  match v with
  | Number q => Fin q
  | _ => NaN
  end.

(** Truthiness of an optional string: absent and empty are falsy. *)
Definition truthy_str (s : option string) : bool :=
  match s with
  | Some t => negb (String.eqb t EmptyString)
  | None => false
  end.

Definition or_str (a b : option string) : option string :=
  if truthy_str a then a else b.

(** Stable sort by a comparator [cmp a b] in the sense of
    [Array.prototype.sort]: a positive result puts [b] first; a zero or
    NaN result keeps the original order. *)
Fixpoint sort_insert {A : Type} (cmp : A -> A -> num) (a : A) (l : list A)
  : list A :=
  match l with
  | [] => [a]
  | y :: ys =>
      if gt (cmp a y) (Fin 0) then y :: sort_insert cmp a ys
      else a :: l
  end.

Fixpoint sort {A : Type} (cmp : A -> A -> num) (l : list A) : list A :=
  match l with
  | [] => []
  | a :: rest => sort_insert cmp a (sort cmp rest)
  end.

End JS.

(** ** Data model *)

Record Address : Type := mkAddress {
  city : option string;
  displayName : option string;
  _normalized_city : option string
}.

Record Listing : Type := mkListing {
  id : JS.json;
  title : JS.json;
  address : option Address;
  buyingPrice : JS.json;
  squareMeter : JS.json;
  livingSpace : JS.json;
  rooms : JS.json
}.

Record Weights : Type := mkWeights {
  w_city : JS.num;
  w_price : JS.num;
  w_size : JS.num;
  w_rooms : JS.num
}.

Record Profile : Type := mkProfile {
  preferredCity : option string;
  alternativeCities : list string;
  cityConsistency : JS.num;
  minPrice : JS.nullable;
  maxPrice : JS.nullable;
  avgPrice : JS.nullable;
  stdDevPrice : JS.nullable;
  minSqm : JS.nullable;
  maxSqm : JS.nullable;
  avgSqm : JS.nullable;
  stdDevSqm : JS.nullable;
  minRooms : JS.nullable;
  maxRooms : JS.nullable;
  avgRooms : JS.nullable;
  stdDevRooms : JS.nullable;
  weights : option Weights;
  sampleSize : nat;
  confidence : JS.num
}.

(** The [stats] object handed to the weight and confidence helpers (the
    confidence helper receives the sample size as an argument of its own
    and reads neither the rooms fields nor [st_sampleSize]). *)
Record Stats : Type := mkStats {
  st_cityConsistency : JS.num;
  st_stdDevPrice : JS.nullable;
  st_avgPrice : JS.nullable;
  st_stdDevSqm : JS.nullable;
  st_avgSqm : JS.nullable;
  st_stdDevRooms : JS.nullable;
  st_avgRooms : JS.nullable;
  st_sampleSize : nat
}.

Record CategoryPreferences : Type := mkCategoryPreferences {
  preferred : option string;
  alternatives : list string;
  consistency : JS.num
}.

(** ** Statistics helpers *)

(** [p.address && (p.address.city || p.address.displayName ||
    p.address._normalized_city)]. *)
Definition listing_city (p : Listing) : option string :=
  match address p with
  | None => None
  | Some a => JS.or_str (JS.or_str (city a) (displayName a)) (_normalized_city a)
  end.

(** [.filter(Boolean)] on optional strings. *)
Definition truthy_strings (l : list (option string)) : list string :=
  flat_map (fun o => match o with Some s => [s] | None => [] end)
           (filter JS.truthy_str l).

(** [counts[cat] = (counts[cat] || 0) + 1] on an object whose string
    keys are kept in insertion order.  The keys are own keys of
    [counts]: a category that names a property of [Object.prototype]
    reads an inherited value in the source and is outside this model. *)
Fixpoint count_add (cat : string) (counts : list (string * nat))
  : list (string * nat) :=
  match counts with
  | [] => [(cat, 1%nat)]
  | (k, n) :: rest =>
      if String.eqb k cat then (k, S n) :: rest
      else (k, n) :: count_add cat rest
  end.

Definition count_all (categories : list string) : list (string * nat) :=
  fold_left (fun counts cat => count_add cat counts) categories [].

(** A key that is a canonical array index ("0", "17", ... below 2^32-1):
    [Object.entries] lists these first, in ascending numeric order. *)
Definition digit (c : ascii) : option N :=
  let n := N_of_ascii c in
  if (48 <=? n)%N && (n <=? 57)%N then Some (n - 48)%N else None.

Fixpoint digits (s : string) (acc : N) : option N :=
  match s with
  | EmptyString => Some acc
  | String c r =>
      match digit c with
      | Some d => digits r (acc * 10 + d)%N
      | None => None
      end
  end.

Definition array_index (s : string) : option N :=
  match s with
  | EmptyString => None
  | String c r =>
      if Ascii.eqb c "0"%char && negb (String.eqb r EmptyString) then None
      else match digits s 0%N with
           | Some n => if (n <? 4294967295)%N then Some n else None
           | None => None
           end
  end.

Fixpoint insert_index (e : N * (string * nat)) (l : list (N * (string * nat)))
  : list (N * (string * nat)) :=
  match l with
  | [] => [e]
  | y :: ys => if (fst e <? fst y)%N then e :: l else y :: insert_index e ys
  end.

(** [Object.entries(counts)]. *)
Definition entries (counts : list (string * nat)) : list (string * nat) :=
  let indexed :=
    fold_right
      (fun kv acc =>
         match array_index (fst kv) with
         | Some n => insert_index (n, kv) acc
         | None => acc
         end) [] counts in
  map snd indexed
  ++ filter (fun kv => match array_index (fst kv) with
                       | Some _ => false
                       | None => true
                       end) counts.

Definition calculateCategoryPreferences (categories : list string)
  : CategoryPreferences :=
  match categories with
  | [] => mkCategoryPreferences None [] (JS.Fin 0)
  | _ :: _ =>
      let counts := count_all categories in
      let sorted :=
        JS.sort (fun a b => JS.sub (JS.of_nat (snd b)) (JS.of_nat (snd a)))
                (entries counts) in
      match sorted with
      | [] => mkCategoryPreferences None [] (JS.Fin 0) (* not reached *)
      | (preferred, preferredCount) :: others =>
          let consistency :=
            JS.round
              (JS.mul (JS.div (JS.of_nat preferredCount)
                              (JS.of_nat (List.length categories)))
                      (JS.Fin 100)) in
          let threshold :=
            JS.max (JS.Fin 2)
                   (JS.floor (JS.mul (JS.of_nat (List.length categories))
                                     (JS.Fin 0.15))) in
          let alternatives :=
            map fst
                (filter (fun e => JS.ge (JS.of_nat (snd e)) threshold) others) in
          mkCategoryPreferences (Some preferred) alternatives consistency
      end
  end.

Definition sum (values : list JS.num) : JS.num :=
  fold_left JS.add values (JS.Fin 0).

(** The squares [Math.pow(val - mean, 2)] are exact and do not overflow;
    the source gives Infinity where they do. *)
Definition calculateStdDev (values : list JS.num) (mean : JS.num) : JS.num :=
  if (List.length values <? 2)%nat then JS.Fin 0
  else
    let variance :=
      JS.div
        (fold_left
           (fun sum val => JS.add sum (JS.mul (JS.sub val mean) (JS.sub val mean)))
           values (JS.Fin 0))
        (JS.of_nat (List.length values)) in
    JS.sqrt variance.

(** ** Dynamic weights and confidence *)

Definition default_weights : Weights :=
  mkWeights (JS.Fin 25) (JS.Fin 35) (JS.Fin 30) (JS.Fin 10).

(** [avg > 0 ? (stdDev / avg) : 1]. *)
Definition coefficient_of_variation (stdDev avg : JS.nullable) : JS.num :=
  if JS.gt (JS.to_num avg) (JS.Fin 0)
  then JS.div (JS.to_num stdDev) (JS.to_num avg)
  else JS.Fin 1.

(** [Math.max(0, Math.min(1, 1 - (cv / 0.4)))]. *)
Definition consistency_score (cv : JS.num) : JS.num :=
  JS.max (JS.Fin 0)
         (JS.min (JS.Fin 1) (JS.sub (JS.Fin 1) (JS.div cv (JS.Fin 0.4)))).

(** [Math.round(Math.max(lo, Math.min(hi, base * (score / total) * 4)))]. *)
Definition bounded_weight (lo hi base score total : JS.num) : JS.num :=
  JS.round
    (JS.max lo
            (JS.min hi
                    (JS.mul (JS.mul base (JS.div score total)) (JS.Fin 4)))).

(** The "Normalize to 100%" step. *)
Definition normalize (w : Weights) : Weights :=
  let sum := JS.add (JS.add (JS.add (w_city w) (w_price w)) (w_size w))
                    (w_rooms w) in
  let city := JS.round (JS.mul (JS.div (w_city w) sum) (JS.Fin 100)) in
  let price := JS.round (JS.mul (JS.div (w_price w) sum) (JS.Fin 100)) in
  let size := JS.round (JS.mul (JS.div (w_size w) sum) (JS.Fin 100)) in
  let rooms := JS.sub (JS.sub (JS.sub (JS.Fin 100) city) price) size in
  mkWeights city price size rooms.

Definition calculateDynamicWeights (stats : Stats) : Weights :=
  let weights := default_weights in
  if (st_sampleSize stats <? 3)%nat then weights
  else
    let cvPrice :=
      coefficient_of_variation (st_stdDevPrice stats) (st_avgPrice stats) in
    let cvSize :=
      coefficient_of_variation (st_stdDevSqm stats) (st_avgSqm stats) in
    let cvRooms :=
      coefficient_of_variation (st_stdDevRooms stats) (st_avgRooms stats) in
    let cityScore := JS.div (st_cityConsistency stats) (JS.Fin 100) in
    let priceScore := consistency_score cvPrice in
    let sizeScore := consistency_score cvSize in
    let roomsScore := consistency_score cvRooms in
    let totalScore :=
      JS.add (JS.add (JS.add cityScore priceScore) sizeScore) roomsScore in
    if JS.gt totalScore (JS.Fin 0) then
      normalize
        (mkWeights
           (bounded_weight (JS.Fin 15) (JS.Fin 35) (JS.Fin 25) cityScore totalScore)
           (bounded_weight (JS.Fin 25) (JS.Fin 45) (JS.Fin 35) priceScore totalScore)
           (bounded_weight (JS.Fin 20) (JS.Fin 40) (JS.Fin 30) sizeScore totalScore)
           (bounded_weight (JS.Fin 5) (JS.Fin 15) (JS.Fin 10) roomsScore totalScore))
    else weights.

(** The base confidence by sample size. *)
Definition base_confidence (sampleSize : nat) : JS.num :=
  if (10 <=? sampleSize)%nat then JS.Fin 100
  else if (7 <=? sampleSize)%nat then JS.Fin 90
  else if (5 <=? sampleSize)%nat then JS.Fin 75
  else if (3 <=? sampleSize)%nat then JS.Fin 60
  else if (2 <=? sampleSize)%nat then JS.Fin 40
  else JS.Fin 20.

Definition calculateConfidenceScore (sampleSize : nat) (stats : Stats)
  : JS.num :=
  let confidence := base_confidence sampleSize in
  let confidence :=
    if JS.lt (st_cityConsistency stats) (JS.Fin 40)
    then JS.mul confidence (JS.Fin 0.9) else confidence in
  let cvPrice :=
    coefficient_of_variation (st_stdDevPrice stats) (st_avgPrice stats) in
  let cvSize :=
    coefficient_of_variation (st_stdDevSqm stats) (st_avgSqm stats) in
  let confidence :=
    if JS.gt cvPrice (JS.Fin 0.5) || JS.gt cvSize (JS.Fin 0.5)
    then JS.mul confidence (JS.Fin 0.85) else confidence in
  JS.round confidence.

(** ** Profile builder *)

(** [.filter((v) => typeof v === "number" && v > 0)]. *)
Definition valid_numbers (l : list JS.json) : list JS.num :=
  map JS.number_value (filter JS.valid_number l).

(** [values.reduce((sum, v) => sum + v, 0) / values.length], exactly:
    the sum does not overflow and the quotient is not rounded. *)
Definition average (values : list JS.num) : JS.num :=
  JS.div (sum values) (JS.of_nat (List.length values)).

Definition ascending (values : list JS.num) : list JS.num :=
  JS.sort (fun a b => JS.sub a b) values.

(** [Math.min(...values)] and [Math.max(...values)]. *)
Definition min_of (values : list JS.num) : JS.num :=
  fold_right JS.min JS.PInf values.

Definition max_of (values : list JS.num) : JS.num :=
  fold_right JS.max JS.NInf values.

Definition buildPreferenceProfile (liked : option (list Listing))
  : option Profile :=
  match liked with
  | None | Some [] => None
  | Some liked =>
      let cities := truthy_strings (map listing_city liked) in
      let prices := valid_numbers (map buyingPrice liked) in
      let sqms :=
        valid_numbers
          (map (fun p => JS.or_json (squareMeter p) (livingSpace p)) liked) in
      let rooms := valid_numbers (map rooms liked) in
      let cityStats := calculateCategoryPreferences cities in
      let preferredCity := preferred cityStats in
      let alternativeCities := alternatives cityStats in
      let cityConsistency := consistency cityStats in
      let '(minPrice, maxPrice, avgPrice, stdDevPrice) :=
        match prices with
        | [] => (None, None, None, None)
        | _ :: _ =>
            let sorted := ascending prices in
            let avgPrice := average prices in
            (Some (hd JS.NaN sorted), Some (last sorted JS.NaN),
             Some avgPrice, Some (calculateStdDev prices avgPrice))
        end in
      let '(minSqm, maxSqm, avgSqm, stdDevSqm) :=
        match sqms with
        | [] => (None, None, None, None)
        | _ :: _ =>
            let sorted := ascending sqms in
            let avgSqm := average sqms in
            (Some (hd JS.NaN sorted), Some (last sorted JS.NaN),
             Some avgSqm, Some (calculateStdDev sqms avgSqm))
        end in
      let '(minRooms, maxRooms, avgRooms, stdDevRooms) :=
        match rooms with
        | [] => (None, None, None, None)
        | _ :: _ =>
            let avgRooms := average rooms in
            (Some (min_of rooms), Some (max_of rooms),
             Some avgRooms, Some (calculateStdDev rooms avgRooms))
        end in
      let stats :=
        mkStats cityConsistency stdDevPrice avgPrice stdDevSqm avgSqm
                stdDevRooms avgRooms (List.length liked) in
      let weights := calculateDynamicWeights stats in
      let confidence := calculateConfidenceScore (List.length liked) stats in
      Some (mkProfile preferredCity alternativeCities cityConsistency
                      minPrice maxPrice avgPrice stdDevPrice
                      minSqm maxSqm avgSqm stdDevSqm
                      minRooms maxRooms avgRooms stdDevRooms
                      (Some weights) (List.length liked) confidence)
  end.

(** ** Listing identity *)

Definition isSameProperty (a b : option Listing) : bool :=
  match a, b with
  | Some a, Some b =>
      if JS.truthy_json (id a) && JS.truthy_json (id b)
      then JS.strict_eq (id a) (id b)
      else JS.strict_eq (title a) (title b)
           && JS.strict_eq (buyingPrice a) (buyingPrice b)
  | _, _ => false
  end.

(** ** Match scorer *)

Record Scores : Type := mkScores {
  s_city : JS.num;
  s_price : JS.num;
  s_size : JS.num;
  s_rooms : JS.num
}.

Definition score_city (p : Listing) (profile : Profile) : JS.num :=
  match listing_city p, preferredCity profile with
  | Some city, Some preferredCity =>
      if JS.truthy_str (Some city) && JS.truthy_str (Some preferredCity) then
        if String.eqb city preferredCity then JS.Fin 100
        else if existsb (String.eqb city) (alternativeCities profile)
             then JS.Fin 70
             else JS.Fin 0
      else JS.Fin 0
  | _, _ => JS.Fin 0
  end.

(** The body the price and size branches share, for a value [v] and the
    profile's [lo], [hi] and [avg] of that dimension; [bufferFloor] is
    50000 for the price and 15 for the size. *)
Definition range_score (v lo hi avg bufferFloor : JS.num) : JS.num :=
  let range := JS.sub hi lo in
  let buffer := JS.max (JS.mul range (JS.Fin 0.3)) bufferFloor in
  let lower := JS.sub lo buffer in
  let upper := JS.add hi buffer in
  if JS.ge v lo && JS.le v hi then
    let distanceFromAvg := JS.abs (JS.sub v avg) in
    let maxDistanceFromAvg := JS.max (JS.sub avg lo) (JS.sub hi avg) in
    JS.max (JS.Fin 80)
           (JS.sub (JS.Fin 100)
                   (JS.mul (JS.div distanceFromAvg maxDistanceFromAvg)
                           (JS.Fin 20)))
  else if JS.ge v lower && JS.le v upper then
    let distanceFromRange :=
      if JS.lt v lo then JS.sub lo v else JS.sub v hi in
    JS.max (JS.Fin 50)
           (JS.sub (JS.Fin 80)
                   (JS.mul (JS.div distanceFromRange buffer) (JS.Fin 30)))
  else JS.Fin 0.

Definition score_price (p : Listing) (profile : Profile) : JS.num :=
  let price := buyingPrice p in
  if JS.valid_number price
     && JS.truthy_nullable (minPrice profile)
     && JS.truthy_nullable (maxPrice profile)
     && JS.truthy_nullable (avgPrice profile)
  then range_score (JS.number_value price)
                   (JS.to_num (minPrice profile)) (JS.to_num (maxPrice profile))
                   (JS.to_num (avgPrice profile)) (JS.Fin 50000)
  else JS.Fin 0.

Definition score_size (p : Listing) (profile : Profile) : JS.num :=
  let sqm := JS.or_json (squareMeter p) (livingSpace p) in
  if JS.valid_number sqm
     && JS.truthy_nullable (minSqm profile)
     && JS.truthy_nullable (maxSqm profile)
     && JS.truthy_nullable (avgSqm profile)
  then
    if JS.lt (JS.number_value sqm) (JS.Fin 15) then JS.Fin 0
    else range_score (JS.number_value sqm)
                     (JS.to_num (minSqm profile)) (JS.to_num (maxSqm profile))
                     (JS.to_num (avgSqm profile)) (JS.Fin 15)
  else JS.Fin 0.

Definition score_rooms (p : Listing) (profile : Profile) : JS.num :=
  if JS.valid_number (rooms p) then
    match avgRooms profile with
    | Some avgRooms =>
        let roomDiff := JS.abs (JS.sub (JS.number_value (rooms p)) avgRooms) in
        if JS.eq roomDiff (JS.Fin 0) then JS.Fin 100
        else if JS.le roomDiff (JS.Fin 1) then JS.Fin 70
        else if JS.le roomDiff (JS.Fin 2) then JS.Fin 40
        else JS.Fin 0
    | None => JS.Fin 0 (* profile.avgRooms === null *)
    end
  else JS.Fin 0.

(** The [scores] object of [calculateMatchScore]. *)
Definition dimension_scores (p : Listing) (profile : Profile) : Scores :=
  mkScores (score_city p profile) (score_price p profile)
           (score_size p profile) (score_rooms p profile).

(** [profile.weights || { city: 25, price: 35, size: 30, rooms: 10 }]. *)
Definition weights_of (profile : Profile) : Weights :=
  match weights profile with
  | Some w => w
  | None => default_weights
  end.

(** The weighted average [totalScore]. *)
Definition weighted_total (scores : Scores) (weights : Weights) : JS.num :=
  JS.add
    (JS.add
       (JS.add
          (JS.mul (JS.or0 (s_city scores)) (JS.div (w_city weights) (JS.Fin 100)))
          (JS.mul (JS.or0 (s_price scores)) (JS.div (w_price weights) (JS.Fin 100))))
       (JS.mul (JS.or0 (s_size scores)) (JS.div (w_size weights) (JS.Fin 100))))
    (JS.mul (JS.or0 (s_rooms scores)) (JS.div (w_rooms weights) (JS.Fin 100))).

(** [Object.values(scores).filter(s => s > 0).length]. *)
Definition validScores (scores : Scores) : nat :=
  List.length
    (filter (fun s => JS.gt s (JS.Fin 0))
            [s_city scores; s_price scores; s_size scores; s_rooms scores]).

Definition calculateMatchScore (p : Listing) (profile : option Profile)
  : JS.num :=
  match profile with
  | None => JS.Fin 0
  | Some profile =>
      let weights := weights_of profile in
      let scores := dimension_scores p profile in
      let totalScore := weighted_total scores weights in
      if JS.eq (s_price scores) (JS.Fin 0) || JS.eq (s_size scores) (JS.Fin 0)
      then JS.round (JS.mul totalScore (JS.Fin 0.3))
      else if (validScores scores <? 3)%nat
           then JS.round (JS.mul totalScore (JS.Fin 0.5))
           else JS.round totalScore
  end.

Definition matchesProfile (p : Listing) (profile : option Profile) : bool :=
  JS.ge (calculateMatchScore p profile) (JS.Fin 60).

(** ** Recommendation ranking *)

Record Recommendation : Type := mkRecommendation {
  property : Listing;
  score : JS.num;
  isSurprise : bool
}.

(** [likedProperties.some((lp) => isSameProperty(lp, p))]. *)
Definition liked_already (likedProperties : list Listing) (p : Listing) : bool :=
  existsb (fun lp => isSameProperty (Some lp) (Some p)) likedProperties.

Definition by_score_descending (a b : Recommendation) : JS.num :=
  JS.sub (score b) (score a).

(** The threshold-passing list, before the surprise is pushed. *)
Definition scoredProperties (profile : Profile)
           (likedProperties allProperties : list Listing)
  : list Recommendation :=
  JS.sort by_score_descending
    (filter (fun item => JS.ge (score item) (JS.Fin 60))
       (map (fun p => mkRecommendation p (calculateMatchScore p (Some profile)) false)
          (filter (fun p => negb (liked_already likedProperties p))
                  allProperties))).

Definition surpriseProperties (profile : Profile)
           (likedProperties allProperties : list Listing)
  : list Recommendation :=
  let scored := scoredProperties profile likedProperties allProperties in
  JS.sort by_score_descending
    (filter (fun item => JS.ge (score item) (JS.Fin 45)
                         && JS.lt (score item) (JS.Fin 60))
       (map (fun p => mkRecommendation p (calculateMatchScore p (Some profile)) false)
          (filter
             (fun p =>
                let liked := liked_already likedProperties p in
                let alreadyRecommended :=
                  existsb (fun item => isSameProperty (Some (property item)) (Some p))
                          scored in
                negb liked && negb alreadyRecommended)
             allProperties))).

(** [scoredProperties] once the surprise, if any, has been pushed. *)
Definition rankedProperties (profile : Profile)
           (likedProperties allProperties : list Listing)
  : list Recommendation :=
  let scored := scoredProperties profile likedProperties allProperties in
  match surpriseProperties profile likedProperties allProperties with
  | surprise :: _ =>
      if JS.ge (confidence profile) (JS.Fin 60)
      then scored ++ [mkRecommendation (property surprise) (score surprise) true]
      else scored
  | [] => scored
  end.

(** What the recommendations section ends up showing. *)
Inductive RecommendationView : Type :=
| SectionHidden
| NeedMoreData (confidence : JS.num)
| Recommendations (items : list Recommendation).

Definition renderRecommendations (likedProperties allProperties : list Listing)
  : RecommendationView :=
  match buildPreferenceProfile (Some likedProperties), allProperties with
  | None, _ | _, [] => SectionHidden
  | Some profile, _ :: _ =>
      match rankedProperties profile likedProperties allProperties with
      | [] =>
          if JS.lt (confidence profile) (JS.Fin 60)
          then NeedMoreData (confidence profile)
          else SectionHidden
      | ranked => Recommendations (firstn 10 ranked)
      end
  end.

(** ** Swipe session: batches of cards *)

Definition MAX_CARDS : nat := 15.
Definition MAX_TOTAL_SWIPES : nat := 50.

(** The random source: the k-th call of [Math.random]. *)
Definition oracle := nat -> nat.

(** [Math.floor(Math.random() * bound)]: some index below [bound]. *)
Definition random_below (bound : nat) (g : oracle) : nat * oracle :=
  (g 0%nat mod bound, fun k => g (S k)).

(** [copy[i] = v] for an index inside the array. *)
Fixpoint set_nth {A : Type} (l : list A) (i : nat) (v : A) : list A :=
  match l, i with
  | [], _ => []
  | _ :: t, O => v :: t
  | h :: t, S k => h :: set_nth t k v
  end.

(** [[copy[i], copy[j]] = [copy[j], copy[i]]]. *)
Definition swap {A : Type} (copy : list A) (i j : nat) : list A :=
  match nth_error copy i, nth_error copy j with
  | Some x, Some y => set_nth (set_nth copy i y) j x
  | _, _ => copy
  end.

(** The loop [for (let i = ...; i > 0; i--)] of [pickRandomSubset]. *)
Fixpoint shuffle {A : Type} (i : nat) (copy : list A) (g : oracle)
  : list A * oracle :=
  match i with
  | O => (copy, g)
  | S i' =>
      let (j, g') := random_below (i + 1) g in
      shuffle i' (swap copy i j) g'
  end.

Definition pickRandomSubset {A : Type} (arr : list A) (n : nat) (g : oracle)
  : list A * oracle :=
  let (copy, g') := shuffle (List.length arr - 1) arr g in
  (firstn (Nat.min n (List.length copy)) copy, g').

Record Session : Type := mkSession {
  allProperties : list Listing;
  properties : list Listing;
  currentIndex : nat;
  likedProperties : list Listing
}.

(** The card a load-more request leaves on screen. *)
Inductive LoadOutcome : Type :=
| MaximumReached     (* only "Show My Recommendations" is offered *)
| SeenEverything     (* only "Show My Recommendations" is offered *)
| Loaded (count : nat).

Definition forces_results (o : LoadOutcome) : bool :=
  match o with
  | MaximumReached | SeenEverything => true
  | Loaded _ => false
  end.

Definition unseenProperties (s : Session) : list Listing :=
  filter (fun p =>
            negb (existsb (fun shown => isSameProperty (Some shown) (Some p))
                          (properties s)))
         (allProperties s).

Definition loadMoreProperties (s : Session) (g : oracle)
  : Session * LoadOutcome * oracle :=
  if (MAX_TOTAL_SWIPES <=? List.length (properties s))%nat
  then (s, MaximumReached, g)
  else
    let unseen := unseenProperties s in
    match unseen with
    | [] => (s, SeenEverything, g)
    | _ :: _ =>
        let remainingSlots := (MAX_TOTAL_SWIPES - List.length (properties s))%nat in
        let batchSize :=
          Nat.min 15 (Nat.min remainingSlots (List.length unseen)) in
        let (moreProperties, g') := pickRandomSubset unseen batchSize g in
        (mkSession (allProperties s) (properties s ++ moreProperties)
                   (currentIndex s) (likedProperties s),
         Loaded (List.length moreProperties), g')
    end.

(** The start of a session: [initSwipeMode] and [fetchProperties] both
    install the catalog and draw the first batch. *)
Definition startSession (catalog : list Listing) (g : oracle)
  : Session * oracle :=
  let (first, g') := pickRandomSubset catalog MAX_CARDS g in
  (mkSession catalog first 0 [], g').

(** [handleLike] and [handleNope]. *)
Definition handleLike (s : Session) : Session :=
  match nth_error (properties s) (currentIndex s) with
  | None => s
  | Some current =>
      mkSession (allProperties s) (properties s) (currentIndex s + 1)
                (likedProperties s ++ [current])
  end.

Definition handleNope (s : Session) : Session :=
  if (List.length (properties s) <=? currentIndex s)%nat then s
  else mkSession (allProperties s) (properties s) (currentIndex s + 1)
                 (likedProperties s).

(** ** The normalized weights over the box of clamped weights *)

(** The weights are finite, sum to 100, and lie in the ranges that the
    normalization leaves: city 13..41, price 22..53, size 17..47,
    rooms 3..20. *)
Definition weights_ok (w : Weights) : bool :=
  match w with
  | mkWeights (JS.Fin c) (JS.Fin p) (JS.Fin s) (JS.Fin r) =>
      Qeq_bool (c + p + s + r) 100
      && Qle_bool 13 c && Qle_bool c 41
      && Qle_bool 22 p && Qle_bool p 53
      && Qle_bool 17 s && Qle_bool s 47
      && Qle_bool 3 r && Qle_bool r 20
  | _ => false
  end.

Definition zrange (lo : Z) (n : nat) : list Z :=
  map (fun k => (lo + Z.of_nat k)%Z) (seq 0 n).

Definition clamped (c p s r : Z) : Weights :=
  mkWeights (JS.Fin (inject_Z c)) (JS.Fin (inject_Z p))
            (JS.Fin (inject_Z s)) (JS.Fin (inject_Z r)).

(** ** Predicates used in the statements *)

(** [counts[s] || 0]. *)
Fixpoint count_of (s : string) (counts : list (string * nat)) : nat :=
  match counts with
  | [] => 0%nat
  | (k, n) :: rest => if String.eqb k s then n else count_of s rest
  end.

(** A dimension score: NaN, or a number between 0 and 100. *)
Definition dimension_ok (x : JS.num) : Prop :=
  x = JS.NaN \/ exists q, x = JS.Fin q /\ 0 <= q <= 100.

Definition finite (n : JS.num) : Prop := exists q, n = JS.Fin q.

Definition finite_nullable (v : JS.nullable) : Prop :=
  v = None \/ exists q, v = Some (JS.Fin q).

(** What the match scorer relies on in a profile: finite (or null)
    price and size statistics and weights that pass [weights_ok]. *)
Definition profile_ok (profile : Profile) : Prop :=
  finite_nullable (minPrice profile)
  /\ finite_nullable (maxPrice profile)
  /\ finite_nullable (avgPrice profile)
  /\ finite_nullable (minSqm profile)
  /\ finite_nullable (maxSqm profile)
  /\ finite_nullable (avgSqm profile)
  /\ exists w, weights profile = Some w /\ weights_ok w = true.

(** The sessions the controller can be in: a started session, then any
    sequence of likes, passes and load-more requests. *)
Inductive reachable : Session -> Prop :=
| reach_start (catalog : list Listing) (g : oracle) :
    reachable (fst (startSession catalog g))
| reach_like (s : Session) :
    reachable s -> reachable (handleLike s)
| reach_nope (s : Session) :
    reachable s -> reachable (handleNope s)
| reach_load (s : Session) (g : oracle) :
    reachable s -> reachable (fst (fst (loadMoreProperties s g))).

(** ** Example data *)

Definition example_stats : Stats :=
  mkStats (JS.Fin 100) (Some (JS.Fin 14142)) (Some (JS.Fin 320000))
          (Some (JS.Fin 1.4)) (Some (JS.Fin 60)) (Some (JS.Fin 0.4))
          (Some (JS.Fin 2.2)) 3.

Definition address_in (c : string) : option Address :=
  Some (mkAddress (Some c) None None).

(** A listing with an id, a city, a price, an area and a room count. *)
Definition listing (i : Z) (c : string) (price sqm rms : Q) : Listing :=
  mkListing (JS.Number (inject_Z i)) (JS.Str "Apartment") (address_in c)
            (JS.Number price) (JS.Number sqm) JS.Undefined (JS.Number rms).

(** A listing without an id. *)
Definition untagged (t : string) (c : string) (price sqm rms : Q) : Listing :=
  mkListing JS.Undefined (JS.Str t) (address_in c)
            (JS.Number price) (JS.Number sqm) JS.Undefined (JS.Number rms).

Definition five_likes : list Listing :=
  [listing 1 "A" 300000 58 2; listing 2 "A" 340000 62 2;
   listing 3 "A" 320000 60 3; listing 4 "A" 310000 59 2;
   listing 5 "A" 330000 61 2].

Definition example_catalog : list Listing :=
  five_likes
  ++ [listing 9 "A" 325000 60 2; listing 10 "B" 325000 60 2;
      listing 11 "B" 325000 80 2; listing 12 "B" 325000 70 4].

Definition no_profile : Profile :=
  mkProfile None [] (JS.Fin 0) None None None None None None None None
            None None None None None 0 (JS.Fin 0).

Definition example_profile : Profile :=
  Eval vm_compute in
    match buildPreferenceProfile (Some five_likes) with
    | Some profile => profile
    | None => no_profile
    end.

(** One like only: every range of the profile is a single point. *)
Definition one_like : list Listing := [listing 1 "Berlin" 300000 60 2].

(** Three likes in three cities with the same price, area and rooms. *)
Definition three_likes : list Listing :=
  [listing 1 "A" 300000 60 2; listing 2 "B" 300000 60 2;
   listing 3 "C" 300000 60 2].

Definition example_recommendation : Recommendation :=
  mkRecommendation (listing 9 "A" 325000 60 2) (JS.Fin 96) false.

(** Twenty location samples: "A" 17 times, "B" twice, "C" once. *)
Definition twenty_locations : list string :=
  repeat "A"%string 17 ++ ["B"%string; "B"%string; "C"%string].

(** Three likes without any address. *)
Definition three_likes_nowhere : list Listing :=
  map (fun i => mkListing (JS.Number (inject_Z i)) (JS.Str "Apartment") None
                          (JS.Number 300000) (JS.Number 60) JS.Undefined
                          (JS.Number 2))
      [1; 2; 3]%Z.

Definition twenty_listings : list Listing :=
  map (fun i => listing (Z.of_nat i) "A" 300000 60 2) (seq 1 20).

Definition example_oracle : oracle := fun k => (7 * k + 3)%nat.

Definition example_session : Session :=
  fst (startSession twenty_listings example_oracle).

Definition tiny_listing : Listing := listing 20 "A" 320000 10 2.

Definition untagged_like : Listing := untagged "Sunny flat" "A" 320000 60 2.
Definition untagged_twin : Listing := untagged "Sunny flat" "B" 320000 75 3.

(** ** Further code of [swipe.js] *)

(** [mostCommon(arr)]: the key of the first entry after sorting the
    counts by descending count.  On an empty array [sorted[0]] is
    undefined and reading its [0] raises a TypeError: [None]. *)
Definition mostCommon (arr : list string) : option string :=
  let counts := count_all arr in
  let sorted :=
    JS.sort (fun a b => JS.sub (JS.of_nat (snd b)) (JS.of_nat (snd a)))
            (entries counts) in
  match sorted with
  | [] => None
  | first :: _ => Some (fst first)
  end.

(** The card [handleEndOfSwipes] leaves on screen at the end of a batch. *)
Inductive EndOfSwipesCard : Type :=
| NoMatchesYet (totalSwipesInSession : nat)
    (* one button: load 15 more *)
| GettingThere (likes : nat) (shownConfidence : JS.num)
    (* two buttons: swipe 15 more, show results anyway *)
| GreatJob (likes : nat) (shownConfidence : JS.num) (excellent : bool).
    (* two buttons: show my recommendations, swipe more *)

Definition handleEndOfSwipes (s : Session) : EndOfSwipesCard :=
  let totalSwipesInSession := currentIndex s in
  let profile := buildPreferenceProfile (Some (likedProperties s)) in
  if (List.length (likedProperties s) =? 0)%nat
  then NoMatchesYet totalSwipesInSession
  else if (List.length (likedProperties s) <? 5)%nat
  then GettingThere (List.length (likedProperties s))
                    (match profile with
                     | Some profile => confidence profile
                     | None => JS.Fin 40
                     end)
  else GreatJob (List.length (likedProperties s))
                (match profile with
                 | Some profile => confidence profile
                 | None => JS.Fin 75
                 end)
                (match profile with
                 | Some profile => JS.ge (confidence profile) (JS.Fin 90)
                 | None => false
                 end).

(** Whether the card carries the button that calls [showResultsNow]. *)
Definition offers_results (card : EndOfSwipesCard) : bool :=
  match card with
  | NoMatchesYet _ => false
  | GettingThere _ _ | GreatJob _ _ _ => true
  end.

(** *** [setupCarousel]: the image carousel of a card *)

(** [updateImage(index)] stores the index in the global
    [currentImageIndex].  The previous and next buttons and the dots are
    part of the card's markup and are replaced with it.  The arrow keys
    are handled by a [keydown] listener that every call of
    [setupCarousel] adds to the document and that is never removed: a key
    runs the handler of every carousel set up so far, oldest first, each
    with the length of its own image array.  Indices and lengths are
    integers and [%] is the truncating remainder. *)
Inductive CarouselEvent : Type :=
| PreviousClicked
| NextClicked
| DotClicked (index : Z) (* [parseInt(dot.getAttribute('data-index'))] *)
| ArrowLeft
| ArrowRight.

Definition previousIndex (currentImageIndex imagesLength : Z) : Z :=
  Z.rem (currentImageIndex - 1 + imagesLength) imagesLength.

Definition nextIndex (currentImageIndex imagesLength : Z) : Z :=
  Z.rem (currentImageIndex + 1) imagesLength.

(** [earlier] holds the lengths of the image arrays of the carousels set
    up for earlier cards, oldest first; [imagesLength] is the length for
    the card on screen. *)
Definition carouselStep (earlier : list Z) (imagesLength : Z)
           (currentImageIndex : Z) (e : CarouselEvent) : Z :=
  match e with
  | PreviousClicked => previousIndex currentImageIndex imagesLength
  | NextClicked => nextIndex currentImageIndex imagesLength
  | DotClicked index => index
  | ArrowLeft =>
      fold_left previousIndex (earlier ++ [imagesLength]) currentImageIndex
  | ArrowRight =>
      fold_left nextIndex (earlier ++ [imagesLength]) currentImageIndex
  end.

(** [showCurrentProperty] resets the index to 0 and [setupCarousel] loads
    image 0; then the events follow. *)
Definition carouselRun (earlier : list Z) (imagesLength : Z)
           (events : list CarouselEvent) : Z :=
  fold_left (carouselStep earlier imagesLength) events 0%Z.

(** A dot exists for every image and carries that image's index. *)
Definition event_ok (imagesLength : Z) (e : CarouselEvent) : Prop :=
  match e with
  | DotClicked index => (0 <= index < imagesLength)%Z
  | _ => True
  end.

(** *** [initSwipeMode]: the catalog mix *)

(** The listing object as [initSwipeMode] reads it: the fields of
    [Listing] and the [price] field that stands in for a missing
    [buyingPrice]. *)
Record ListingObject : Type := mkListingObject {
  core : Listing;
  price : JS.json
}.

(** [Math.ceil]. *)
Definition ceil (x : JS.num) : JS.num :=
  match x with
  | JS.Fin q => JS.Fin (inject_Z (Qceiling q))
  | _ => x
  end.

(** [a ?? b]. *)
Definition nullish (a b : JS.json) : JS.json :=
  match a with
  | JS.Undefined | JS.Null => b
  | _ => a
  end.

(** The end index of [arr.slice(0, end)]: [end] is truncated to an
    integer (NaN counts as 0), a negative one counts from the end of the
    array, and the result is clamped to the array. *)
Definition slice_end (len : nat) (e : JS.num) : nat :=
  match e with
  | JS.Fin q =>
      let k := (Qnum q ÷ Z.pos (Qden q))%Z in
      if (k <? 0)%Z then Z.to_nat (Z.max (Z.of_nat len + k) 0)
      else Z.to_nat (Z.min k (Z.of_nat len))
  | JS.PInf => len
  | JS.NInf | JS.NaN => 0%nat
  end.

Definition slice0 {A : Type} (arr : list A) (e : JS.num) : list A :=
  firstn (slice_end (List.length arr) e) arr.

(** What [initSwipeMode] leaves behind. *)
Inductive InitOutcome : Type :=
| NoPropertiesFromBackend
| NoPropertiesFound
| SwipeStarted (catalog : list ListingObject) (s : Session) (g : oracle).

Section CatalogMix.

(** The conversion of a string to a number, a built-in that the
    comparisons and the subtraction apply to a price given as a string. *)
Variable StringToNumber : string -> JS.num.

Definition ToNumber (v : JS.json) : JS.num :=
  match v with
  | JS.Undefined => JS.NaN
  | JS.Null => JS.Fin 0
  | JS.Boolean b => JS.Fin (if b then 1 else 0)
  | JS.Number q => JS.Fin q
  | JS.Str s => StringToNumber s
  end.

(** [p.buyingPrice ?? p.price ?? 0], as a number. *)
Definition priceOf (p : ListingObject) : JS.num :=
  ToNumber (nullish (buyingPrice (core p)) (nullish (price p) (JS.Number 0))).

Definition sortedProperties (propertiesList : list ListingObject)
  : list ListingObject :=
  JS.sort (fun a b => let priceA := priceOf a in
                      let priceB := priceOf b in
                      JS.sub priceA priceB)
          propertiesList.

Definition affordableProperties (propertiesList : list ListingObject)
           (budget : JS.num) : list ListingObject :=
  let maxAffordable := JS.mul budget (JS.Fin 1.5) in
  filter (fun p => let price := priceOf p in
                   JS.gt price (JS.Fin 0) && JS.le price maxAffordable)
         (sortedProperties propertiesList).

Definition aspirationalProperties (propertiesList : list ListingObject)
           (budget : JS.num) : list ListingObject :=
  let maxAffordable := JS.mul budget (JS.Fin 1.5) in
  filter (fun p => let price := priceOf p in JS.gt price maxAffordable)
         (sortedProperties propertiesList).

Definition mixedProperties (propertiesList : list ListingObject)
           (budget : JS.num) : list ListingObject :=
  let sortedLength := JS.of_nat (List.length (sortedProperties propertiesList)) in
  let affordableCount := ceil (JS.mul sortedLength (JS.Fin 0.7)) in
  let aspirationalCount := JS.sub sortedLength affordableCount in
  slice0 (affordableProperties propertiesList budget) affordableCount
  ++ slice0 (aspirationalProperties propertiesList budget) aspirationalCount.

Definition initSwipeMode (propertiesList : option (list ListingObject))
           (budget : JS.num) (g : oracle) : InitOutcome :=
  match propertiesList with
  | None | Some [] => NoPropertiesFromBackend
  | Some propertiesList =>
      match mixedProperties propertiesList budget with
      | [] => NoPropertiesFound
      | mixed =>
          let (s, g') := startSession (map core mixed) g in
          SwipeStarted mixed s g'
      end
  end.

End CatalogMix.

(** ** The first swipe module *)

(** [swipe.js] opens with an earlier, self-contained swipe module with
    its own state and its own similarity score.  Its cards come from the
    budget module's backend, which computes [price], [sqm] and
    [affordability]: [price] and [sqm] are numbers when present. *)
Module Legacy.

Record Property : Type := mkProperty {
  id : JS.json;
  price : option Q;
  sqm : option Q;
  affordability : JS.json
}.

Record State : Type := mkState {
  allSwipeProperties : list Property;
  swipeProperties : list Property;
  currentSwipeIndex : nat;
  likedProperties : list Property
}.

Definition MAX_SWIPE_CARDS : nat := 15.

(** [p.affordability === 'affordable' || p.affordability === 'stretch'] *)
Definition in_budget_range (p : Property) : bool :=
  JS.strict_eq (affordability p) (JS.Str "affordable")
  || JS.strict_eq (affordability p) (JS.Str "stretch").

(** [shuffleArray]: the same loop as [pickRandomSubset], without the cut. *)
Definition shuffleArray {A : Type} (arr : list A) (g : oracle)
  : list A * oracle :=
  shuffle (List.length arr - 1) arr g.

(** [initSwipeMode(properties, budget)]; [properties || []]. *)
Definition initSwipeMode (properties : option (list Property)) (g : oracle)
  : State * oracle :=
  let allSwipeProperties := match properties with Some l => l | None => [] end in
  let affordable := filter in_budget_range allSwipeProperties in
  let (shuffled, g') := shuffleArray affordable g in
  (mkState allSwipeProperties (firstn MAX_SWIPE_CARDS shuffled) 0 [], g').

Definition handleLike (s : State) : State :=
  let likedProperties :=
    if (currentSwipeIndex s <? List.length (swipeProperties s))%nat
    then match nth_error (swipeProperties s) (currentSwipeIndex s) with
         | Some p => likedProperties s ++ [p]
         | None => likedProperties s
         end
    else likedProperties s in
  mkState (allSwipeProperties s) (swipeProperties s)
          (currentSwipeIndex s + 1) likedProperties.

Definition handlePass (s : State) : State :=
  mkState (allSwipeProperties s) (swipeProperties s)
          (currentSwipeIndex s + 1) (likedProperties s).

(** [new Set(ids).has(id)]: membership up to the equality of JSON values. *)
Definition has (ids : list JS.json) (i : JS.json) : bool :=
  existsb (JS.strict_eq i) ids.

(** A number field used as a condition, and [field || 0]. *)
Definition present (v : option Q) : bool :=
  match v with
  | Some q => negb (Qeq_bool q 0)
  | None => false
  end.

Definition or_zero (v : option Q) : Q :=
  match v with
  | Some q => q
  | None => 0
  end.

(** [likedProperties.reduce((sum, p) => sum + (p.field || 0), 0)
     / likedProperties.length], exactly: the sum does not overflow, as
    the source's does for values near the largest number. *)
Definition mean_of (field : Property -> option Q) (liked : list Property)
  : JS.num :=
  JS.div (JS.Fin (fold_left (fun sum p => sum + or_zero (field p)) liked 0))
         (JS.of_nat (List.length liked)).

(** One of the two halves of the score. *)
Definition add_similarity (score : JS.num) (v : option Q) (avg : JS.num)
  : JS.num :=
  if present v && JS.truthy avg then
    let diff := JS.div (JS.abs (JS.sub (JS.Fin (or_zero v)) avg)) avg in
    JS.add score (JS.mul (JS.sub (JS.Fin 1) (JS.min diff (JS.Fin 1)))
                         (JS.Fin 50))
  else score.

Record Scored : Type := mkScored {
  property : Property;
  matchScore : JS.num
}.

Definition renderRecommendations (s : State) : list Scored :=
  let avgPrice := mean_of price (likedProperties s) in
  let avgSqm := mean_of sqm (likedProperties s) in
  let shownIds := map id (swipeProperties s) ++ map id (likedProperties s) in
  firstn 6
    (JS.sort (fun a b => JS.sub (matchScore b) (matchScore a))
       (map (fun p =>
               let score := JS.Fin 0 in
               let score := add_similarity score (price p) avgPrice in
               let score := add_similarity score (sqm p) avgSqm in
               mkScored p score)
            (filter in_budget_range
               (filter (fun p => negb (has shownIds (id p)))
                       (allSwipeProperties s))))).

Definition resetSwipe (s : State) (g : oracle) : State * oracle :=
  let affordable := filter in_budget_range (allSwipeProperties s) in
  let likedIds := map id (likedProperties s) in
  let available := filter (fun p => negb (has likedIds (id p))) affordable in
  let (shuffled, g') := shuffleArray available g in
  (mkState (allSwipeProperties s) (firstn MAX_SWIPE_CARDS shuffled) 0
           (likedProperties s), g').

(** The states the module can be in. *)
Inductive reachable : State -> Prop :=
| reach_init (properties : option (list Property)) (g : oracle) :
    reachable (fst (initSwipeMode properties g))
| reach_like (s : State) : reachable s -> reachable (handleLike s)
| reach_pass (s : State) : reachable s -> reachable (handlePass s)
| reach_reset (s : State) (g : oracle) :
    reachable s -> reachable (fst (resetSwipe s g)).

End Legacy.

(** ** Predicates used in the further statements *)

(** The rational carried by a finite number. *)
Definition qval (n : JS.num) : Q :=
  match n with
  | JS.Fin q => q
  | _ => 0
  end.

Definition positive (n : JS.num) : Prop := exists q, n = JS.Fin q /\ 0 < q.

(** The least and the greatest valid value of one numeric dimension.
    [vs] holds the values of the liked listings; a valid value is a
    positive number ([JS.valid_number]).  Either no value is valid and
    the three statistics are [null], or the minimum and the maximum are
    valid values of [vs] that enclose every valid value of [vs], and the
    mean is not [null]. *)
Definition extremes_of (vs : list JS.json) (lo avg hi : JS.nullable) : Prop :=
  ((forall v, In v vs -> JS.valid_number v = false)
   /\ lo = None /\ avg = None /\ hi = None)
  \/ exists least greatest,
       In least vs /\ JS.valid_number least = true
       /\ In greatest vs /\ JS.valid_number greatest = true
       /\ lo = Some (JS.number_value least)
       /\ hi = Some (JS.number_value greatest)
       /\ avg <> None
       /\ forall v, In v vs -> JS.valid_number v = true ->
            JS.le (JS.number_value least) (JS.number_value v) = true
            /\ JS.le (JS.number_value v) (JS.number_value greatest) = true.

(** No two listings of the list are the same property, in list order. *)
Inductive distinct : list Listing -> Prop :=
| distinct_nil : distinct []
| distinct_cons (a : Listing) (l : list Listing) :
    (forall b, In b l -> isSameProperty (Some a) (Some b) = false) ->
    distinct l -> distinct (a :: l).


(** The property names that a fresh object inherits from
    [Object.prototype].  For such a category the counting loop
    [counts[cat] = (counts[cat] || 0) + 1] reads the inherited value
    instead of [undefined] (and [__proto__] is never stored), so the
    counting of the source is [count_add] for every other category. *)
Definition object_prototype_keys : list string :=
  ["constructor"; "__defineGetter__"; "__defineSetter__"; "hasOwnProperty";
   "__lookupGetter__"; "__lookupSetter__"; "isPrototypeOf";
   "propertyIsEnumerable"; "toString"; "valueOf"; "__proto__";
   "toLocaleString"]%string.

Definition plain_key (cat : string) : bool :=
  negb (existsb (String.eqb cat) object_prototype_keys).

(** The largest integer up to which every integer is a number of the
    source, 2^53: sums of values up to it cannot overflow. *)
Definition MAX_EXACT : Q := 9007199254740992.

(** A decision procedure for [distinct]. *)
Fixpoint distinctb (l : list Listing) : bool :=
  match l with
  | [] => true
  | a :: rest =>
      forallb (fun b => negb (isSameProperty (Some a) (Some b))) rest
      && distinctb rest
  end.

(** ** Further example data *)

Definition two_likes : list Listing :=
  [listing 1 "A" 300000 58 2; listing 2 "A" 340000 62 2].

Definition two_likes_profile : Profile :=
  Eval vm_compute in
    match buildPreferenceProfile (Some two_likes) with
    | Some profile => profile
    | None => no_profile
    end.


(** A candidate without a price. *)
Definition unpriced_candidate : Listing :=
  mkListing (JS.Number 8) (JS.Str "Apartment") (address_in "A")
            JS.Null (JS.Number 60) JS.Undefined (JS.Number 2).

Definition no_string_prices : string -> JS.num := fun _ => JS.NaN.

Definition example_offers : list ListingObject :=
  map (fun l => mkListingObject l JS.Undefined) example_catalog.

Definition legacy_card (i : Z) (price sqm : Q) (level : string)
  : Legacy.Property :=
  Legacy.mkProperty (JS.Number (inject_Z i)) (Some price) (Some sqm)
                    (JS.Str level).

Definition legacy_cards : list Legacy.Property :=
  [legacy_card 1 300000 60 "affordable"; legacy_card 2 350000 70 "stretch";
   legacy_card 3 320000 62 "affordable"; legacy_card 4 900000 150 "out_of_range";
   legacy_card 5 280000 55 "affordable"; legacy_card 6 400000 80 "stretch"].

Definition legacy_state : Legacy.State :=
  Legacy.mkState legacy_cards (firstn 2 legacy_cards) 2
                 [legacy_card 1 300000 60 "affordable"].

(** * Properties *)

(** ** Facts about the number model *)

Lemma le_Fin (a b : Q) : JS.le (JS.Fin a) (JS.Fin b) = true <-> a <= b.
Proof.
  unfold JS.le, JS.compare. rewrite Qle_alt.
  destruct (a ?= b); split; intros; congruence.
Qed.

Lemma lt_Fin (a b : Q) : JS.lt (JS.Fin a) (JS.Fin b) = true <-> a < b.
Proof.
  unfold JS.lt, JS.compare. rewrite Qlt_alt.
  destruct (a ?= b); split; intros; congruence.
Qed.

Lemma round_mono (a b : Q) :
  a <= b -> JS.le (JS.round (JS.Fin a)) (JS.round (JS.Fin b)) = true.
Proof.
  intros H. unfold JS.round. apply le_Fin. rewrite <- Zle_Qle.
  apply Qfloor_resp_le. lra.
Qed.

(** ** Profile builder on an empty liked list *)

(** C9: building a profile from no liked listings (an absent or an empty
    list) returns no profile: the guard answers before anything else is
    evaluated.  A non-empty liked list is never answered with no
    profile. *)
Theorem buildPreferenceProfile_no_likes :
  buildPreferenceProfile None = None
  /\ buildPreferenceProfile (Some []) = None
  /\ forall p liked, buildPreferenceProfile (Some (p :: liked)) <> None.
Proof.
  repeat split. intros p liked. unfold buildPreferenceProfile.
  destruct (valid_numbers (map buyingPrice (p :: liked)));
    destruct (valid_numbers
                (map (fun p0 => JS.or_json (squareMeter p0) (livingSpace p0))
                     (p :: liked)));
    destruct (valid_numbers (map rooms (p :: liked))); discriminate.
Qed.

(** ** Confidence *)

Lemma base_confidence_mono (m n : nat) :
  (m <= n)%nat ->
  exists a b, base_confidence m = JS.Fin (inject_Z a)
              /\ base_confidence n = JS.Fin (inject_Z b) /\ (a <= b)%Z.
Proof.
  intros H. unfold base_confidence.
  destruct (Nat.leb_spec 10 m); destruct (Nat.leb_spec 10 n); try lia;
    [do 2 eexists; repeat split; lia | | ].
  1: { destruct (Nat.leb_spec 7 m); destruct (Nat.leb_spec 5 m);
       destruct (Nat.leb_spec 3 m); destruct (Nat.leb_spec 2 m);
       do 2 eexists; (split; [reflexivity | split; [reflexivity | lia]]). }
  destruct (Nat.leb_spec 7 m); destruct (Nat.leb_spec 7 n); try lia;
    [do 2 eexists; repeat split; lia | | ].
  1: { destruct (Nat.leb_spec 5 m); destruct (Nat.leb_spec 3 m);
       destruct (Nat.leb_spec 2 m);
       do 2 eexists; (split; [reflexivity | split; [reflexivity | lia]]). }
  destruct (Nat.leb_spec 5 m); destruct (Nat.leb_spec 5 n); try lia;
    [do 2 eexists; repeat split; lia | | ].
  1: { destruct (Nat.leb_spec 3 m); destruct (Nat.leb_spec 2 m);
       do 2 eexists; (split; [reflexivity | split; [reflexivity | lia]]). }
  destruct (Nat.leb_spec 3 m); destruct (Nat.leb_spec 3 n); try lia;
    [do 2 eexists; repeat split; lia | | ].
  1: { destruct (Nat.leb_spec 2 m);
       do 2 eexists; (split; [reflexivity | split; [reflexivity | lia]]). }
  destruct (Nat.leb_spec 2 m); destruct (Nat.leb_spec 2 n); try lia;
    do 2 eexists; (split; [reflexivity | split; [reflexivity | lia]]).
Qed.

(** C5: with the consistency and variation statistics held fixed, the
    confidence score is monotonically non-decreasing in the number of
    liked listings. *)
Theorem confidence_monotone_in_sample_size (m n : nat) (stats : Stats) :
  (m <= n)%nat ->
  JS.le (calculateConfidenceScore m stats) (calculateConfidenceScore n stats)
  = true.
Proof.
  intros H.
  destruct (base_confidence_mono m n H) as (a & b & Ha & Hb & Hab).
  unfold calculateConfidenceScore. rewrite Ha, Hb.
  assert (Hq : inject_Z a <= inject_Z b) by (rewrite <- Zle_Qle; exact Hab).
  destruct (JS.lt (st_cityConsistency stats) (JS.Fin 40));
    destruct (JS.gt _ _ || JS.gt _ _)%bool;
    cbn [JS.mul]; apply round_mono; lra.
Qed.

Lemma confidence_monotone_in_sample_size_witness :
  (2 <= 3)%nat
  /\ JS.le (calculateConfidenceScore 2 example_stats)
           (calculateConfidenceScore 3 example_stats) = true.
Proof.
  split; [lia | apply (confidence_monotone_in_sample_size 2 3 example_stats); lia].
Defined.

(** ** The stable sort *)

Lemma sort_insert_perm {A : Type} (cmp : A -> A -> JS.num) (a : A) (l : list A) :
  Permutation (JS.sort_insert cmp a l) (a :: l).
Proof.
  induction l as [|y ys IH]; cbn [JS.sort_insert].
  - apply Permutation_refl.
  - destruct (JS.gt (cmp a y) (JS.Fin 0)).
    + apply Permutation_trans with (y :: a :: ys).
      * apply perm_skip, IH.
      * apply perm_swap.
    + apply Permutation_refl.
Qed.

Lemma sort_perm {A : Type} (cmp : A -> A -> JS.num) (l : list A) :
  Permutation (JS.sort cmp l) l.
Proof.
  induction l as [|a rest IH]; cbn [JS.sort].
  - apply perm_nil.
  - apply Permutation_trans with (a :: JS.sort cmp rest).
    + apply sort_insert_perm.
    + apply perm_skip, IH.
Qed.

Lemma sort_In {A : Type} (cmp : A -> A -> JS.num) (l : list A) (x : A) :
  In x (JS.sort cmp l) <-> In x l.
Proof.
  split; apply Permutation_in;
    [apply sort_perm | apply Permutation_sym, sort_perm].
Qed.

Lemma descending_gt (qa qh : Q) (a h : Recommendation) :
  score a = JS.Fin qa -> score h = JS.Fin qh ->
  JS.gt (by_score_descending a h) (JS.Fin 0) = true <-> qa < qh.
Proof.
  intros Ha Hh. unfold by_score_descending, JS.gt. rewrite Ha, Hh.
  cbn [JS.sub JS.neg JS.add]. rewrite lt_Fin. split; intros; lra.
Qed.

(** On finite scores, the head of the descending sort is a maximum. *)
Lemma sort_head_max (l : list Recommendation) :
  (forall x, In x l -> exists q, score x = JS.Fin q) ->
  forall h t, JS.sort by_score_descending l = h :: t ->
  forall x, In x l -> JS.le (score x) (score h) = true.
Proof.
  induction l as [|a rest IH]; intros Hfin h t Hsort x Hx.
  - destruct Hx.
  - cbn [JS.sort] in Hsort.
    destruct (Hfin a (or_introl eq_refl)) as [qa Hqa].
    assert (Hfin' : forall y, In y rest -> exists q, score y = JS.Fin q)
      by (intros y Hy; apply Hfin; right; exact Hy).
    destruct (JS.sort by_score_descending rest) as [|h0 t0] eqn:E.
    + cbn [JS.sort_insert] in Hsort. injection Hsort as <- _.
      assert (rest = []) as ->.
      { apply Permutation_nil. rewrite <- E. apply sort_perm. }
      destruct Hx as [<-|[]]. rewrite Hqa. apply le_Fin. lra.
    + assert (Hh0 : In h0 rest)
        by (apply (sort_In by_score_descending); rewrite E; left; reflexivity).
      destruct (Hfin' h0 Hh0) as [q0 Hq0].
      specialize (IH Hfin' h0 t0 eq_refl).
      cbn [JS.sort_insert] in Hsort.
      destruct (JS.gt (by_score_descending a h0) (JS.Fin 0)) eqn:G.
      * injection Hsort as <- _.
        apply (descending_gt qa q0 a h0 Hqa Hq0) in G.
        destruct Hx as [<-|Hx]; [|apply IH, Hx].
        rewrite Hqa, Hq0. apply le_Fin. lra.
      * injection Hsort as <- _.
        assert (Hle : q0 <= qa).
        { destruct (Qlt_le_dec qa q0) as [Hlt|Hle]; [|exact Hle].
          apply (descending_gt qa q0 a h0 Hqa Hq0) in Hlt. congruence. }
        destruct Hx as [<-|Hx]; [rewrite Hqa; apply le_Fin; lra|].
        specialize (IH x Hx). destruct (Hfin' x Hx) as [qx Hqx].
        rewrite Hqx, Hq0 in IH. apply le_Fin in IH.
        rewrite Hqx, Hqa. apply le_Fin. lra.
Qed.

Lemma between_finite (s : JS.num) (a b : Q) :
  JS.ge s (JS.Fin a) = true -> JS.lt s (JS.Fin b) = true ->
  exists q, s = JS.Fin q.
Proof.
  destruct s; intros Hge Hlt; try discriminate. eexists; reflexivity.
Qed.

(** ** The dynamic weights of every profile *)

Lemma div_Fin (a b : Q) :
  ~ b == 0 -> JS.div (JS.Fin a) (JS.Fin b) = JS.Fin (a / b).
Proof.
  intros H. unfold JS.div.
  destruct (Qeq_bool b 0) eqn:E; [|reflexivity].
  apply Qeq_bool_iff in E. contradiction.
Qed.

Lemma max_Fin (a b : Q) :
  exists c, JS.max (JS.Fin a) (JS.Fin b) = JS.Fin c
            /\ a <= c /\ b <= c /\ (c = a \/ c = b).
Proof.
  unfold JS.max, JS.compare. destruct (a ?= b) eqn:E.
  - apply Qeq_alt in E. exists a. repeat split; auto; lra.
  - apply Qlt_alt in E. exists b. repeat split; auto; lra.
  - apply Qgt_alt in E. exists a. repeat split; auto; lra.
Qed.

Lemma min_Fin (a b : Q) :
  exists c, JS.min (JS.Fin a) (JS.Fin b) = JS.Fin c
            /\ c <= a /\ c <= b /\ (c = a \/ c = b).
Proof.
  unfold JS.min, JS.compare. destruct (a ?= b) eqn:E.
  - apply Qeq_alt in E. exists a. repeat split; auto; lra.
  - apply Qlt_alt in E. exists a. repeat split; auto; lra.
  - apply Qgt_alt in E. exists b. repeat split; auto; lra.
Qed.

Lemma Qfloor_half (z : Z) : Qfloor (inject_Z z + (1 # 2)) = z.
Proof.
  pose proof (Qfloor_le (inject_Z z + (1 # 2))) as Hlo.
  pose proof (Qlt_floor (inject_Z z + (1 # 2))) as Hhi.
  set (f := Qfloor (inject_Z z + (1 # 2))) in *.
  assert (H1 : inject_Z f < inject_Z (z + 1)).
  { rewrite inject_Z_plus. change (inject_Z 1) with 1. lra. }
  assert (H2 : inject_Z z < inject_Z (f + 1)) by lra.
  rewrite <- Zlt_Qlt in H1, H2. lia.
Qed.

Lemma round_between (lo hi : Z) (q : Q) :
  inject_Z lo <= q -> q <= inject_Z hi ->
  exists z, JS.round (JS.Fin q) = JS.Fin (inject_Z z) /\ (lo <= z <= hi)%Z.
Proof.
  intros Hlo Hhi. exists (Qfloor (q + (1 # 2))). split; [reflexivity|].
  split.
  - rewrite <- (Qfloor_half lo) at 1. apply Qfloor_resp_le. lra.
  - rewrite <- (Qfloor_half hi) at 1. apply Qfloor_resp_le. lra.
Qed.

Lemma bounded_weight_range (lo hi : Z) (base score total : Q) :
  (lo <= hi)%Z -> ~ total == 0 ->
  exists z,
    bounded_weight (JS.Fin (inject_Z lo)) (JS.Fin (inject_Z hi))
                   (JS.Fin base) (JS.Fin score) (JS.Fin total)
    = JS.Fin (inject_Z z)
    /\ (lo <= z <= hi)%Z.
Proof.
  intros Hlohi Ht. unfold bounded_weight.
  rewrite (div_Fin score total Ht). cbn [JS.mul].
  destruct (min_Fin (inject_Z hi) (base * (score / total) * 4))
    as (m & -> & Hm1 & _).
  destruct (max_Fin (inject_Z lo) m) as (M & -> & HM1 & _ & [->| ->]).
  - apply round_between; [lra|]. rewrite <- Zle_Qle. exact Hlohi.
  - apply round_between; lra.
Qed.

Lemma consistency_score_cases (cv : JS.num) :
  consistency_score cv = JS.NaN
  \/ exists q, consistency_score cv = JS.Fin q /\ 0 <= q <= 1.
Proof.
  destruct cv as [c| | |].
  - right. unfold consistency_score.
    rewrite div_Fin by (intros H; discriminate H). cbn [JS.sub JS.neg JS.add].
    destruct (min_Fin 1 (1 + - (c / 0.4))) as (m & -> & Hm1 & _).
    destruct (max_Fin 0 m) as (M & -> & HM1 & _ & [->| ->]);
      eexists; (split; [reflexivity | lra]).
  - right. exists 0. split; [reflexivity | lra].
  - right. exists 1. split; [reflexivity | lra].
  - left. reflexivity.
Qed.

Lemma box_ok_true :
  forallb (fun c =>
    forallb (fun p =>
      forallb (fun s =>
        forallb (fun r => weights_ok (normalize (clamped c p s r)))
                (zrange 5 11))
              (zrange 20 21))
            (zrange 25 21))
          (zrange 15 21)
  = true.
Proof. vm_compute. reflexivity. Qed.

Lemma forallb_zrange (f : Z -> bool) (lo : Z) (n : nat) :
  forallb f (zrange lo n) = true ->
  forall z, (lo <= z < lo + Z.of_nat n)%Z -> f z = true.
Proof.
  intros H z Hz. rewrite forallb_forall in H. apply H.
  unfold zrange. apply in_map_iff.
  exists (Z.to_nat (z - lo)). split; [lia|]. apply in_seq. lia.
Qed.

Lemma normalize_clamped_ok (c p s r : Z) :
  (15 <= c <= 35)%Z -> (25 <= p <= 45)%Z -> (20 <= s <= 40)%Z ->
  (5 <= r <= 15)%Z ->
  weights_ok (normalize (clamped c p s r)) = true.
Proof.
  intros Hc Hp Hs Hr.
  assert (Hc' : (15 <= c < 15 + Z.of_nat 21)%Z) by lia.
  assert (Hp' : (25 <= p < 25 + Z.of_nat 21)%Z) by lia.
  assert (Hs' : (20 <= s < 20 + Z.of_nat 21)%Z) by lia.
  assert (Hr' : (5 <= r < 5 + Z.of_nat 11)%Z) by lia.
  pose proof (forallb_zrange _ 15 21 box_ok_true c Hc') as H1.
  pose proof (forallb_zrange _ 25 21 H1 p Hp') as H2.
  pose proof (forallb_zrange _ 20 21 H2 s Hs') as H3.
  exact (forallb_zrange _ 5 11 H3 r Hr').
Qed.

(** Whenever the city consistency is a finite number, the dynamic
    weights are finite, sum to 100 and lie in the normalized ranges. *)
Lemma calculateDynamicWeights_ok (stats : Stats) (c : Q) :
  st_cityConsistency stats = JS.Fin c ->
  weights_ok (calculateDynamicWeights stats) = true.
Proof.
  intros Hc. unfold calculateDynamicWeights. rewrite Hc.
  destruct (st_sampleSize stats <? 3)%nat; [reflexivity|].
  rewrite div_Fin by (intros H; discriminate H).
  destruct (consistency_score_cases
              (coefficient_of_variation (st_stdDevPrice stats) (st_avgPrice stats)))
    as [-> | (qp & -> & Hqp)]; [reflexivity|].
  destruct (consistency_score_cases
              (coefficient_of_variation (st_stdDevSqm stats) (st_avgSqm stats)))
    as [-> | (qs & -> & Hqs)]; [reflexivity|].
  destruct (consistency_score_cases
              (coefficient_of_variation (st_stdDevRooms stats) (st_avgRooms stats)))
    as [-> | (qr & -> & Hqr)]; [reflexivity|].
  cbn [JS.add].
  destruct (JS.gt (JS.Fin (c / 100 + qp + qs + qr)) (JS.Fin 0)) eqn:G;
    [|reflexivity].
  apply lt_Fin in G.
  assert (Ht : ~ c / 100 + qp + qs + qr == 0) by lra.
  destruct (bounded_weight_range 15 35 25 (c / 100) _ ltac:(lia) Ht)
    as (zc & Ec & Hzc).
  destruct (bounded_weight_range 25 45 35 qp _ ltac:(lia) Ht)
    as (zp & Ep & Hzp).
  destruct (bounded_weight_range 20 40 30 qs _ ltac:(lia) Ht)
    as (zs & Es & Hzs).
  destruct (bounded_weight_range 5 15 10 qr _ ltac:(lia) Ht)
    as (zr & Er & Hzr).
  change (JS.Fin (inject_Z 15)) with (JS.Fin 15) in Ec.
  change (JS.Fin (inject_Z 35)) with (JS.Fin 35) in Ec.
  change (JS.Fin (inject_Z 25)) with (JS.Fin 25) in Ep.
  change (JS.Fin (inject_Z 45)) with (JS.Fin 45) in Ep.
  change (JS.Fin (inject_Z 20)) with (JS.Fin 20) in Es.
  change (JS.Fin (inject_Z 40)) with (JS.Fin 40) in Es.
  change (JS.Fin (inject_Z 5)) with (JS.Fin 5) in Er.
  change (JS.Fin (inject_Z 15)) with (JS.Fin 15) in Er.
  rewrite Ec, Ep, Es, Er.
  apply (normalize_clamped_ok zc zp zs zr); assumption.
Qed.

Lemma of_nat_S_nonzero (n : nat) : ~ inject_Z (Z.of_nat (S n)) == 0.
Proof.
  intros H. unfold Qeq in H. cbn [Qnum Qden inject_Z] in H. lia.
Qed.

Lemma consistency_finite (categories : list string) :
  exists q, consistency (calculateCategoryPreferences categories) = JS.Fin q.
Proof.
  unfold calculateCategoryPreferences.
  destruct categories as [|c cs]; [eexists; reflexivity|].
  destruct (JS.sort _ _) as [|[preferred preferredCount] others];
    [eexists; reflexivity|].
  cbn [consistency List.length]. unfold JS.of_nat.
  rewrite div_Fin by apply of_nat_S_nonzero.
  eexists; reflexivity.
Qed.

(** The weights of every built profile are finite, sum to exactly 100,
    and lie in the ranges the normalization leaves (which are wider than
    the clamp bounds). *)
Theorem built_weights_sum_to_100 (liked : option (list Listing))
        (profile : Profile) :
  buildPreferenceProfile liked = Some profile ->
  exists w, weights profile = Some w /\ weights_ok w = true.
Proof.
  unfold buildPreferenceProfile.
  destruct liked as [[|p0 rest]|]; try discriminate.
  destruct (consistency_finite (truthy_strings (map listing_city (p0 :: rest))))
    as [q Hq].
  destruct (valid_numbers (map buyingPrice (p0 :: rest)));
    destruct (valid_numbers
                (map (fun p => JS.or_json (squareMeter p) (livingSpace p))
                     (p0 :: rest)));
    destruct (valid_numbers (map rooms (p0 :: rest)));
    intros [= <-]; cbn [weights]; eexists; (split; [reflexivity|]);
    eapply calculateDynamicWeights_ok; cbn [st_cityConsistency]; exact Hq.
Qed.

Lemma weights_ok_inv (w : Weights) :
  weights_ok w = true ->
  exists c p s r,
    w = mkWeights (JS.Fin c) (JS.Fin p) (JS.Fin s) (JS.Fin r)
    /\ c + p + s + r == 100
    /\ 13 <= c <= 41 /\ 22 <= p <= 53 /\ 17 <= s <= 47 /\ 3 <= r <= 20.
Proof.
  destruct w as [[c| | |] [p| | |] [s| | |] [r| | |]]; try discriminate.
  cbn [weights_ok]. rewrite !andb_true_iff, Qeq_bool_iff, !Qle_bool_iff.
  intros H. exists c, p, s, r. intuition.
Qed.

(** ** The documented weight bounds *)

(** C2, at three likes in three cities that agree on price, area and
    rooms, and at three likes without an address: the weights sum to 100,
    but the city weight ends at 14, respectively 13, below its documented
    lower bound of 15. *)
Theorem city_weight_below_bound :
  option_map weights (buildPreferenceProfile (Some three_likes))
  = Some (Some (mkWeights (JS.Fin 14) (JS.Fin 40) (JS.Fin 34) (JS.Fin 12)))
  /\ option_map weights (buildPreferenceProfile (Some three_likes_nowhere))
     = Some (Some (mkWeights (JS.Fin 13) (JS.Fin 40) (JS.Fin 35) (JS.Fin 12)))
  /\ JS.lt (JS.Fin 14) (JS.Fin 15) = true.
Proof. vm_compute. repeat split; reflexivity. Qed.

(** ** Alternate locations: what the threshold admits *)

Lemma count_of_add (s cat : string) (counts : list (string * nat)) :
  count_of s (count_add cat counts)
  = (count_of s counts + if String.eqb cat s then 1 else 0)%nat.
Proof.
  induction counts as [|[k n] rest IH]; cbn [count_add count_of].
  - destruct (String.eqb cat s); reflexivity.
  - destruct (String.eqb_spec k cat) as [->|Hk]; cbn [count_of].
    + destruct (String.eqb cat s); lia.
    + destruct (String.eqb_spec k s) as [->|Hs]; [|exact IH].
      destruct (String.eqb_spec cat s) as [->|_]; [congruence | lia].
Qed.

Lemma count_of_fold (s : string) (categories : list string)
      (acc : list (string * nat)) :
  count_of s (fold_left (fun counts cat => count_add cat counts) categories acc)
  = (count_of s acc + count_occ string_dec categories s)%nat.
Proof.
  revert acc. induction categories as [|c cs IH]; intros acc; cbn [fold_left].
  - cbn. lia.
  - rewrite IH, count_of_add. cbn [count_occ].
    destruct (string_dec c s) as [->|Hc].
    + rewrite String.eqb_refl. lia.
    + destruct (String.eqb_spec c s); [contradiction | lia].
Qed.

Lemma count_add_keys (cat : string) (counts : list (string * nat)) :
  NoDup (map fst counts) ->
  NoDup (map fst (count_add cat counts))
  /\ forall k, In k (map fst (count_add cat counts))
               <-> k = cat \/ In k (map fst counts).
Proof.
  induction counts as [|[k n] rest IH]; cbn [count_add map fst]; intros Hnd.
  - split; [constructor; [intros []|constructor]|].
    intros k. cbn. intuition.
  - inversion Hnd as [|? ? Hk Hrest]; subst.
    destruct (String.eqb_spec k cat) as [->|Hne]; cbn [map fst].
    + split; [exact Hnd|]. intros k'. cbn. intuition.
    + destruct (IH Hrest) as [IH1 IH2]. split.
      * constructor; [|exact IH1]. rewrite IH2. intuition.
      * intros k'. cbn. rewrite IH2. intuition.
Qed.

Lemma count_all_keys (categories : list string) :
  NoDup (map fst (count_all categories)).
Proof.
  unfold count_all.
  assert (H : forall acc, NoDup (map fst acc) ->
                NoDup (map fst (fold_left (fun counts cat => count_add cat counts)
                                          categories acc))).
  { induction categories as [|c cs IH]; intros acc Hacc; cbn [fold_left].
    - exact Hacc.
    - apply IH. apply count_add_keys. exact Hacc. }
  apply H. constructor.
Qed.

Lemma In_count_of (s : string) (k : nat) (counts : list (string * nat)) :
  NoDup (map fst counts) -> In (s, k) counts -> count_of s counts = k.
Proof.
  induction counts as [|[k0 n0] rest IH]; intros Hnd Hin; [destruct Hin|].
  inversion Hnd as [|? ? Hk Hrest]; subst. cbn [count_of].
  destruct Hin as [[= -> ->]|Hin].
  - rewrite String.eqb_refl. reflexivity.
  - destruct (String.eqb_spec k0 s) as [->|_]; [|apply IH; assumption].
    exfalso. apply Hk. apply in_map_iff. exists (s, k). auto.
Qed.

Lemma insert_index_perm (e : N * (string * nat))
      (l : list (N * (string * nat))) :
  Permutation (insert_index e l) (e :: l).
Proof.
  induction l as [|y ys IH]; cbn [insert_index].
  - apply Permutation_refl.
  - destruct (fst e <? fst y)%N; [apply Permutation_refl|].
    apply Permutation_trans with (y :: e :: ys);
      [apply perm_skip, IH | apply perm_swap].
Qed.

(** [Object.entries] lists every key once, whatever the order. *)
Lemma entries_perm (counts : list (string * nat)) :
  Permutation (entries counts) counts.
Proof.
  unfold entries. induction counts as [|c cs IH]; cbn [fold_right filter].
  - apply Permutation_refl.
  - destruct (array_index (fst c)) as [n|].
    + apply Permutation_trans with
        (map snd ((n, c) :: fold_right
                    (fun kv acc =>
                       match array_index (fst kv) with
                       | Some n0 => insert_index (n0, kv) acc
                       | None => acc
                       end) [] cs)
         ++ filter (fun kv => match array_index (fst kv) with
                              | Some _ => false
                              | None => true
                              end) cs).
      * apply Permutation_app_tail, Permutation_map, insert_index_perm.
      * cbn [map snd app]. apply perm_skip, IH.
    + apply Permutation_sym, Permutation_cons_app, Permutation_sym, IH.
Qed.

(** The alternates of a non-empty sample are exactly the locations,
    other than the preferred one, that occur at least twice and at least
    floor(0.15 * n) times: both conditions are required. *)
Theorem alternatives_characterized (categories : list string) (s : string) :
  categories <> [] ->
  let stats := calculateCategoryPreferences categories in
  let k := Z.of_nat (count_occ string_dec categories s) in
  let n := inject_Z (Z.of_nat (List.length categories)) in
  In s (alternatives stats)
  <-> (preferred stats <> Some s
       /\ (2 <= k)%Z /\ (Qfloor (n * 0.15) <= k)%Z).
Proof.
  intros Hne. cbv zeta. unfold calculateCategoryPreferences.
  destruct categories as [|c cs]; [congruence|]. clear Hne.
  set (cats := c :: cs).
  pose proof (count_all_keys cats) as Hnd.
  assert (Hcount : forall s0 k0, In (s0, k0) (count_all cats) ->
                                 k0 = count_occ string_dec cats s0).
  { intros s0 k0 He.
    rewrite <- (In_count_of s0 k0 _ Hnd He). unfold count_all.
    rewrite count_of_fold. reflexivity. }
  set (cmp := fun a b : string * nat =>
                JS.sub (JS.of_nat (snd b)) (JS.of_nat (snd a))).
  assert (Hperm : Permutation (JS.sort cmp (entries (count_all cats)))
                              (count_all cats)).
  { apply Permutation_trans with (entries (count_all cats));
      [apply sort_perm | apply entries_perm]. }
  assert (Hkeys : NoDup (map fst (JS.sort cmp (entries (count_all cats))))).
  { apply (Permutation_NoDup (l := map fst (count_all cats))); [|exact Hnd].
    apply Permutation_map, Permutation_sym, Hperm. }
  destruct (JS.sort cmp (entries (count_all cats)))
    as [|[pref pc] others] eqn:E.
  { exfalso. apply Permutation_nil in Hperm.
    assert (H0 : count_of c (count_all cats) = 0%nat) by (rewrite Hperm; reflexivity).
    unfold count_all in H0. rewrite count_of_fold in H0.
    subst cats. cbn [count_occ count_of] in H0.
    destruct (string_dec c c); [lia | congruence]. }
  cbn [alternatives preferred].
  change (JS.of_nat (List.length cats))
    with (JS.Fin (inject_Z (Z.of_nat (List.length cats)))).
  cbn [JS.mul JS.floor].
  destruct (max_Fin 2 (inject_Z (Qfloor (inject_Z (Z.of_nat (List.length cats)) * 0.15))))
    as (M & -> & HM1 & HM2 & HM).
  assert (Hge : forall k0 : nat,
             JS.ge (JS.of_nat k0) (JS.Fin M) = true
             <-> (2 <= Z.of_nat k0)%Z
                 /\ (Qfloor (inject_Z (Z.of_nat (List.length cats)) * 0.15)
                     <= Z.of_nat k0)%Z).
  { intros k0. unfold JS.ge, JS.of_nat. rewrite le_Fin.
    change 2 with (inject_Z 2) in HM1, HM.
    rewrite !Zle_Qle. destruct HM as [->| ->]; split; intros; try split; lra. }
  cbn [map fst] in Hkeys. inversion Hkeys as [|? ? Hpref Hothers]; subst.
  rewrite in_map_iff. split.
  - intros ([s0 k0] & <- & Hin). apply filter_In in Hin as [Hin Hk].
    cbn [fst snd] in *. apply Hge in Hk.
    assert (Hc : In (s0, k0) (count_all cats))
      by (apply (Permutation_in _ Hperm); right; exact Hin).
    rewrite <- (Hcount s0 k0 Hc). split; [|exact Hk].
    intros [= ->]. apply Hpref. apply in_map_iff. exists (s0, k0). auto.
  - intros (Hp & Hk).
    set (k0 := count_occ string_dec cats s) in *.
    assert (Hin : In s cats) by (apply (count_occ_In string_dec); lia).
    assert (Hkey : In s (map fst (count_all cats))).
    { destruct (in_dec string_dec s (map fst (count_all cats))) as [H|H];
        [exact H|]. exfalso.
      assert (H0 : count_of s (count_all cats) = 0%nat).
      { clear -H. induction (count_all cats) as [|[k1 n1] rest IH];
          [reflexivity|]. cbn [count_of].
        destruct (String.eqb_spec k1 s) as [->|_].
        - exfalso. apply H. left. reflexivity.
        - apply IH. intros H'. apply H. right. exact H'. }
      unfold count_all in H0. rewrite count_of_fold in H0.
      cbn [count_of] in H0. subst k0. lia. }
    apply in_map_iff in Hkey as ([s1 k1] & Hs1 & Hc). cbn [fst] in Hs1. subst s1.
    pose proof (Hcount s k1 Hc) as Hk1. fold k0 in Hk1. subst k1.
    apply (Permutation_in _ (Permutation_sym Hperm)) in Hc.
    destruct Hc as [[= -> _]|Hc]; [congruence|].
    exists (s, k0). split; [reflexivity|].
    apply filter_In. split; [exact Hc|]. cbn [snd]. apply Hge. exact Hk.
Qed.

(** ** Alternate locations: either condition alone *)

(** C6, at two inputs: with samples A, A, B the location B holds a third
    of the likes (at least 15%) and is not an alternate; with twenty
    samples of which B holds two, B occurs twice and is not an alternate.
    The threshold is the larger of 2 and 15% of the samples, so both
    conditions are required. *)
Theorem alternates_need_both_conditions :
  calculateCategoryPreferences ["A"; "A"; "B"]%string
  = mkCategoryPreferences (Some "A"%string) [] (JS.Fin 67)
  /\ calculateCategoryPreferences twenty_locations
     = mkCategoryPreferences (Some "A"%string) [] (JS.Fin 85).
Proof. vm_compute. split; reflexivity. Qed.

(** ** Match scorer: the plausibility floor on the area *)

(** C3: a listing whose area ([squareMeter || livingSpace]) is 10, below
    the floor of 15, has its size dimension scored 0 whatever the profile,
    and its match score is the weighted total times 0.3, rounded. *)
Theorem area_below_floor_scores_zero (p : Listing) (profile : Profile) (q : Q) :
  JS.or_json (squareMeter p) (livingSpace p) = JS.Number q ->
  q == 10 ->
  s_size (dimension_scores p profile) = JS.Fin 0
  /\ calculateMatchScore p (Some profile)
     = JS.round (JS.mul (weighted_total (dimension_scores p profile)
                                        (weights_of profile))
                        (JS.Fin 0.3)).
Proof.
  intros Hsqm Hq.
  assert (Hsize : score_size p profile = JS.Fin 0).
  { unfold score_size. rewrite Hsqm.
    assert (Hlt : JS.lt (JS.number_value (JS.Number q)) (JS.Fin 15) = true)
      by (apply lt_Fin; lra).
    rewrite Hlt.
    destruct (_ && _)%bool; reflexivity. }
  split.
  - exact Hsize.
  - unfold calculateMatchScore. cbn [dimension_scores s_size s_price].
    rewrite Hsize.
    replace (JS.eq (JS.Fin 0) (JS.Fin 0)) with true by reflexivity.
    rewrite orb_true_r. reflexivity.
Qed.

Lemma area_below_floor_scores_zero_witness :
  JS.or_json (squareMeter tiny_listing) (livingSpace tiny_listing)
  = JS.Number 10
  /\ 10 == 10
  /\ s_size (dimension_scores tiny_listing example_profile) = JS.Fin 0
  /\ calculateMatchScore tiny_listing (Some example_profile)
     = JS.round (JS.mul (weighted_total
                           (dimension_scores tiny_listing example_profile)
                           (weights_of example_profile))
                        (JS.Fin 0.3)).
Proof.
  split; [reflexivity|]. split; [reflexivity|].
  apply (area_below_floor_scores_zero tiny_listing example_profile 10);
    reflexivity.
Defined.

(** ** The match score of a built profile is an integer in 0..100 *)

Lemma within_range_ok (d m : Q) :
  0 <= d -> 0 <= m ->
  dimension_ok
    (JS.max (JS.Fin 80)
            (JS.sub (JS.Fin 100)
                    (JS.mul (JS.div (JS.Fin d) (JS.Fin m)) (JS.Fin 20)))).
Proof.
  intros Hd Hm. unfold JS.div. destruct (Qeq_bool m 0) eqn:Hm0.
  - destruct (d ?= 0) eqn:E.
    + left. reflexivity.
    + apply Qlt_alt in E. lra.
    + right. exists 80. split; [reflexivity | lra].
  - assert (Hmpos : 0 < m).
    { destruct (Qlt_le_dec 0 m) as [H|H]; [exact H|].
      assert (H0 : m == 0) by lra.
      apply Qeq_bool_iff in H0. congruence. }
    assert (Hr : 0 <= d / m) by (apply Qle_shift_div_l; lra).
    cbn [JS.mul JS.sub JS.neg JS.add].
    destruct (max_Fin 80 (100 + - (d / m * 20)))
      as (M & -> & HM1 & _ & [->| ->]);
      right; eexists; (split; [reflexivity | lra]).
Qed.

Lemma buffer_zone_ok (d b : Q) :
  0 <= d -> 0 < b ->
  dimension_ok
    (JS.max (JS.Fin 50)
            (JS.sub (JS.Fin 80)
                    (JS.mul (JS.div (JS.Fin d) (JS.Fin b)) (JS.Fin 30)))).
Proof.
  intros Hd Hb. rewrite div_Fin by lra.
  assert (Hr : 0 <= d / b) by (apply Qle_shift_div_l; lra).
  cbn [JS.mul JS.sub JS.neg JS.add].
  destruct (max_Fin 50 (80 + - (d / b * 30)))
    as (M & -> & HM1 & _ & [->| ->]);
    right; eexists; (split; [reflexivity | lra]).
Qed.

Lemma range_score_ok (v lo hi avg bufferFloor : Q) :
  0 < bufferFloor ->
  dimension_ok (range_score (JS.Fin v) (JS.Fin lo) (JS.Fin hi) (JS.Fin avg)
                            (JS.Fin bufferFloor)).
Proof.
  intros Hfloor. unfold range_score.
  cbn [JS.sub JS.neg JS.add JS.mul JS.abs].
  destruct (max_Fin ((hi + - lo) * 0.3) bufferFloor) as (b & -> & _ & Hb & _).
  cbn [JS.sub JS.neg JS.add].
  destruct (Qlt_le_dec v lo) as [Hlo|Hlo].
  - assert (G : JS.ge (JS.Fin v) (JS.Fin lo) = false).
    { destruct (JS.ge (JS.Fin v) (JS.Fin lo)) eqn:G; [|reflexivity].
      apply le_Fin in G. lra. }
    rewrite G. cbn [andb].
    destruct (_ && _)%bool; [|right; exists 0; split; [reflexivity | lra]].
    assert (L : JS.lt (JS.Fin v) (JS.Fin lo) = true) by (apply lt_Fin; exact Hlo).
    rewrite L. apply buffer_zone_ok; lra.
  - assert (G : JS.ge (JS.Fin v) (JS.Fin lo) = true) by (apply le_Fin; exact Hlo).
    rewrite G. cbn [andb].
    destruct (JS.le (JS.Fin v) (JS.Fin hi)) eqn:Hle.
    + apply le_Fin in Hle.
      destruct (max_Fin (avg + - lo) (hi + - avg)) as (m & -> & Hm1 & Hm2 & _).
      apply within_range_ok; [apply Qabs_nonneg | lra].
    + assert (Hhi : hi < v).
      { destruct (Qlt_le_dec hi v) as [H|H]; [exact H|].
        apply le_Fin in H. congruence. }
      destruct (_ && _)%bool; [|right; exists 0; split; [reflexivity | lra]].
      assert (L : JS.lt (JS.Fin v) (JS.Fin lo) = false).
      { destruct (JS.lt (JS.Fin v) (JS.Fin lo)) eqn:L; [|reflexivity].
        apply lt_Fin in L. lra. }
      rewrite L. apply buffer_zone_ok; lra.
Qed.

Lemma valid_numbers_finite (l : list JS.json) :
  Forall finite (valid_numbers l).
Proof.
  unfold valid_numbers. induction l as [|v l IH]; cbn [filter map].
  - constructor.
  - destruct (JS.valid_number v) eqn:E; [|exact IH].
    destruct v; try discriminate. cbn [map JS.number_value].
    constructor; [eexists; reflexivity | exact IH].
Qed.

Lemma sum_finite (l : list JS.num) (a : Q) :
  Forall finite l -> finite (fold_left JS.add l (JS.Fin a)).
Proof.
  intros H. revert a. induction H as [|n l [q ->] _ IH]; intros a; cbn.
  - eexists; reflexivity.
  - apply IH.
Qed.

Lemma average_finite (n : JS.num) (l : list JS.num) :
  Forall finite (n :: l) -> finite (average (n :: l)).
Proof.
  intros H. unfold average, sum.
  destruct (sum_finite (n :: l) 0 H) as [q ->].
  cbn [List.length]. unfold JS.of_nat.
  rewrite div_Fin by apply of_nat_S_nonzero. eexists; reflexivity.
Qed.

Lemma sorted_nonempty {A : Type} (cmp : A -> A -> JS.num) (a : A) (l : list A) :
  JS.sort cmp (a :: l) <> [].
Proof.
  intros H. pose proof (sort_perm cmp (a :: l)) as P. rewrite H in P.
  apply Permutation_nil in P. discriminate.
Qed.

Lemma ascending_hd_finite (n : JS.num) (l : list JS.num) :
  Forall finite (n :: l) -> finite (hd JS.NaN (ascending (n :: l))).
Proof.
  intros H. unfold ascending.
  destruct (JS.sort _ (n :: l)) as [|h t] eqn:E;
    [exfalso; exact (sorted_nonempty _ _ _ E)|].
  cbn [hd]. rewrite Forall_forall in H. apply H.
  apply (sort_In (fun a b => JS.sub a b)). rewrite E. left. reflexivity.
Qed.

Lemma ascending_last_finite (n : JS.num) (l : list JS.num) :
  Forall finite (n :: l) -> finite (last (ascending (n :: l)) JS.NaN).
Proof.
  intros H. unfold ascending.
  destruct (exists_last (sorted_nonempty (fun a b => JS.sub a b) n l))
    as (front & x & E).
  rewrite E, last_last. rewrite Forall_forall in H. apply H.
  apply (sort_In (fun a b => JS.sub a b)). rewrite E.
  apply in_or_app. right. left. reflexivity.
Qed.

Lemma finite_some (n : JS.num) : finite n -> finite_nullable (Some n).
Proof. intros [q ->]. right. eexists; reflexivity. Qed.

Lemma finite_none : finite_nullable None.
Proof. left. reflexivity. Qed.

(** Every built profile satisfies [profile_ok]. *)
Lemma buildPreferenceProfile_ok (liked : option (list Listing))
      (profile : Profile) :
  buildPreferenceProfile liked = Some profile -> profile_ok profile.
Proof.
  intros H.
  destruct (built_weights_sum_to_100 liked profile H) as (w & Hw & Hok).
  unfold profile_ok. rewrite Hw.
  assert (Hlast : exists w0, Some w = Some w0 /\ weights_ok w0 = true)
    by (exists w; split; [reflexivity | exact Hok]).
  revert H. unfold buildPreferenceProfile.
  destruct liked as [[|p0 rest]|]; try discriminate.
  pose proof (valid_numbers_finite (map buyingPrice (p0 :: rest))) as Hp.
  pose proof (valid_numbers_finite
                (map (fun p => JS.or_json (squareMeter p) (livingSpace p))
                     (p0 :: rest))) as Hs.
  destruct (valid_numbers (map buyingPrice (p0 :: rest)));
    destruct (valid_numbers
                (map (fun p => JS.or_json (squareMeter p) (livingSpace p))
                     (p0 :: rest)));
    destruct (valid_numbers (map rooms (p0 :: rest)));
    intros [= <-];
    cbn [minPrice maxPrice avgPrice minSqm maxSqm avgSqm];
    repeat (split;
            [first [ exact finite_none
                   | apply finite_some, ascending_hd_finite; assumption
                   | apply finite_some, ascending_last_finite; assumption
                   | apply finite_some, average_finite; assumption ]|]);
    exact Hlast.
Qed.

Lemma dimension_ok_const (q : Q) : 0 <= q <= 100 -> dimension_ok (JS.Fin q).
Proof. intros H. right. exists q. split; [reflexivity | exact H]. Qed.

Lemma truthy_finite_nullable (v : JS.nullable) :
  finite_nullable v -> JS.truthy_nullable v = true ->
  exists q, v = Some (JS.Fin q).
Proof.
  intros [->|[q ->]] H; [discriminate|]. eexists; reflexivity.
Qed.

Lemma score_city_ok (p : Listing) (profile : Profile) :
  dimension_ok (score_city p profile).
Proof.
  unfold score_city.
  destruct (listing_city p); [|apply dimension_ok_const; lra].
  destruct (preferredCity profile); [|apply dimension_ok_const; lra].
  destruct (_ && _)%bool; [|apply dimension_ok_const; lra].
  destruct (String.eqb _ _); [apply dimension_ok_const; lra|].
  destruct (existsb _ _); apply dimension_ok_const; lra.
Qed.

Lemma score_rooms_ok (p : Listing) (profile : Profile) :
  dimension_ok (score_rooms p profile).
Proof.
  unfold score_rooms.
  destruct (JS.valid_number _); [|apply dimension_ok_const; lra].
  destruct (avgRooms profile); [|apply dimension_ok_const; lra].
  destruct (JS.eq _ _); [apply dimension_ok_const; lra|].
  destruct (JS.le _ (JS.Fin 1)); [apply dimension_ok_const; lra|].
  destruct (JS.le _ (JS.Fin 2)); apply dimension_ok_const; lra.
Qed.

Lemma score_price_ok (p : Listing) (profile : Profile) :
  profile_ok profile -> dimension_ok (score_price p profile).
Proof.
  intros (Hmin & Hmax & Havg & _). unfold score_price.
  destruct (JS.valid_number (buyingPrice p)) eqn:Ev;
    [|apply dimension_ok_const; lra].
  destruct (JS.truthy_nullable (minPrice profile)) eqn:E1;
    [|apply dimension_ok_const; lra].
  destruct (JS.truthy_nullable (maxPrice profile)) eqn:E2;
    [|apply dimension_ok_const; lra].
  destruct (JS.truthy_nullable (avgPrice profile)) eqn:E3;
    [|apply dimension_ok_const; lra].
  destruct (truthy_finite_nullable _ Hmin E1) as [lo ->].
  destruct (truthy_finite_nullable _ Hmax E2) as [hi ->].
  destruct (truthy_finite_nullable _ Havg E3) as [avg ->].
  destruct (buyingPrice p); try discriminate.
  cbn [andb JS.number_value JS.to_num]. apply range_score_ok. lra.
Qed.

Lemma score_size_ok (p : Listing) (profile : Profile) :
  profile_ok profile -> dimension_ok (score_size p profile).
Proof.
  intros (_ & _ & _ & Hmin & Hmax & Havg & _). unfold score_size.
  destruct (JS.valid_number (JS.or_json (squareMeter p) (livingSpace p))) eqn:Ev;
    [|apply dimension_ok_const; lra].
  destruct (JS.truthy_nullable (minSqm profile)) eqn:E1;
    [|apply dimension_ok_const; lra].
  destruct (JS.truthy_nullable (maxSqm profile)) eqn:E2;
    [|apply dimension_ok_const; lra].
  destruct (JS.truthy_nullable (avgSqm profile)) eqn:E3;
    [|apply dimension_ok_const; lra].
  destruct (truthy_finite_nullable _ Hmin E1) as [lo ->].
  destruct (truthy_finite_nullable _ Hmax E2) as [hi ->].
  destruct (truthy_finite_nullable _ Havg E3) as [avg ->].
  destruct (JS.or_json (squareMeter p) (livingSpace p)); try discriminate.
  cbn [andb JS.number_value JS.to_num].
  destruct (JS.lt (JS.Fin q) (JS.Fin 15)); [apply dimension_ok_const; lra|].
  apply range_score_ok. lra.
Qed.

Lemma or0_ok (x : JS.num) :
  dimension_ok x -> exists q, JS.or0 x = JS.Fin q /\ 0 <= q <= 100.
Proof.
  intros [->|(q & -> & Hq)].
  - exists 0. split; [reflexivity | lra].
  - unfold JS.or0, JS.truthy. destruct (Qeq_bool q 0).
    + exists 0. split; [reflexivity | lra].
    + exists q. split; [reflexivity | exact Hq].
Qed.

Lemma weighted_term (a w : Q) :
  0 <= a <= 100 -> 0 <= w -> 0 <= a * (w / 100) <= w.
Proof.
  intros Ha Hw.
  assert (H1 : 0 <= w / 100) by (apply Qle_shift_div_l; lra).
  assert (H2 : a * (w / 100) <= 100 * (w / 100))
    by (apply Qmult_le_compat_r; lra).
  assert (H3 : 0 * (w / 100) <= a * (w / 100))
    by (apply Qmult_le_compat_r; lra).
  assert (H4 : 100 * (w / 100) == w) by (field).
  lra.
Qed.

(** For every listing and every built profile, the match score is an
    integer between 0 and 100 (so never NaN). *)
Theorem match_score_in_range (liked : option (list Listing))
        (profile : Profile) (p : Listing) :
  buildPreferenceProfile liked = Some profile ->
  exists z, calculateMatchScore p (Some profile) = JS.Fin (inject_Z z)
            /\ (0 <= z <= 100)%Z.
Proof.
  intros Hbuild. pose proof (buildPreferenceProfile_ok _ _ Hbuild) as Hok.
  pose proof (score_price_ok p profile Hok) as Hprice.
  pose proof (score_size_ok p profile Hok) as Hsize.
  destruct Hok as (_ & _ & _ & _ & _ & _ & w & Hw & Hwok).
  apply weights_ok_inv in Hwok
    as (wc & wp & ws & wr & -> & Hsum & Hc & Hp & Hs & Hr).
  unfold calculateMatchScore, weights_of. rewrite Hw.
  unfold weighted_total. cbn [dimension_scores s_city s_price s_size s_rooms].
  destruct (or0_ok _ (score_city_ok p profile)) as (a1 & -> & H1).
  destruct (or0_ok _ Hprice) as (a2 & -> & H2).
  destruct (or0_ok _ Hsize) as (a3 & -> & H3).
  destruct (or0_ok _ (score_rooms_ok p profile)) as (a4 & -> & H4).
  cbn [w_city w_price w_size w_rooms].
  rewrite !div_Fin by (intros H; discriminate H).
  cbn [JS.mul JS.add].
  pose proof (weighted_term a1 wc H1 ltac:(lra)) as T1.
  pose proof (weighted_term a2 wp H2 ltac:(lra)) as T2.
  pose proof (weighted_term a3 ws H3 ltac:(lra)) as T3.
  pose proof (weighted_term a4 wr H4 ltac:(lra)) as T4.
  destruct (_ || _)%bool; [apply round_between; unfold inject_Z; lra|].
  destruct (_ <? _)%nat; apply round_between; unfold inject_Z; lra.
Qed.

Lemma match_score_in_range_example :
  exists z, calculateMatchScore tiny_listing (Some example_profile)
            = JS.Fin (inject_Z z) /\ (0 <= z <= 100)%Z.
Proof.
  apply (match_score_in_range (Some five_likes)). reflexivity.
Qed.

(** ** The single-point range *)

(** When the profile's minimum, maximum and mean of a dimension coincide
    and the listing's value is that point, the within-range formula
    divides 0 by 0. *)
Lemma range_score_single_point (v bufferFloor : Q) :
  range_score (JS.Fin v) (JS.Fin v) (JS.Fin v) (JS.Fin v) (JS.Fin bufferFloor)
  = JS.NaN.
Proof.
  unfold range_score.
  assert (Hge : JS.ge (JS.Fin v) (JS.Fin v) = true) by (apply le_Fin; lra).
  assert (Hle : JS.le (JS.Fin v) (JS.Fin v) = true) by (apply le_Fin; lra).
  rewrite Hge, Hle. cbn [andb JS.sub JS.neg JS.add JS.abs].
  assert (Hmax : JS.max (JS.Fin (v + - v)) (JS.Fin (v + - v))
                 = JS.Fin (v + - v)).
  { unfold JS.max, JS.compare. destruct (v + - v ?= v + - v); reflexivity. }
  rewrite Hmax. unfold JS.div.
  assert (Hz : Qeq_bool (v + - v) 0 = true) by (apply Qeq_bool_iff; lra).
  rewrite Hz.
  assert (Hc : (Qabs (v + - v) ?= 0) = Eq).
  { apply Qeq_alt. rewrite (Qabs_wd (v + - v) 0) by lra. reflexivity. }
  rewrite Hc. reflexivity.
Qed.

(** C1, at a profile built from a single like: the price and the size
    range collapse to one point, a candidate with exactly that price and
    area gets NaN (not 100) on both dimensions, the weighted total counts
    them as 0, and the candidate, identical to the liked listing in every
    dimension, scores 18. *)
Theorem single_like_mean_scores_nan :
  let profile := buildPreferenceProfile (Some one_like) in
  let candidate := listing 2 "Berlin" 300000 60 2 in
  option_map (fun pr => (minPrice pr, maxPrice pr, avgPrice pr)) profile
  = Some (Some (JS.Fin 300000), Some (JS.Fin 300000), Some (JS.Fin 300000))
  /\ option_map (dimension_scores candidate) profile
     = Some (mkScores (JS.Fin 100) JS.NaN JS.NaN (JS.Fin 100))
  /\ calculateMatchScore candidate profile = JS.Fin 18.
Proof. vm_compute. repeat split; reflexivity. Qed.

(** ** Ranking: exclusion of liked listings and the wildcard *)

Lemma scoredProperties_In (profile : Profile) (liked all : list Listing)
      (item : Recommendation) :
  In item (scoredProperties profile liked all) ->
  In (property item) all
  /\ liked_already liked (property item) = false
  /\ score item = calculateMatchScore (property item) (Some profile)
  /\ isSurprise item = false
  /\ JS.ge (score item) (JS.Fin 60) = true.
Proof.
  unfold scoredProperties. rewrite sort_In, filter_In, in_map_iff.
  intros [(p & <- & Hp) Hge]. apply filter_In in Hp as [Hall Hliked].
  apply negb_true_iff in Hliked. cbn [property score isSurprise] in *. auto.
Qed.

Lemma surpriseProperties_In (profile : Profile) (liked all : list Listing)
      (item : Recommendation) :
  In item (surpriseProperties profile liked all) <->
  (exists p,
      item = mkRecommendation p (calculateMatchScore p (Some profile)) false
      /\ In p all
      /\ liked_already liked p = false
      /\ existsb (fun it => isSameProperty (Some (property it)) (Some p))
                 (scoredProperties profile liked all) = false
      /\ JS.ge (calculateMatchScore p (Some profile)) (JS.Fin 45) = true
      /\ JS.lt (calculateMatchScore p (Some profile)) (JS.Fin 60) = true).
Proof.
  unfold surpriseProperties. rewrite sort_In, filter_In, in_map_iff.
  split.
  - intros [(p & <- & Hp) Hrange]. apply filter_In in Hp as [Hall Hp].
    cbv beta zeta in Hp. cbn [score] in Hrange.
    apply andb_true_iff in Hp as [Hl Hr], Hrange as [Hge Hlt].
    apply negb_true_iff in Hl, Hr.
    exists p. auto 10.
  - intros (p & -> & Hall & Hl & Hr & Hge & Hlt). split.
    + exists p. split; [reflexivity|]. apply filter_In. split; [exact Hall|].
      cbv beta zeta. rewrite Hl, Hr. reflexivity.
    + cbn [score]. rewrite Hge, Hlt. reflexivity.
Qed.

Lemma rankedProperties_not_liked (profile : Profile) (liked all : list Listing)
      (item : Recommendation) :
  In item (rankedProperties profile liked all) ->
  liked_already liked (property item) = false.
Proof.
  unfold rankedProperties.
  destruct (surpriseProperties profile liked all) as [|surprise rest] eqn:E.
  - intros H. apply (scoredProperties_In profile liked all item H).
  - assert (Hs : In surprise (surpriseProperties profile liked all))
      by (rewrite E; left; reflexivity).
    apply surpriseProperties_In in Hs as (p & -> & _ & Hl & _).
    destruct (JS.ge (confidence profile) (JS.Fin 60)).
    + intros H. apply in_app_or in H as [H|[<-|[]]].
      * apply (scoredProperties_In profile liked all item H).
      * exact Hl.
    + intros H. apply (scoredProperties_In profile liked all item H).
Qed.

Lemma strict_eq_refl (v : JS.json) : JS.strict_eq v v = true.
Proof.
  destruct v; cbn [JS.strict_eq]; try reflexivity.
  - apply Bool.eqb_reflx.
  - apply Qeq_bool_iff. reflexivity.
  - apply String.eqb_refl.
Qed.

Lemma isSameProperty_refl (p : Listing) :
  isSameProperty (Some p) (Some p) = true.
Proof.
  unfold isSameProperty.
  destruct (JS.truthy_json (id p) && JS.truthy_json (id p))%bool;
    rewrite ?strict_eq_refl; reflexivity.
Qed.

Lemma liked_already_false (liked : list Listing) (p : Listing) :
  liked_already liked p = false ->
  forall lp, In lp liked -> isSameProperty (Some lp) (Some p) = false.
Proof.
  unfold liked_already. intros H lp Hlp.
  destruct (isSameProperty (Some lp) (Some p)) eqn:E; [|reflexivity].
  assert (existsb (fun lp0 => isSameProperty (Some lp0) (Some p)) liked = true)
    by (apply existsb_exists; exists lp; auto).
  congruence.
Qed.

(** C7: no entry of the ranked output, primary list and wildcard alike,
    is one of the liked listings: no liked listing is the same property
    as the entry, and the entry itself is not in the liked list. *)
Theorem ranked_output_excludes_liked (profile : Profile)
        (liked all : list Listing) (item : Recommendation) :
  In item (rankedProperties profile liked all) ->
  (forall lp, In lp liked ->
              isSameProperty (Some lp) (Some (property item)) = false)
  /\ ~ In (property item) liked.
Proof.
  intros H. apply rankedProperties_not_liked in H.
  pose proof (liked_already_false liked (property item) H) as Hall.
  split; [exact Hall|].
  intros Hin. specialize (Hall _ Hin).
  rewrite isSameProperty_refl in Hall. discriminate.
Qed.

Lemma ranked_output_excludes_liked_witness :
  In example_recommendation
     (rankedProperties example_profile five_likes example_catalog)
  /\ ~ In (property example_recommendation) five_likes.
Proof.
  assert (H : In example_recommendation
                 (rankedProperties example_profile five_likes example_catalog))
    by (vm_compute; left; reflexivity).
  split; [exact H|].
  apply (ranked_output_excludes_liked example_profile five_likes
                                      example_catalog example_recommendation H).
Defined.

Lemma In_firstn {A : Type} (n : nat) (l : list A) (x : A) :
  In x (firstn n l) -> In x l.
Proof.
  intros H. rewrite <- (firstn_skipn n l). apply in_or_app. left. exact H.
Qed.

(** The section as rendered (the first ten entries) inherits the
    exclusion. *)
Lemma renderRecommendations_excludes_liked (liked all : list Listing)
      (items : list Recommendation) (item : Recommendation) :
  renderRecommendations liked all = Recommendations items ->
  In item items ->
  liked_already liked (property item) = false.
Proof.
  unfold renderRecommendations.
  destruct (buildPreferenceProfile (Some liked)) as [profile|];
    [|destruct all; discriminate].
  destruct all as [|p0 all']; [discriminate|].
  destruct (rankedProperties profile liked (p0 :: all')) as [|r rs] eqn:E.
  - destruct (JS.lt _ _); discriminate.
  - intros [= <-] Hin.
    apply (rankedProperties_not_liked profile liked (p0 :: all')).
    rewrite E. apply (In_firstn 10%nat). exact Hin.
Qed.

(** ** Listing identity *)

(** C10: two listings are compared by id only when both carry one;
    otherwise they are the same exactly when title and buying price are
    both strictly equal.  So a candidate that does not share an id
    comparison with a liked listing but has its title and price is the
    same property, and no entry of the ranked output is that candidate. *)
Theorem same_title_and_price_excluded (profile : Profile)
        (liked all : list Listing) (a b : Listing) :
  In a liked ->
  (JS.truthy_json (id a) && JS.truthy_json (id b))%bool = false ->
  JS.strict_eq (title a) (title b) = true ->
  JS.strict_eq (buyingPrice a) (buyingPrice b) = true ->
  (forall x y,
      isSameProperty (Some x) (Some y)
      = if (JS.truthy_json (id x) && JS.truthy_json (id y))%bool
        then JS.strict_eq (id x) (id y)
        else (JS.strict_eq (title x) (title y)
              && JS.strict_eq (buyingPrice x) (buyingPrice y))%bool)
  /\ isSameProperty (Some a) (Some b) = true
  /\ ~ In b (map property (rankedProperties profile liked all)).
Proof.
  intros Hin Hid Ht Hp.
  assert (Hsame : isSameProperty (Some a) (Some b) = true)
    by (unfold isSameProperty; rewrite Hid, Ht, Hp; reflexivity).
  split; [reflexivity|]. split; [exact Hsame|].
  intros Hb. apply in_map_iff in Hb as (item & <- & Hitem).
  apply rankedProperties_not_liked in Hitem.
  pose proof (liked_already_false liked (property item) Hitem a Hin).
  congruence.
Qed.

Lemma same_title_and_price_excluded_witness :
  In untagged_like (untagged_like :: five_likes)
  /\ (JS.truthy_json (id untagged_like)
      && JS.truthy_json (id untagged_twin))%bool = false
  /\ JS.strict_eq (title untagged_like) (title untagged_twin) = true
  /\ JS.strict_eq (buyingPrice untagged_like) (buyingPrice untagged_twin) = true
  /\ isSameProperty (Some untagged_like) (Some untagged_twin) = true
  /\ ~ In untagged_twin
        (map property
             (rankedProperties example_profile (untagged_like :: five_likes)
                               (untagged_twin :: example_catalog))).
Proof.
  assert (H1 : In untagged_like (untagged_like :: five_likes))
    by (left; reflexivity).
  repeat (split; [first [exact H1 | reflexivity]|]).
  apply (same_title_and_price_excluded
           example_profile (untagged_like :: five_likes)
           (untagged_twin :: example_catalog) untagged_like untagged_twin);
    [exact H1 | reflexivity | reflexivity | reflexivity].
Defined.

(** ** The wildcard *)

(** C4: the ranking pass appends at most one wildcard after the entries
    that pass the threshold of 60; a wildcard is flagged, is appended only
    when the profile confidence is at least 60, scores in [45,60), is a
    catalog listing that is neither liked nor among the threshold-passing
    entries, and no other such candidate scores higher. *)
Theorem at_most_one_wildcard (profile : Profile) (liked all : list Listing) :
  exists wild,
    rankedProperties profile liked all
    = scoredProperties profile liked all ++ wild
    /\ (List.length wild <= 1)%nat
    /\ (forall item, In item (scoredProperties profile liked all) ->
                     isSurprise item = false
                     /\ JS.ge (score item) (JS.Fin 60) = true)
    /\ (forall w, In w wild ->
          isSurprise w = true
          /\ JS.ge (confidence profile) (JS.Fin 60) = true
          /\ In (property w) all
          /\ score w = calculateMatchScore (property w) (Some profile)
          /\ JS.ge (score w) (JS.Fin 45) = true
          /\ JS.lt (score w) (JS.Fin 60) = true
          /\ liked_already liked (property w) = false
          /\ existsb (fun item =>
                        isSameProperty (Some (property item))
                                       (Some (property w)))
                     (scoredProperties profile liked all) = false
          /\ forall p,
               In p all ->
               liked_already liked p = false ->
               existsb (fun item =>
                          isSameProperty (Some (property item)) (Some p))
                       (scoredProperties profile liked all) = false ->
               JS.ge (calculateMatchScore p (Some profile)) (JS.Fin 45) = true ->
               JS.lt (calculateMatchScore p (Some profile)) (JS.Fin 60) = true ->
               JS.le (calculateMatchScore p (Some profile)) (score w) = true).
Proof.
  assert (Hprimary :
            forall item, In item (scoredProperties profile liked all) ->
                         isSurprise item = false
                         /\ JS.ge (score item) (JS.Fin 60) = true).
  { intros item H. apply scoredProperties_In in H. tauto. }
  unfold rankedProperties.
  destruct (surpriseProperties profile liked all) as [|surprise rest] eqn:E.
  - exists []. rewrite app_nil_r.
    split; [reflexivity|]. split; [cbn; lia|]. split; [exact Hprimary|].
    intros w [].
  - destruct (JS.ge (confidence profile) (JS.Fin 60)) eqn:C.
    2: { exists []. rewrite app_nil_r.
         split; [reflexivity|]. split; [cbn; lia|]. split; [exact Hprimary|].
         intros w []. }
    exists [mkRecommendation (property surprise) (score surprise) true].
    split; [reflexivity|]. split; [cbn; lia|]. split; [exact Hprimary|].
    intros w [<-|[]]. cbn [property score isSurprise].
    assert (Hs : In surprise (surpriseProperties profile liked all))
      by (rewrite E; left; reflexivity).
    apply surpriseProperties_In in Hs as (p & Hp & Hall & Hl & Hr & Hge & Hlt).
    subst surprise. cbn [property score].
    repeat (split; [solve [auto]|]).
    intros p' Hall' Hl' Hr' Hge' Hlt'.
    set (cand := mkRecommendation p' (calculateMatchScore p' (Some profile)) false).
    assert (Hc : In cand (surpriseProperties profile liked all))
      by (apply surpriseProperties_In; exists p'; auto 10).
    change (JS.le (score cand)
                  (score (mkRecommendation
                            p (calculateMatchScore p (Some profile)) false))
            = true).
    unfold surpriseProperties in E, Hc.
    eapply sort_head_max; [| exact E | apply sort_In in Hc; exact Hc].
    intros x Hx. apply filter_In in Hx as [_ Hx].
    apply andb_true_iff in Hx as [Hx1 Hx2].
    exact (between_finite _ _ _ Hx1 Hx2).
Qed.

(** ** Batches: the shuffle and the load-more transition *)

Lemma length_set_nth {A : Type} (l : list A) (i : nat) (v : A) :
  List.length (set_nth l i v) = List.length l.
Proof.
  revert i. induction l as [|h t IH]; intros [|i]; cbn; auto.
Qed.

Lemma nth_error_set_nth_eq {A : Type} (l : list A) (i : nat) (v : A) :
  (i < List.length l)%nat -> nth_error (set_nth l i v) i = Some v.
Proof.
  revert i. induction l as [|h t IH]; intros [|i] H; cbn in *; try lia.
  - reflexivity.
  - apply IH. lia.
Qed.

Lemma nth_error_set_nth_neq {A : Type} (l : list A) (i k : nat) (v : A) :
  k <> i -> nth_error (set_nth l i v) k = nth_error l k.
Proof.
  revert i k.
  induction l as [|h t IH]; intros [|i] [|k] H; cbn; auto; congruence.
Qed.

Lemma swap_perm {A : Type} (l : list A) (i j : nat) :
  Permutation l (swap l i j).
Proof.
  unfold swap.
  destruct (nth_error l i) as [x|] eqn:Ei; [|apply Permutation_refl].
  destruct (nth_error l j) as [y|] eqn:Ej; [|apply Permutation_refl].
  assert (Hi : (i < List.length l)%nat)
    by (apply nth_error_Some; congruence).
  assert (Hj : (j < List.length l)%nat)
    by (apply nth_error_Some; congruence).
  apply Permutation_nth_error. split.
  - rewrite !length_set_nth. reflexivity.
  - exists (fun n => if (n =? j)%nat then i else if (n =? i)%nat then j else n).
    split.
    + intros a b.
      destruct (Nat.eqb_spec a j); destruct (Nat.eqb_spec b j);
        destruct (Nat.eqb_spec a i); destruct (Nat.eqb_spec b i); lia.
    + intros n.
      destruct (Nat.eqb_spec n j) as [->|Hnj].
      * rewrite nth_error_set_nth_eq by (rewrite length_set_nth; exact Hj).
        symmetry. exact Ei.
      * rewrite nth_error_set_nth_neq by exact Hnj.
        destruct (Nat.eqb_spec n i) as [->|Hni].
        -- rewrite nth_error_set_nth_eq by exact Hi. symmetry. exact Ej.
        -- apply nth_error_set_nth_neq. exact Hni.
Qed.

Lemma shuffle_perm {A : Type} (i : nat) (copy : list A) (g : oracle) :
  Permutation (fst (shuffle i copy g)) copy.
Proof.
  revert copy g. induction i as [|i IH]; intros copy g; cbn [shuffle].
  - apply Permutation_refl.
  - unfold random_below.
    apply Permutation_trans with (swap copy (S i) (g 0%nat mod (S i + 1))).
    + apply IH.
    + apply Permutation_sym, swap_perm.
Qed.

(** [pickRandomSubset] returns a prefix of a rearrangement of its input:
    no position of the input is drawn twice. *)
Lemma pickRandomSubset_spec {A : Type} (arr : list A) (n : nat) (g : oracle) :
  exists shuffled,
    Permutation shuffled arr
    /\ fst (pickRandomSubset arr n g)
       = firstn (Nat.min n (List.length arr)) shuffled.
Proof.
  unfold pickRandomSubset.
  pose proof (shuffle_perm (List.length arr - 1) arr g) as Hp.
  destruct (shuffle (List.length arr - 1) arr g) as [copy g'].
  cbn [fst] in *. exists copy. split; [exact Hp|].
  rewrite (Permutation_length Hp). reflexivity.
Qed.

Lemma reachable_within_cap (s : Session) :
  reachable s -> (List.length (properties s) <= MAX_TOTAL_SWIPES)%nat.
Proof.
  induction 1 as [catalog g | s _ IH | s _ IH | s g _ IH].
  - unfold startSession.
    destruct (pickRandomSubset_spec catalog MAX_CARDS g) as (sh & _ & Hfst).
    destruct (pickRandomSubset catalog MAX_CARDS g) as [first g'].
    cbn [fst properties] in *. subst first.
    rewrite length_firstn. unfold MAX_CARDS, MAX_TOTAL_SWIPES. lia.
  - unfold handleLike. destruct (nth_error _ _); exact IH.
  - unfold handleNope. destruct (_ <=? _)%nat; exact IH.
  - unfold loadMoreProperties.
    destruct (Nat.leb_spec MAX_TOTAL_SWIPES (List.length (properties s)));
      [exact IH|].
    destruct (unseenProperties s) as [|u us] eqn:E; [exact IH|].
    set (batch := Nat.min 15 _).
    destruct (pickRandomSubset_spec (u :: us) batch g) as (sh & _ & Hfst).
    destruct (pickRandomSubset (u :: us) batch g) as [more g'].
    cbn [fst properties] in *. subst more.
    rewrite length_app, length_firstn. subst batch. lia.
Qed.

(** C8: a load-more request appends exactly min(15, remaining capacity
    before the cap of 50, number of unseen candidates) listings, a prefix
    of a rearrangement of the unseen candidates (so none is drawn twice),
    where the unseen candidates are the catalog listings that are not the
    same property as any listing shown so far: every appended listing is
    a catalog listing that was not shown before.  The number of listings
    shown stays within the cap; and when no unseen candidate remains
    nothing is appended and the card left on screen only offers the
    results. *)
Theorem load_more_batch (s : Session) (g : oracle) :
  reachable s ->
  let unseen :=
    filter (fun p =>
              negb (existsb (fun shown => isSameProperty (Some shown) (Some p))
                            (properties s)))
           (allProperties s) in
  let batch :=
    Nat.min 15 (Nat.min (MAX_TOTAL_SWIPES - List.length (properties s))
                        (List.length unseen)) in
  let s' := fst (fst (loadMoreProperties s g)) in
  let outcome := snd (fst (loadMoreProperties s g)) in
  (exists shuffled,
      Permutation shuffled unseen
      /\ properties s' = properties s ++ firstn batch shuffled
      /\ forall p, In p (firstn batch shuffled) ->
           In p (allProperties s)
           /\ forall shown, In shown (properties s) ->
                isSameProperty (Some shown) (Some p) = false)
  /\ List.length (properties s') = (List.length (properties s) + batch)%nat
  /\ (List.length (properties s') <= MAX_TOTAL_SWIPES)%nat
  /\ allProperties s' = allProperties s
  /\ likedProperties s' = likedProperties s
  /\ (unseen = [] -> s' = s /\ forces_results outcome = true).
Proof.
  intros Hreach. cbv zeta.
  change (filter _ (allProperties s)) with (unseenProperties s).
  assert (Hnew : forall shuffled k p,
             Permutation shuffled (unseenProperties s) ->
             In p (firstn k shuffled) ->
             In p (allProperties s)
             /\ forall shown, In shown (properties s) ->
                  isSameProperty (Some shown) (Some p) = false).
  { intros shuffled k p Hp Hin. apply In_firstn in Hin.
    apply (Permutation_in _ Hp) in Hin. unfold unseenProperties in Hin.
    apply filter_In in Hin. destruct Hin as [Hall Hnot].
    split; [exact Hall|]. intros shown Hshown.
    apply negb_true_iff in Hnot.
    destruct (isSameProperty (Some shown) (Some p)) eqn:E; [|reflexivity].
    assert (X : existsb (fun sh => isSameProperty (Some sh) (Some p))
                        (properties s) = true)
      by (apply existsb_exists; exists shown; split; assumption).
    congruence. }
  pose proof (reachable_within_cap s Hreach) as Hcap.
  unfold loadMoreProperties, MAX_TOTAL_SWIPES in *.
  destruct (Nat.leb_spec 50 (List.length (properties s))) as [Hfull|Hroom].
  - cbn [fst snd].
    replace (50 - List.length (properties s))%nat with 0%nat by lia.
    cbn [Nat.min firstn]. rewrite app_nil_r.
    split; [exists (unseenProperties s); split;
            [apply Permutation_refl | split; [reflexivity | intros p []]]|].
    repeat split; auto; lia.
  - destruct (unseenProperties s) as [|u us] eqn:E.
    + cbn [fst snd List.length]. rewrite Nat.min_0_r. cbn [Nat.min firstn].
      rewrite app_nil_r.
      split; [exists []; split;
              [apply Permutation_refl | split; [reflexivity | intros p []]]|].
      repeat split; auto; lia.
    + set (batch := Nat.min 15 _).
      destruct (pickRandomSubset_spec (u :: us) batch g) as (sh & Hp & Hfst).
      destruct (pickRandomSubset (u :: us) batch g) as [more g'].
      cbn [fst snd properties allProperties likedProperties] in *.
      assert (Hb : (batch <= List.length (u :: us))%nat) by (subst batch; lia).
      rewrite Nat.min_l in Hfst by exact Hb. subst more.
      assert (Hlen : List.length (firstn batch sh) = batch).
      { rewrite length_firstn, (Permutation_length Hp). lia. }
      split; [exists sh; split;
              [exact Hp | split; [reflexivity | intros p Hin;
                                                exact (Hnew sh batch p Hp Hin)]]|].
      rewrite length_app, Hlen.
      repeat split; try discriminate.
      subst batch. lia.
Qed.

Lemma load_more_batch_witness :
  reachable example_session
  /\ List.length
       (properties (fst (fst (loadMoreProperties example_session example_oracle))))
     = (List.length (properties example_session)
        + Nat.min 15
            (Nat.min (MAX_TOTAL_SWIPES - List.length (properties example_session))
                     (List.length (unseenProperties example_session))))%nat.
Proof.
  assert (H : reachable example_session) by apply reach_start.
  split; [exact H|].
  destruct (load_more_batch example_session example_oracle H)
    as (_ & Hlen & _).
  exact Hlen.
Defined.

(** The first batch of the example shows 15 of the 20 listings; the
    request for more then loads the 5 that are left. *)
Example load_more_example :
  List.length (properties example_session) = 15%nat
  /\ snd (fst (loadMoreProperties example_session example_oracle)) = Loaded 5.
Proof. vm_compute. split; reflexivity. Qed.

(** * Further properties of the code *)

(** ** Sorting by a key *)

(** When the comparator orders the elements of the list by a rational
    key, the sort returns them in ascending key order. *)
Lemma sort_insert_sorted {A : Type} (cmp : A -> A -> JS.num) (key : A -> Q)
      (a : A) (l : list A) :
  (forall y, In y l ->
             (JS.gt (cmp a y) (JS.Fin 0) = true <-> key y < key a)) ->
  StronglySorted (fun x y => key x <= key y) l ->
  StronglySorted (fun x y => key x <= key y) (JS.sort_insert cmp a l).
Proof.
  induction l as [|y ys IH]; intros Hspec Hs; cbn [JS.sort_insert].
  - repeat constructor.
  - inversion Hs as [|? ? Hys Hall]; subst.
    destruct (JS.gt (cmp a y) (JS.Fin 0)) eqn:G.
    + apply (Hspec y (or_introl eq_refl)) in G.
      constructor.
      * apply IH; [intros z Hz; apply Hspec; right; exact Hz | exact Hys].
      * apply Forall_forall. intros z Hz.
        apply (Permutation_in _ (sort_insert_perm cmp a ys)) in Hz.
        destruct Hz as [<-|Hz]; [lra|].
        rewrite Forall_forall in Hall. apply Hall, Hz.
    + assert (Hle : key a <= key y).
      { destruct (Qlt_le_dec (key y) (key a)) as [H|H]; [|exact H].
        apply (Hspec y (or_introl eq_refl)) in H. congruence. }
      constructor; [exact Hs|].
      constructor; [exact Hle|].
      rewrite Forall_forall in Hall. apply Forall_forall. intros z Hz.
      specialize (Hall z Hz). lra.
Qed.

Lemma sort_sorted {A : Type} (cmp : A -> A -> JS.num) (key : A -> Q)
      (l : list A) :
  (forall a b, In a l -> In b l ->
               (JS.gt (cmp a b) (JS.Fin 0) = true <-> key b < key a)) ->
  StronglySorted (fun x y => key x <= key y) (JS.sort cmp l).
Proof.
  induction l as [|a rest IH]; intros Hspec; cbn [JS.sort].
  - constructor.
  - apply sort_insert_sorted.
    + intros y Hy. apply Hspec; [left; reflexivity|].
      right. apply (sort_In cmp rest y). exact Hy.
    + apply IH. intros x y Hx Hy. apply Hspec; right; assumption.
Qed.

Lemma sorted_hd_least {A : Type} (key : A -> Q) (h : A) (t : list A) :
  StronglySorted (fun x y => key x <= key y) (h :: t) ->
  forall x, In x (h :: t) -> key h <= key x.
Proof.
  intros Hs x [<-|Hx]; [lra|].
  inversion Hs as [|? ? _ Hall]; subst.
  rewrite Forall_forall in Hall. apply Hall, Hx.
Qed.

Lemma sorted_last_greatest {A : Type} (key : A -> Q) (l : list A) (d : A) :
  StronglySorted (fun x y => key x <= key y) l ->
  forall x, In x l -> key x <= key (last l d).
Proof.
  induction l as [|h t IH]; intros Hs x Hx; [destruct Hx|].
  inversion Hs as [|? ? Ht Hall]; subst.
  destruct t as [|h' t'].
  - destruct Hx as [<-|[]]. cbn. lra.
  - change (last (h :: h' :: t') d) with (last (h' :: t') d).
    destruct Hx as [<-|Hx].
    + rewrite Forall_forall in Hall.
      specialize (Hall h' (or_introl eq_refl)).
      specialize (IH Ht h' (or_introl eq_refl)). lra.
    + apply IH; assumption.
Qed.

(** ** The statistics of a built profile *)

Lemma valid_numbers_positive (l : list JS.json) :
  Forall positive (valid_numbers l).
Proof.
  unfold valid_numbers. induction l as [|v l IH]; cbn [filter map].
  - constructor.
  - destruct (JS.valid_number v) eqn:E; [|exact IH].
    destruct v; try discriminate. cbn [map JS.number_value].
    constructor; [|exact IH].
    exists q. split; [reflexivity|].
    cbn [JS.valid_number] in E. apply negb_true_iff in E.
    destruct (Qlt_le_dec 0 q) as [H|H]; [exact H|].
    apply Qle_bool_iff in H. congruence.
Qed.

Lemma positive_finite (l : list JS.num) : Forall positive l -> Forall finite l.
Proof.
  intros H. eapply Forall_impl; [|exact H].
  intros n (q & -> & _). exists q. reflexivity.
Qed.

Lemma ascending_sorted (l : list JS.num) :
  Forall finite l ->
  StronglySorted (fun x y => qval x <= qval y) (ascending l).
Proof.
  intros Hfin. unfold ascending. apply sort_sorted.
  rewrite Forall_forall in Hfin.
  intros a b Ha Hb.
  destruct (Hfin a Ha) as [x ->]. destruct (Hfin b Hb) as [y ->].
  unfold JS.gt. cbn [JS.sub JS.neg JS.add qval]. rewrite lt_Fin.
  split; intros; lra.
Qed.

Lemma min_of_least (l : list JS.num) :
  Forall finite l ->
  forall n, In n l ->
  exists m, min_of l = JS.Fin m /\ In (JS.Fin m) l
            /\ forall x, In x l -> m <= qval x.
Proof.
  intros H. induction H as [|x l [q ->] Hl IH]; intros n Hn; [destruct Hn|].
  unfold min_of. cbn [fold_right]. fold (min_of l).
  destruct l as [|y l'].
  - exists q. cbn. split; [reflexivity|]. split; [left; reflexivity|].
    intros x [<-|[]]. cbn. lra.
  - destruct (IH y (or_introl eq_refl)) as (m & -> & Hm & Hall).
    destruct (min_Fin q m) as (c & -> & Hc1 & Hc2 & Hc).
    exists c. split; [reflexivity|]. split.
    + destruct Hc as [->| ->]; [left; reflexivity | right; exact Hm].
    + intros x [<-|Hx]; [cbn; lra|]. specialize (Hall x Hx). lra.
Qed.

Lemma max_of_greatest (l : list JS.num) :
  Forall finite l ->
  forall n, In n l ->
  exists m, max_of l = JS.Fin m /\ In (JS.Fin m) l
            /\ forall x, In x l -> qval x <= m.
Proof.
  intros H. induction H as [|x l [q ->] Hl IH]; intros n Hn; [destruct Hn|].
  unfold max_of. cbn [fold_right]. fold (max_of l).
  destruct l as [|y l'].
  - exists q. cbn. split; [reflexivity|]. split; [left; reflexivity|].
    intros x [<-|[]]. cbn. lra.
  - destruct (IH y (or_introl eq_refl)) as (m & -> & Hm & Hall).
    destruct (max_Fin q m) as (c & -> & Hc1 & Hc2 & Hc).
    exists c. split; [reflexivity|]. split.
    + destruct Hc as [->| ->]; [left; reflexivity | right; exact Hm].
    + intros x [<-|Hx]; [cbn; lra|]. specialize (Hall x Hx). lra.
Qed.


Lemma valid_positive (q : Q) : 0 < q -> JS.valid_number (JS.Number q) = true.
Proof.
  intros H. cbn [JS.valid_number]. apply negb_true_iff.
  destruct (Qle_bool q 0) eqn:E; [|reflexivity].
  apply Qle_bool_iff in E. lra.
Qed.

Lemma valid_numbers_In (vs : list JS.json) (x : JS.num) :
  In x (valid_numbers vs)
  <-> exists q, x = JS.Fin q /\ In (JS.Number q) vs /\ 0 < q.
Proof.
  unfold valid_numbers. rewrite in_map_iff. split.
  - intros (v & <- & Hv). apply filter_In in Hv. destruct Hv as [Hin Hval].
    destruct v; try discriminate. exists q. cbn [JS.number_value].
    split; [reflexivity|]. split; [exact Hin|].
    cbn [JS.valid_number] in Hval. apply negb_true_iff in Hval.
    destruct (Qlt_le_dec 0 q) as [H|H]; [exact H|].
    apply Qle_bool_iff in H. congruence.
  - intros (q & -> & Hin & Hq). exists (JS.Number q).
    split; [reflexivity|]. apply filter_In. split; [exact Hin|].
    apply valid_positive, Hq.
Qed.

Lemma valid_number_inv (v : JS.json) :
  JS.valid_number v = true -> exists q, v = JS.Number q /\ 0 < q.
Proof.
  destruct v; try discriminate. intros Hval. exists q.
  split; [reflexivity|].
  cbn [JS.valid_number] in Hval. apply negb_true_iff in Hval.
  destruct (Qlt_le_dec 0 q) as [H|H]; [exact H|].
  apply Qle_bool_iff in H. congruence.
Qed.

Lemma extremes_none (vs : list JS.json) :
  valid_numbers vs = [] -> extremes_of vs None None None.
Proof.
  intros E. left. split; [|auto]. intros v Hin.
  destruct (JS.valid_number v) eqn:Hval; [|reflexivity]. exfalso.
  destruct (valid_number_inv v Hval) as (q & -> & Hq).
  assert (X : In (JS.Fin q) (valid_numbers vs))
    by (apply valid_numbers_In; exists q; auto).
  rewrite E in X. destruct X.
Qed.

(** From bounds on the valid numbers to [extremes_of]. *)
Lemma extremes_intro (vs : list JS.json) (avg : JS.num) (lo hi : Q) :
  In (JS.Number lo) vs -> 0 < lo -> In (JS.Number hi) vs -> 0 < hi ->
  (forall q, In (JS.Fin q) (valid_numbers vs) -> lo <= q <= hi) ->
  extremes_of vs (Some (JS.Fin lo)) (Some avg) (Some (JS.Fin hi)).
Proof.
  intros Hlo Hlopos Hhi Hhipos Hall. right.
  exists (JS.Number lo), (JS.Number hi).
  split; [exact Hlo|]. split; [apply valid_positive, Hlopos|].
  split; [exact Hhi|]. split; [apply valid_positive, Hhipos|].
  split; [reflexivity|]. split; [reflexivity|]. split; [discriminate|].
  intros v Hin Hval. destruct (valid_number_inv v Hval) as (q & -> & Hq).
  cbn [JS.number_value].
  assert (X : In (JS.Fin q) (valid_numbers vs))
    by (apply valid_numbers_In; exists q; auto).
  destruct (Hall q X) as [H1 H2].
  split; apply le_Fin; assumption.
Qed.

Lemma extremes_sorted (vs : list JS.json) (n : JS.num) (l : list JS.num)
      (avg : JS.num) :
  valid_numbers vs = n :: l ->
  extremes_of vs (Some (hd JS.NaN (ascending (n :: l)))) (Some avg)
              (Some (last (ascending (n :: l)) JS.NaN)).
Proof.
  intros E.
  pose proof (valid_numbers_positive vs) as Hpos. rewrite E in Hpos.
  pose proof (positive_finite _ Hpos) as Hfin.
  pose proof (ascending_sorted _ Hfin) as Hs.
  assert (Hin : forall x, In x (ascending (n :: l)) <-> In x (valid_numbers vs))
    by (intros x; rewrite E; apply sort_In).
  destruct (ascending (n :: l)) as [|h t] eqn:Ea.
  { exfalso. exact (sorted_nonempty _ _ _ Ea). }
  assert (Hh : In h (valid_numbers vs)) by (apply Hin; left; reflexivity).
  assert (Hl : In (last (h :: t) JS.NaN) (valid_numbers vs)).
  { apply Hin. destruct (exists_last (l := h :: t) ltac:(discriminate))
      as (front & x & Ex).
    rewrite Ex, last_last. apply in_or_app. right. left. reflexivity. }
  apply valid_numbers_In in Hh. destruct Hh as (lo & Elo & Hlo & Hlopos).
  apply valid_numbers_In in Hl. destruct Hl as (hi & Ehi & Hhi & Hhipos).
  cbn [hd]. rewrite Ehi, Elo.
  apply extremes_intro; try assumption.
  intros q X. apply Hin in X. split.
  - pose proof (sorted_hd_least qval h t Hs _ X) as H.
    rewrite Elo in H. exact H.
  - pose proof (sorted_last_greatest qval (h :: t) JS.NaN Hs _ X) as H.
    rewrite Ehi in H. exact H.
Qed.

Lemma extremes_minmax (vs : list JS.json) (n : JS.num) (l : list JS.num)
      (avg : JS.num) :
  valid_numbers vs = n :: l ->
  extremes_of vs (Some (min_of (n :: l))) (Some avg) (Some (max_of (n :: l))).
Proof.
  intros E.
  pose proof (valid_numbers_positive vs) as Hpos. rewrite E in Hpos.
  pose proof (positive_finite _ Hpos) as Hfin.
  destruct (min_of_least _ Hfin n (or_introl eq_refl))
    as (lo & Elo & Hlo & Hleast).
  destruct (max_of_greatest _ Hfin n (or_introl eq_refl))
    as (hi & Ehi & Hhi & Hgreatest).
  rewrite <- E in Hlo, Hhi.
  apply valid_numbers_In in Hlo. destruct Hlo as (lo' & [= <-] & Hlo & Hlopos).
  apply valid_numbers_In in Hhi. destruct Hhi as (hi' & [= <-] & Hhi & Hhipos).
  rewrite Elo, Ehi.
  apply extremes_intro; try assumption.
  intros q X. rewrite E in X.
  split; [exact (Hleast _ X) | exact (Hgreatest _ X)].
Qed.

(** X1.  In every built profile the minimum and the maximum of a numeric
    dimension (price, area, rooms) are the least and the greatest valid
    value among the liked listings, a valid value being a positive
    number; the three statistics of a dimension are [null] exactly when
    no liked listing has a valid value.  The sample size is the number of
    likes. *)
Theorem profile_extremes (liked : list Listing) (profile : Profile) :
  buildPreferenceProfile (Some liked) = Some profile ->
  extremes_of (map buyingPrice liked)
              (minPrice profile) (avgPrice profile) (maxPrice profile)
  /\ extremes_of (map (fun p => JS.or_json (squareMeter p) (livingSpace p))
                      liked)
                 (minSqm profile) (avgSqm profile) (maxSqm profile)
  /\ extremes_of (map rooms liked)
                 (minRooms profile) (avgRooms profile) (maxRooms profile)
  /\ sampleSize profile = List.length liked.
Proof.
  unfold buildPreferenceProfile.
  destruct liked as [|p0 rest]; [discriminate|].
  destruct (valid_numbers (map buyingPrice (p0 :: rest))) eqn:Ep;
    destruct (valid_numbers
                (map (fun p => JS.or_json (squareMeter p) (livingSpace p))
                     (p0 :: rest))) eqn:Es;
    destruct (valid_numbers (map rooms (p0 :: rest))) eqn:Er;
    intros [= <-];
    cbn [minPrice maxPrice avgPrice minSqm maxSqm avgSqm
         minRooms maxRooms avgRooms sampleSize];
    repeat (split;
            [first [ apply extremes_none; assumption
                   | apply extremes_sorted; assumption
                   | apply extremes_minmax; assumption ]|]);
    reflexivity.
Qed.

Lemma profile_extremes_witness :
  buildPreferenceProfile (Some five_likes) = Some example_profile
  /\ extremes_of (map buyingPrice five_likes)
                 (minPrice example_profile) (avgPrice example_profile)
                 (maxPrice example_profile)
  /\ sampleSize example_profile = List.length five_likes.
Proof.
  assert (H : buildPreferenceProfile (Some five_likes) = Some example_profile)
    by (vm_compute; reflexivity).
  split; [exact H|].
  destruct (profile_extremes five_likes example_profile H)
    as (Hp & _ & _ & Hn).
  split; [exact Hp | exact Hn].
Defined.

(** ** Weights and confidence of a built profile *)

(** X2.  The four weights of every built profile are finite, sum to exactly
    100 and lie in the ranges the final normalization leaves; with fewer
    than three likes they are the defaults 25/35/30/10. *)
Theorem profile_weights (liked : list Listing) (profile : Profile) :
  buildPreferenceProfile (Some liked) = Some profile ->
  (exists c p s r,
      weights profile = Some (mkWeights (JS.Fin c) (JS.Fin p) (JS.Fin s) (JS.Fin r))
      /\ c + p + s + r == 100
      /\ 13 <= c <= 41 /\ 22 <= p <= 53 /\ 17 <= s <= 47 /\ 3 <= r <= 20)
  /\ ((List.length liked < 3)%nat -> weights profile = Some default_weights).
Proof.
  intros H. split.
  - destruct (built_weights_sum_to_100 _ _ H) as (w & Hw & Hok).
    destruct (weights_ok_inv w Hok) as (c & p & s & r & -> & Hrest).
    exists c, p, s, r. split; [exact Hw | exact Hrest].
  - intros Hlen. revert H. unfold buildPreferenceProfile.
    destruct liked as [|p0 rest]; [discriminate|].
    destruct (valid_numbers (map buyingPrice (p0 :: rest)));
      destruct (valid_numbers
                  (map (fun p => JS.or_json (squareMeter p) (livingSpace p))
                       (p0 :: rest)));
      destruct (valid_numbers (map rooms (p0 :: rest)));
      intros [= <-]; cbn [weights]; unfold calculateDynamicWeights;
      cbn [st_sampleSize]; cbn [List.length] in Hlen;
      match goal with
      | |- context [(?a <? 3)%nat] => destruct (Nat.ltb_spec a 3)
      end;
      solve [reflexivity | lia].
Qed.

Lemma profile_weights_witness :
  buildPreferenceProfile (Some five_likes) = Some example_profile
  /\ exists c p s r,
      weights example_profile
      = Some (mkWeights (JS.Fin c) (JS.Fin p) (JS.Fin s) (JS.Fin r))
      /\ c + p + s + r == 100
      /\ 13 <= c <= 41 /\ 22 <= p <= 53 /\ 17 <= s <= 47 /\ 3 <= r <= 20.
Proof.
  assert (H : buildPreferenceProfile (Some five_likes) = Some example_profile)
    by (vm_compute; reflexivity).
  split; [exact H|].
  exact (proj1 (profile_weights five_likes example_profile H)).
Defined.

Lemma calculateConfidenceScore_range (n : nat) (stats : Stats) :
  exists z,
    calculateConfidenceScore n stats = JS.Fin (inject_Z z)
    /\ (15 <= z <= 100)%Z
    /\ ((n < 3)%nat -> (z <= 40)%Z)
    /\ ((n < 5)%nat -> (z <= 60)%Z)
    /\ ((5 <= n)%nat -> (57 <= z)%Z)
    /\ ((90 <= z)%Z -> (7 <= n)%nat).
Proof.
  unfold calculateConfidenceScore, base_confidence.
  destruct (JS.lt (st_cityConsistency stats) (JS.Fin 40));
    destruct (JS.gt _ _ || JS.gt _ _)%bool;
    repeat match goal with
           | |- context [(?a <=? n)%nat] => destruct (Nat.leb_spec a n)
           end;
    match goal with
    | |- exists z, ?c = _ /\ _ =>
        let v := eval vm_compute in c in
        match v with
        | JS.Fin (?k # 1) =>
            exists k; split; [vm_compute; reflexivity | lia]
        end
    end.
Qed.

Lemma built_confidence (liked : list Listing) (profile : Profile) :
  buildPreferenceProfile (Some liked) = Some profile ->
  exists stats,
    confidence profile = calculateConfidenceScore (List.length liked) stats.
Proof.
  unfold buildPreferenceProfile.
  destruct liked as [|p0 rest]; [discriminate|].
  destruct (valid_numbers (map buyingPrice (p0 :: rest)));
    destruct (valid_numbers
                (map (fun p => JS.or_json (squareMeter p) (livingSpace p))
                     (p0 :: rest)));
    destruct (valid_numbers (map rooms (p0 :: rest)));
    intros [= <-]; cbn [confidence]; eexists; reflexivity.
Qed.

(** X3.  The confidence of every built profile is an integer between 15 and
    100; it is at most 40 with fewer than three likes, at most 60 with
    fewer than five, at least 57 from five likes on, and reaches 90 only
    from seven likes on. *)
Theorem profile_confidence (liked : list Listing) (profile : Profile) :
  buildPreferenceProfile (Some liked) = Some profile ->
  exists z,
    confidence profile = JS.Fin (inject_Z z)
    /\ (15 <= z <= 100)%Z
    /\ ((List.length liked < 3)%nat -> (z <= 40)%Z)
    /\ ((List.length liked < 5)%nat -> (z <= 60)%Z)
    /\ ((5 <= List.length liked)%nat -> (57 <= z)%Z)
    /\ ((90 <= z)%Z -> (7 <= List.length liked)%nat).
Proof.
  intros H. destruct (built_confidence liked profile H) as [stats ->].
  apply calculateConfidenceScore_range.
Qed.

Lemma profile_confidence_witness :
  buildPreferenceProfile (Some five_likes) = Some example_profile
  /\ exists z,
      confidence example_profile = JS.Fin (inject_Z z) /\ (15 <= z <= 100)%Z.
Proof.
  assert (H : buildPreferenceProfile (Some five_likes) = Some example_profile)
    by (vm_compute; reflexivity).
  split; [exact H|].
  destruct (profile_confidence five_likes example_profile H)
    as (z & Hz & Hr & _).
  exists z. split; [exact Hz | exact Hr].
Defined.

(** X4.  With fewer than three likes the confidence stays below 60, so the
    ranking pass never appends a surprise pick: the ranked list is the
    threshold-passing list. *)
Theorem no_surprise_below_three_likes (liked all : list Listing)
        (profile : Profile) :
  buildPreferenceProfile (Some liked) = Some profile ->
  (List.length liked < 3)%nat ->
  rankedProperties profile liked all = scoredProperties profile liked all.
Proof.
  intros H Hlen. destruct (built_confidence liked profile H) as [stats Hc].
  destruct (calculateConfidenceScore_range (List.length liked) stats)
    as (z & Hz & _ & Hlow & _).
  specialize (Hlow Hlen).
  unfold rankedProperties.
  destruct (surpriseProperties profile liked all); [reflexivity|].
  rewrite Hc, Hz.
  assert (G : JS.ge (JS.Fin (inject_Z z)) (JS.Fin 60) = false).
  { destruct (JS.ge (JS.Fin (inject_Z z)) (JS.Fin 60)) eqn:G; [|reflexivity].
    apply le_Fin in G. change 60 with (inject_Z 60) in G.
    rewrite <- Zle_Qle in G. lia. }
  rewrite G. reflexivity.
Qed.

Lemma no_surprise_below_three_likes_witness :
  buildPreferenceProfile (Some two_likes) = Some two_likes_profile
  /\ (List.length two_likes < 3)%nat
  /\ rankedProperties two_likes_profile two_likes example_catalog
     = scoredProperties two_likes_profile two_likes example_catalog.
Proof.
  assert (H : buildPreferenceProfile (Some two_likes) = Some two_likes_profile)
    by (vm_compute; reflexivity).
  assert (Hlen : (List.length two_likes < 3)%nat) by (cbn; lia).
  split; [exact H|]. split; [exact Hlen|].
  exact (no_surprise_below_three_likes two_likes example_catalog
                                       two_likes_profile H Hlen).
Defined.

(** ** The match score: range, perfect match, invalid data *)

Lemma weighted_total_range (profile : Profile) (p : Listing) :
  profile_ok profile ->
  exists t,
    weighted_total (dimension_scores p profile) (weights_of profile) = JS.Fin t
    /\ 0 <= t <= 100.
Proof.
  intros Hok.
  pose proof (score_price_ok p profile Hok) as Hprice.
  pose proof (score_size_ok p profile Hok) as Hsize.
  destruct Hok as (_ & _ & _ & _ & _ & _ & w & Hw & Hwok).
  apply weights_ok_inv in Hwok
    as (wc & wp & ws & wr & -> & Hsum & Hc & Hp & Hs & Hr).
  unfold weights_of. rewrite Hw.
  unfold weighted_total. cbn [dimension_scores s_city s_price s_size s_rooms].
  destruct (or0_ok _ (score_city_ok p profile)) as (a1 & -> & H1).
  destruct (or0_ok _ Hprice) as (a2 & -> & H2).
  destruct (or0_ok _ Hsize) as (a3 & -> & H3).
  destruct (or0_ok _ (score_rooms_ok p profile)) as (a4 & -> & H4).
  cbn [w_city w_price w_size w_rooms].
  rewrite !div_Fin by (intros H; discriminate H).
  cbn [JS.mul JS.add].
  pose proof (weighted_term a1 wc H1 ltac:(lra)) as T1.
  pose proof (weighted_term a2 wp H2 ltac:(lra)) as T2.
  pose proof (weighted_term a3 ws H3 ltac:(lra)) as T3.
  pose proof (weighted_term a4 wr H4 ltac:(lra)) as T4.
  eexists. split; [reflexivity | lra].
Qed.

(** X5.  For every listing and every built profile the match score is an
    integer between 0 and 100, each dimension score is NaN or a number
    between 0 and 100, and the listing matches the profile exactly when
    the score is at least 60. *)
Theorem match_score_percentage (liked : list Listing) (profile : Profile)
        (p : Listing) :
  buildPreferenceProfile (Some liked) = Some profile ->
  (exists z, calculateMatchScore p (Some profile) = JS.Fin (inject_Z z)
             /\ (0 <= z <= 100)%Z
             /\ (matchesProfile p (Some profile) = true <-> (60 <= z)%Z))
  /\ dimension_ok (s_city (dimension_scores p profile))
  /\ dimension_ok (s_price (dimension_scores p profile))
  /\ dimension_ok (s_size (dimension_scores p profile))
  /\ dimension_ok (s_rooms (dimension_scores p profile)).
Proof.
  intros H. pose proof (buildPreferenceProfile_ok _ _ H) as Hok. split.
  - destruct (match_score_in_range (Some liked) profile p H) as (z & Hz & Hr).
    exists z. split; [exact Hz|]. split; [exact Hr|].
    unfold matchesProfile. rewrite Hz. unfold JS.ge. rewrite le_Fin.
    change 60 with (inject_Z 60). rewrite <- Zle_Qle. reflexivity.
  - cbn [dimension_scores s_city s_price s_size s_rooms].
    split; [apply score_city_ok|].
    split; [apply score_price_ok, Hok|].
    split; [apply score_size_ok, Hok | apply score_rooms_ok].
Qed.

Lemma match_score_percentage_witness :
  buildPreferenceProfile (Some five_likes) = Some example_profile
  /\ exists z, calculateMatchScore tiny_listing (Some example_profile)
               = JS.Fin (inject_Z z)
               /\ (0 <= z <= 100)%Z.
Proof.
  assert (H : buildPreferenceProfile (Some five_likes) = Some example_profile)
    by (vm_compute; reflexivity).
  split; [exact H|].
  destruct (match_score_percentage five_likes example_profile tiny_listing H)
    as ((z & Hz & Hr & _) & _).
  exists z. split; [exact Hz | exact Hr].
Defined.

Lemma rankedProperties_score (profile : Profile) (liked all : list Listing)
      (item : Recommendation) :
  In item (rankedProperties profile liked all) ->
  In (property item) all
  /\ score item = calculateMatchScore (property item) (Some profile)
  /\ JS.ge (score item) (JS.Fin 45) = true.
Proof.
  assert (Hprimary : forall it, In it (scoredProperties profile liked all) ->
            In (property it) all
            /\ score it = calculateMatchScore (property it) (Some profile)
            /\ JS.ge (score it) (JS.Fin 45) = true).
  { intros it Hit. apply scoredProperties_In in Hit
      as (Hall & _ & Hs & _ & Hge).
    split; [exact Hall|]. split; [exact Hs|].
    destruct (score it); try discriminate; [|reflexivity].
    apply le_Fin in Hge. apply le_Fin. lra. }
  unfold rankedProperties.
  destruct (surpriseProperties profile liked all) as [|surprise rest] eqn:E;
    [apply Hprimary|].
  assert (Hs : In surprise (surpriseProperties profile liked all))
    by (rewrite E; left; reflexivity).
  apply surpriseProperties_In in Hs as (p & -> & Hall & _ & _ & Hge & _).
  destruct (JS.ge (confidence profile) (JS.Fin 60)); [|apply Hprimary].
  intros Hin. apply in_app_or in Hin as [Hin|[<-|[]]]; [apply Hprimary, Hin|].
  cbn [property score]. auto.
Qed.

(** X6.  A listing without a valid price ([buyingPrice] not a positive
    number), without a valid area, or with an area below 15 scores at
    most 30 against any built profile, so it is never ranked, neither as
    a match nor as a surprise. *)
Theorem invalid_listing_never_ranked (liked likedNow all : list Listing)
        (profile : Profile) (p : Listing) :
  buildPreferenceProfile (Some liked) = Some profile ->
  JS.valid_number (buyingPrice p) = false
  \/ JS.valid_number (JS.or_json (squareMeter p) (livingSpace p)) = false
  \/ (exists q, JS.or_json (squareMeter p) (livingSpace p) = JS.Number q
                 /\ q < 15) ->
  (exists z, calculateMatchScore p (Some profile) = JS.Fin (inject_Z z)
             /\ (0 <= z <= 30)%Z)
  /\ ~ In p (map property (rankedProperties profile likedNow all)).
Proof.
  intros H Hinv. pose proof (buildPreferenceProfile_ok _ _ H) as Hok.
  assert (Hz : exists z, calculateMatchScore p (Some profile) = JS.Fin (inject_Z z)
                         /\ (0 <= z <= 30)%Z).
  { destruct (weighted_total_range profile p Hok) as (t & Ht & Hr).
    unfold calculateMatchScore. rewrite Ht.
    assert (Hzero : (JS.eq (s_price (dimension_scores p profile)) (JS.Fin 0)
                     || JS.eq (s_size (dimension_scores p profile)) (JS.Fin 0))%bool
                    = true).
    { cbn [dimension_scores s_price s_size]. unfold score_price, score_size.
      destruct Hinv as [-> | [-> | (q & -> & Hq)]]; cbn [andb];
        [reflexivity | apply orb_true_r |].
      assert (Hlt : JS.lt (JS.number_value (JS.Number q)) (JS.Fin 15) = true)
        by (apply lt_Fin; exact Hq).
      rewrite Hlt.
      match goal with
      | |- context [if ?c then JS.Fin 0 else JS.Fin 0] => destruct c
      end; apply orb_true_r. }
    rewrite Hzero. cbn [JS.mul]. apply round_between; unfold inject_Z; lra. }
  split; [exact Hz|].
  destruct Hz as (z & Hz & Hr).
  intros Hin. apply in_map_iff in Hin as (item & <- & Hitem).
  apply rankedProperties_score in Hitem as (_ & Hs & Hge).
  rewrite Hs, Hz in Hge. apply le_Fin in Hge.
  change 45 with (inject_Z 45) in Hge. rewrite <- Zle_Qle in Hge. lia.
Qed.

Lemma invalid_listing_never_ranked_witness :
  buildPreferenceProfile (Some five_likes) = Some example_profile
  /\ JS.valid_number (buyingPrice unpriced_candidate) = false
  /\ ~ In unpriced_candidate
        (map property
             (rankedProperties example_profile five_likes
                               (unpriced_candidate :: example_catalog))).
Proof.
  assert (H : buildPreferenceProfile (Some five_likes) = Some example_profile)
    by (vm_compute; reflexivity).
  split; [exact H|]. split; [reflexivity|].
  apply (invalid_listing_never_ranked five_likes five_likes
           (unpriced_candidate :: example_catalog) example_profile
           unpriced_candidate H).
  left. reflexivity.
Defined.




(** ** The preferred location *)

Lemma count_all_sound (cats : list string) (s : string) (k : nat) :
  In (s, k) (count_all cats) -> k = count_occ string_dec cats s.
Proof.
  intros He.
  rewrite <- (In_count_of s k _ (count_all_keys cats) He). unfold count_all.
  rewrite count_of_fold. reflexivity.
Qed.

Lemma count_of_absent (s : string) (counts : list (string * nat)) :
  ~ In s (map fst counts) -> count_of s counts = 0%nat.
Proof.
  induction counts as [|[k n] rest IH]; intros H; [reflexivity|].
  cbn [count_of]. destruct (String.eqb_spec k s) as [->|_].
  - exfalso. apply H. left. reflexivity.
  - apply IH. intros H'. apply H. right. exact H'.
Qed.

Lemma count_all_complete (cats : list string) (s : string) :
  In s cats -> In (s, count_occ string_dec cats s) (count_all cats).
Proof.
  intros Hin.
  assert (Hpos : (0 < count_occ string_dec cats s)%nat)
    by (apply count_occ_In; exact Hin).
  destruct (in_dec string_dec s (map fst (count_all cats))) as [H|H].
  - apply in_map_iff in H as ([s1 k1] & Hs1 & Hc). cbn [fst] in Hs1. subst s1.
    rewrite <- (count_all_sound cats s k1 Hc). exact Hc.
  - exfalso. apply count_of_absent in H. unfold count_all in H.
    rewrite count_of_fold in H. cbn [count_of] in H. lia.
Qed.

Lemma count_all_member (cats : list string) (s : string) (k : nat) :
  In (s, k) (count_all cats) -> In s cats.
Proof.
  intros He.
  assert (Hkeys : forall acc cs,
             NoDup (map fst acc) ->
             forall x, In x (map fst (fold_left
                                        (fun counts cat => count_add cat counts)
                                        cs acc)) ->
                       In x cs \/ In x (map fst acc)).
  { intros acc cs. revert acc.
    induction cs as [|c cs IH]; intros acc Hnd x Hx; cbn [fold_left] in Hx.
    - right. exact Hx.
    - destruct (count_add_keys c acc Hnd) as [Hnd' Hiff].
      destruct (IH _ Hnd' x Hx) as [H|H]; [left; right; exact H|].
      apply Hiff in H as [->|H]; [left; left; reflexivity | right; exact H]. }
  destruct (Hkeys [] cats (NoDup_nil _) s) as [H|[]]; [|exact H].
  apply in_map_iff. exists (s, k). split; [reflexivity | exact He].
Qed.

Lemma sorted_counts (cats : list string) :
  let sorted :=
    JS.sort (fun a b => JS.sub (JS.of_nat (snd b)) (JS.of_nat (snd a)))
            (entries (count_all cats)) in
  Permutation sorted (count_all cats)
  /\ StronglySorted (fun x y => (snd y <= snd x)%nat) sorted.
Proof.
  cbv zeta. split.
  - apply Permutation_trans with (entries (count_all cats));
      [apply sort_perm | apply entries_perm].
  - set (key := fun x : string * nat => - inject_Z (Z.of_nat (snd x))).
    assert (Hs : StronglySorted (fun x y => key x <= key y)
                   (JS.sort (fun a b => JS.sub (JS.of_nat (snd b))
                                                (JS.of_nat (snd a)))
                            (entries (count_all cats)))).
    { apply sort_sorted. intros a b _ _. unfold JS.gt, JS.of_nat, key.
      cbn [JS.sub JS.neg JS.add]. rewrite lt_Fin. split; intros; lra. }
    induction Hs as [|x l Hs IH Hall]; constructor; [exact IH|].
    eapply Forall_impl; [|exact Hall]. intros y Hy. unfold key in Hy.
    assert (Hq : inject_Z (Z.of_nat (snd y)) <= inject_Z (Z.of_nat (snd x)))
      by lra.
    rewrite <- Zle_Qle in Hq. lia.
Qed.

Lemma head_of_sorted_counts (cats : list string) :
  cats <> [] ->
  exists pref pc others,
    JS.sort (fun a b => JS.sub (JS.of_nat (snd b)) (JS.of_nat (snd a)))
            (entries (count_all cats))
    = (pref, pc) :: others
    /\ In pref cats
    /\ pc = count_occ string_dec cats pref
    /\ (forall s, (count_occ string_dec cats s <= pc)%nat)
    /\ ~ In pref (map fst others).
Proof.
  intros Hne.
  destruct (sorted_counts cats) as [Hperm Hsorted]. cbv zeta in Hperm, Hsorted.
  destruct (JS.sort _ (entries (count_all cats)))
    as [|[pref pc] others] eqn:E.
  { exfalso. apply Permutation_nil in Hperm.
    destruct cats as [|c cs]; [congruence|].
    pose proof (count_all_complete (c :: cs) c (or_introl eq_refl)) as H.
    rewrite Hperm in H. destruct H. }
  assert (Hpref : In (pref, pc) (count_all cats))
    by (apply (Permutation_in _ Hperm); left; reflexivity).
  pose proof (count_all_sound cats pref pc Hpref) as Hpc.
  exists pref, pc, others. split; [reflexivity|].
  split; [exact (count_all_member cats pref pc Hpref)|].
  split; [exact Hpc|]. split.
  - intros s. destruct (in_dec string_dec s cats) as [Hs|Hs].
    + pose proof (count_all_complete cats s Hs) as Hc.
      apply (Permutation_in _ (Permutation_sym Hperm)) in Hc.
      destruct Hc as [[= -> <-]|Hc]; [lia|].
      inversion Hsorted as [|? ? _ Hall]; subst.
      rewrite Forall_forall in Hall. exact (Hall _ Hc).
    + apply (count_occ_not_In string_dec) in Hs. rewrite Hs. lia.
  - assert (Hnd : NoDup (map fst ((pref, pc) :: others))).
    { apply (Permutation_NoDup (l := map fst (count_all cats)));
        [|apply count_all_keys].
      apply Permutation_map, Permutation_sym, Hperm. }
    cbn [map fst] in Hnd. inversion Hnd as [|? ? Hnot _]; subst. exact Hnot.
Qed.

(** X8.  For a non-empty sample in which no category names a property
    of [Object.prototype], the preferred location is one of the samples,
    no other location occurs more often, it is never one of its own
    alternates, and the consistency is an integer percentage 0..100. *)
Theorem preferred_is_most_frequent (categories : list string) :
  categories <> [] ->
  forallb plain_key categories = true ->
  let stats := calculateCategoryPreferences categories in
  exists pref,
    preferred stats = Some pref
    /\ In pref categories
    /\ (forall s, (count_occ string_dec categories s
                   <= count_occ string_dec categories pref)%nat)
    /\ ~ In pref (alternatives stats)
    /\ exists z, consistency stats = JS.Fin (inject_Z z) /\ (0 <= z <= 100)%Z.
Proof.
  intros Hne _. cbv zeta.
  destruct (head_of_sorted_counts categories Hne)
    as (pref & pc & others & E & Hin & Hpc & Hmax & Hnot).
  unfold calculateCategoryPreferences.
  destruct categories as [|c cs]; [congruence|].
  remember (c :: cs) as cats eqn:Hcats.
  assert (Hlen : (0 < Z.of_nat (List.length cats))%Z)
    by (subst cats; cbn [List.length]; lia).
  assert (Hnz : ~ inject_Z (Z.of_nat (List.length cats)) == 0).
  { intros H. unfold Qeq in H. cbn [Qnum Qden inject_Z] in H. lia. }
  rewrite E. exists pref. cbn [preferred alternatives consistency].
  split; [reflexivity|]. split; [exact Hin|].
  split; [intros s; rewrite <- Hpc; apply Hmax|].
  split.
  { intros H. apply Hnot. apply in_map_iff in H as (e & He & Hf).
    apply filter_In in Hf as [Hf _]. apply in_map_iff. exists e. auto. }
  unfold JS.of_nat. rewrite div_Fin by exact Hnz.
  cbn [JS.mul]. apply round_between.
  - assert (H0 : 0 <= inject_Z (Z.of_nat pc) / inject_Z (Z.of_nat (List.length cats))).
    { apply Qle_shift_div_l.
      - change 0 with (inject_Z 0). rewrite <- Zlt_Qlt. exact Hlen.
      - change 0 with (inject_Z 0) at 1. rewrite Qmult_0_l.
        change 0 with (inject_Z 0). rewrite <- Zle_Qle. lia. }
    unfold inject_Z at 1. lra.
  - assert (H1 : inject_Z (Z.of_nat pc) / inject_Z (Z.of_nat (List.length cats)) <= 1).
    { apply Qle_shift_div_r.
      - change 0 with (inject_Z 0). rewrite <- Zlt_Qlt. exact Hlen.
      - rewrite Qmult_1_l. rewrite <- Zle_Qle.
        rewrite Hpc. pose proof (count_occ_bound string_dec pref cats). lia. }
    unfold inject_Z at 3. lra.
Qed.

Lemma preferred_is_most_frequent_witness :
  twenty_locations <> []
  /\ forallb plain_key twenty_locations = true
  /\ exists pref,
      preferred (calculateCategoryPreferences twenty_locations) = Some pref
      /\ In pref twenty_locations.
Proof.
  assert (H : twenty_locations <> []) by discriminate.
  assert (Hk : forallb plain_key twenty_locations = true) by reflexivity.
  split; [exact H|]. split; [exact Hk|].
  destruct (preferred_is_most_frequent twenty_locations H Hk)
    as (pref & Hp & Hin & _).
  exists pref. split; [exact Hp | exact Hin].
Defined.

Lemma alternatives_characterized_witness :
  twenty_locations <> []
  /\ (In "B"%string (alternatives (calculateCategoryPreferences twenty_locations))
      <-> (preferred (calculateCategoryPreferences twenty_locations)
           <> Some "B"%string
           /\ (2 <= Z.of_nat (count_occ string_dec twenty_locations "B"%string))%Z
           /\ (Qfloor (inject_Z (Z.of_nat (List.length twenty_locations)) * 0.15)
               <= Z.of_nat (count_occ string_dec twenty_locations "B"%string))%Z)).
Proof.
  assert (H : twenty_locations <> []) by discriminate.
  split; [exact H|].
  exact (alternatives_characterized twenty_locations "B"%string H).
Defined.

(** X9.  On an array in which no element names a property of
    [Object.prototype], [mostCommon] returns the preferred category of
    [calculateCategoryPreferences]: an element of the array that no other
    element out-counts; it raises exactly on the empty array. *)
Theorem mostCommon_most_frequent (arr : list string) :
  forallb plain_key arr = true ->
  mostCommon arr = preferred (calculateCategoryPreferences arr)
  /\ (mostCommon arr = None <-> arr = [])
  /\ forall m, mostCommon arr = Some m ->
               In m arr
               /\ forall s, (count_occ string_dec arr s
                             <= count_occ string_dec arr m)%nat.
Proof.
  intros _. destruct arr as [|c cs].
  - split; [reflexivity|]. split; [split; reflexivity|]. discriminate.
  - destruct (head_of_sorted_counts (c :: cs) ltac:(discriminate))
      as (pref & pc & others & E & Hin & Hpc & Hmax & _).
    unfold mostCommon, calculateCategoryPreferences. rewrite E.
    cbn [preferred fst].
    split; [reflexivity|]. split; [split; discriminate|].
    intros m [= <-]. split; [exact Hin|].
    intros s. rewrite <- Hpc. apply Hmax.
Qed.

Lemma mostCommon_most_frequent_witness :
  forallb plain_key twenty_locations = true
  /\ mostCommon twenty_locations
     = preferred (calculateCategoryPreferences twenty_locations)
  /\ (mostCommon twenty_locations = None <-> twenty_locations = []).
Proof.
  assert (Hk : forallb plain_key twenty_locations = true) by reflexivity.
  split; [exact Hk|].
  destruct (mostCommon_most_frequent twenty_locations Hk) as (H1 & H2 & _).
  exact (conj H1 H2).
Defined.

(** ** Listing identity *)

Lemma strict_eq_sym (a b : JS.json) : JS.strict_eq a b = JS.strict_eq b a.
Proof.
  destruct a, b; cbn [JS.strict_eq]; try reflexivity.
  - destruct b0, b; reflexivity.
  - destruct (Qeq_bool q q0) eqn:E1; destruct (Qeq_bool q0 q) eqn:E2;
      try reflexivity.
    + apply Qeq_bool_iff in E1. symmetry in E1. apply Qeq_bool_iff in E1.
      congruence.
    + apply Qeq_bool_iff in E2. symmetry in E2. apply Qeq_bool_iff in E2.
      congruence.
  - apply String.eqb_sym.
Qed.

Lemma isSameProperty_sym (a b : option Listing) :
  isSameProperty a b = isSameProperty b a.
Proof.
  destruct a as [a|], b as [b|]; cbn [isSameProperty]; try reflexivity.
  rewrite (andb_comm (JS.truthy_json (id a))).
  destruct (JS.truthy_json (id b) && JS.truthy_json (id a))%bool.
  - apply strict_eq_sym.
  - rewrite (strict_eq_sym (title a)), (strict_eq_sym (buyingPrice a)).
    reflexivity.
Qed.

(** X10.  [isSameProperty] is reflexive and symmetric on listings, and a
    missing argument is never the same property as anything. *)
Theorem isSameProperty_reflexive_symmetric :
  (forall p, isSameProperty (Some p) (Some p) = true)
  /\ (forall a b, isSameProperty a b = isSameProperty b a)
  /\ (forall a, isSameProperty None a = false /\ isSameProperty a None = false).
Proof.
  split; [exact isSameProperty_refl|]. split; [exact isSameProperty_sym|].
  intros [a|]; split; reflexivity.
Qed.

(** ** The swipe session *)

Lemma distinctb_distinct (l : list Listing) : distinctb l = true -> distinct l.
Proof.
  induction l as [|a rest IH]; intros H; [constructor|].
  cbn [distinctb] in H. apply andb_true_iff in H as [H1 H2].
  rewrite forallb_forall in H1. constructor; [|apply IH, H2].
  intros b Hb. apply negb_true_iff, H1, Hb.
Qed.

Lemma distinct_filter (f : Listing -> bool) (l : list Listing) :
  distinct l -> distinct (filter f l).
Proof.
  induction 1 as [|a l Ha _ IH]; cbn [filter]; [constructor|].
  destruct (f a); [|exact IH]. constructor; [|exact IH].
  intros b Hb. apply filter_In in Hb as [Hb _]. apply Ha, Hb.
Qed.

Lemma distinct_firstn (n : nat) (l : list Listing) :
  distinct l -> distinct (firstn n l).
Proof.
  intros H. revert n. induction H as [|a l Ha _ IH]; intros [|n]; cbn [firstn];
    try constructor; [|apply IH].
  intros b Hb. apply Ha. apply (In_firstn n). exact Hb.
Qed.

Lemma distinct_perm (l l' : list Listing) :
  Permutation l l' -> distinct l -> distinct l'.
Proof.
  induction 1 as [|x l l' Hp IH|x y l|l l' l'' _ IH1 _ IH2]; intros H.
  - constructor.
  - inversion H as [|? ? Hx Hl]; subst. constructor; [|apply IH, Hl].
    intros b Hb. apply Hx. apply (Permutation_in _ (Permutation_sym Hp)), Hb.
  - inversion H as [|? ? Hy Hl]; subst.
    inversion Hl as [|? ? Hx Hl']; subst.
    constructor.
    + intros b [<-|Hb]; [|apply Hx, Hb].
      rewrite isSameProperty_sym. apply Hy. left. reflexivity.
    + constructor; [|exact Hl'].
      intros b Hb. apply Hy. right. exact Hb.
  - apply IH2, IH1, H.
Qed.

Lemma distinct_app (l1 l2 : list Listing) :
  distinct l1 -> distinct l2 ->
  (forall a b, In a l1 -> In b l2 -> isSameProperty (Some a) (Some b) = false) ->
  distinct (l1 ++ l2).
Proof.
  intros H1 H2 Hc. induction H1 as [|a l Ha _ IH]; cbn [app]; [exact H2|].
  constructor.
  - intros b Hb. apply in_app_or in Hb as [Hb|Hb];
      [apply Ha, Hb | apply Hc; [left; reflexivity | exact Hb]].
  - apply IH. intros x y Hx Hy. apply Hc; [right; exact Hx | exact Hy].
Qed.

Lemma unseen_not_shown (s : Session) (p : Listing) :
  In p (unseenProperties s) ->
  In p (allProperties s)
  /\ forall shown, In shown (properties s) ->
                   isSameProperty (Some shown) (Some p) = false.
Proof.
  unfold unseenProperties. intros H. apply filter_In in H as [Hall H].
  split; [exact Hall|]. apply negb_true_iff in H. intros shown Hs.
  destruct (isSameProperty (Some shown) (Some p)) eqn:E; [|reflexivity].
  assert (existsb (fun sh => isSameProperty (Some sh) (Some p)) (properties s)
          = true) by (apply existsb_exists; exists shown; auto).
  congruence.
Qed.

(** What a load-more request does to the shown list, in one place. *)
Lemma loadMoreProperties_shape (s : Session) (g : oracle) :
  let r := loadMoreProperties s g in
  exists more,
    properties (fst (fst r)) = properties s ++ more
    /\ allProperties (fst (fst r)) = allProperties s
    /\ currentIndex (fst (fst r)) = currentIndex s
    /\ likedProperties (fst (fst r)) = likedProperties s
    /\ (exists shuffled k,
           Permutation shuffled (unseenProperties s) /\ more = firstn k shuffled).
Proof.
  cbv zeta. unfold loadMoreProperties.
  destruct (MAX_TOTAL_SWIPES <=? List.length (properties s))%nat.
  { exists []. cbn [fst]. rewrite app_nil_r. repeat split.
    exists (unseenProperties s), 0%nat. split; [apply Permutation_refl | reflexivity]. }
  destruct (unseenProperties s) as [|u us] eqn:E.
  { exists []. cbn [fst]. rewrite app_nil_r. repeat split.
    exists [], 0%nat. split; [apply Permutation_refl | reflexivity]. }
  set (batch := Nat.min 15 _).
  destruct (pickRandomSubset_spec (u :: us) batch g) as (sh & Hp & Hfst).
  destruct (pickRandomSubset (u :: us) batch g) as [more g'].
  cbn [fst properties allProperties currentIndex likedProperties] in *.
  exists more. repeat split. exists sh, (Nat.min batch (List.length (u :: us))).
  split; [exact Hp | exact Hfst].
Qed.

Lemma reachable_distinct (s : Session) :
  reachable s -> distinct (allProperties s) -> distinct (properties s).
Proof.
  induction 1 as [catalog g | s _ IH | s _ IH | s g _ IH].
  - unfold startSession.
    destruct (pickRandomSubset_spec catalog MAX_CARDS g) as (sh & Hp & Hfst).
    destruct (pickRandomSubset catalog MAX_CARDS g) as [first g'].
    cbn [fst properties allProperties] in *. subst first. intros Hd.
    apply distinct_firstn. apply (distinct_perm catalog); [|exact Hd].
    apply Permutation_sym, Hp.
  - unfold handleLike. destruct (nth_error _ _); exact IH.
  - unfold handleNope. destruct (_ <=? _)%nat; exact IH.
  - destruct (loadMoreProperties_shape s g)
      as (more & Ep & Ea & _ & _ & sh & k & Hp & Em).
    cbv zeta in Ep, Ea. rewrite Ep, Ea. intros Hd.
    assert (Hu : distinct (unseenProperties s))
      by (apply distinct_filter, Hd).
    apply distinct_app; [apply IH, Hd | |].
    + subst more. apply distinct_firstn.
      apply (distinct_perm (unseenProperties s)); [|exact Hu].
      apply Permutation_sym, Hp.
    + intros a b Ha Hb. subst more. apply In_firstn in Hb.
      apply (Permutation_in _ Hp) in Hb.
      apply (proj2 (unseen_not_shown s b Hb)). exact Ha.
Qed.

(** X11.  When no two listings of the catalog are the same property, no two
    listings shown in a session are: a card is never shown twice,
    whatever the shuffles and however often more cards are loaded. *)
Theorem no_listing_shown_twice (s : Session) :
  reachable s -> distinct (allProperties s) -> distinct (properties s).
Proof. exact (reachable_distinct s). Qed.

Lemma no_listing_shown_twice_witness :
  reachable (fst (fst (loadMoreProperties example_session example_oracle)))
  /\ distinct (allProperties
                 (fst (fst (loadMoreProperties example_session example_oracle))))
  /\ distinct (properties
                 (fst (fst (loadMoreProperties example_session example_oracle)))).
Proof.
  assert (H : reachable
                (fst (fst (loadMoreProperties example_session example_oracle))))
    by (apply reach_load, reach_start).
  assert (Hd : distinct
                 (allProperties
                    (fst (fst (loadMoreProperties example_session example_oracle)))))
    by (apply distinctb_distinct; vm_compute; reflexivity).
  split; [exact H|]. split; [exact Hd|].
  exact (no_listing_shown_twice _ H Hd).
Defined.

(** X12.  In every reachable session the swipe index never passes the shown
    cards, there are at most as many likes as swipes, every liked listing
    is one of the shown cards, every shown card is a catalog listing, and
    at most 50 cards are shown. *)
Theorem session_invariants (s : Session) :
  reachable s ->
  (currentIndex s <= List.length (properties s))%nat
  /\ (List.length (likedProperties s) <= currentIndex s)%nat
  /\ (forall p, In p (likedProperties s) -> In p (properties s))
  /\ (forall p, In p (properties s) -> In p (allProperties s))
  /\ (List.length (properties s) <= MAX_TOTAL_SWIPES)%nat.
Proof.
  intros Hr. pose proof (reachable_within_cap s Hr) as Hcap.
  split; [|split; [|split; [|split; [|exact Hcap]]]]; clear Hcap.
  - induction Hr as [catalog g | s _ IH | s _ IH | s g _ IH].
    + unfold startSession. destruct (pickRandomSubset _ _ _). cbn. lia.
    + unfold handleLike. destruct (nth_error _ _) eqn:E; [|exact IH].
      cbn [currentIndex properties].
      assert (currentIndex s < List.length (properties s))%nat
        by (apply nth_error_Some; congruence).
      lia.
    + unfold handleNope.
      destruct (Nat.leb_spec (List.length (properties s)) (currentIndex s));
        [exact IH|]. cbn [currentIndex properties]. lia.
    + destruct (loadMoreProperties_shape s g) as (more & Ep & _ & Ei & _).
      cbv zeta in Ep, Ei. rewrite Ep, Ei, length_app. lia.
  - induction Hr as [catalog g | s _ IH | s _ IH | s g _ IH].
    + unfold startSession. destruct (pickRandomSubset _ _ _). cbn. lia.
    + unfold handleLike. destruct (nth_error _ _); [|exact IH].
      cbn [currentIndex likedProperties]. rewrite length_app. cbn. lia.
    + unfold handleNope. destruct (_ <=? _)%nat; [exact IH|].
      cbn [currentIndex likedProperties]. lia.
    + destruct (loadMoreProperties_shape s g) as (more & _ & _ & Ei & El & _).
      cbv zeta in Ei, El. rewrite Ei, El. exact IH.
  - induction Hr as [catalog g | s _ IH | s _ IH | s g _ IH].
    + unfold startSession. destruct (pickRandomSubset _ _ _). intros p [].
    + unfold handleLike. destruct (nth_error _ _) eqn:E; [|exact IH].
      cbn [properties likedProperties]. intros p Hp.
      apply in_app_or in Hp as [Hp|[<-|[]]]; [apply IH, Hp|].
      eapply nth_error_In. exact E.
    + unfold handleNope. destruct (_ <=? _)%nat; exact IH.
    + destruct (loadMoreProperties_shape s g) as (more & Ep & _ & _ & El & _).
      cbv zeta in Ep, El. rewrite Ep, El. intros p Hp.
      apply in_or_app. left. apply IH, Hp.
  - induction Hr as [catalog g | s _ IH | s _ IH | s g _ IH].
    + unfold startSession.
      destruct (pickRandomSubset_spec catalog MAX_CARDS g) as (sh & Hp & Hfst).
      destruct (pickRandomSubset catalog MAX_CARDS g) as [first g'].
      cbn [fst properties allProperties] in *. subst first. intros p Hin.
      apply In_firstn in Hin. apply (Permutation_in _ Hp), Hin.
    + unfold handleLike. destruct (nth_error _ _); exact IH.
    + unfold handleNope. destruct (_ <=? _)%nat; exact IH.
    + destruct (loadMoreProperties_shape s g)
        as (more & Ep & Ea & _ & _ & sh & k & Hp & Em).
      cbv zeta in Ep, Ea. rewrite Ep, Ea. intros p Hin.
      apply in_app_or in Hin as [Hin|Hin]; [apply IH, Hin|].
      subst more. apply In_firstn in Hin. apply (Permutation_in _ Hp) in Hin.
      apply (unseen_not_shown s p Hin).
Qed.

Lemma session_invariants_witness :
  reachable (handleLike example_session)
  /\ (currentIndex (handleLike example_session)
      <= List.length (properties (handleLike example_session)))%nat
  /\ (List.length (likedProperties (handleLike example_session))
      <= currentIndex (handleLike example_session))%nat.
Proof.
  assert (H : reachable (handleLike example_session))
    by (apply reach_like, reach_start).
  split; [exact H|].
  destruct (session_invariants _ H) as (H1 & H2 & _).
  split; [exact H1 | exact H2].
Defined.

(** X13.  [pickRandomSubset(arr, n)] returns min(n, length) elements, and they
    are part of a rearrangement of [arr]: no position is drawn twice and
    nothing is drawn that is not in [arr]. *)
Theorem pickRandomSubset_draws_without_repetition
        {A : Type} (arr : list A) (n : nat) (g : oracle) :
  let picked := fst (pickRandomSubset arr n g) in
  List.length picked = Nat.min n (List.length arr)
  /\ (exists rest, Permutation (picked ++ rest) arr)
  /\ (forall x, In x picked -> In x arr)
  /\ (NoDup arr -> NoDup picked).
Proof.
  cbv zeta. destruct (pickRandomSubset_spec arr n g) as (sh & Hp & ->).
  assert (Hsplit : Permutation
                     (firstn (Nat.min n (List.length arr)) sh
                      ++ skipn (Nat.min n (List.length arr)) sh) arr)
    by (rewrite firstn_skipn; exact Hp).
  split.
  - rewrite length_firstn, (Permutation_length Hp). lia.
  - split; [eexists; exact Hsplit|]. split.
    + intros x Hx. apply In_firstn in Hx. apply (Permutation_in _ Hp), Hx.
    + intros Hnd.
      apply (Permutation_NoDup (Permutation_sym Hsplit)) in Hnd.
      apply NoDup_app_remove_r in Hnd. exact Hnd.
Qed.

(** X14.  A load-more request has three outcomes.  "Maximum reached"
    appears when 50 cards are shown, "seen everything" when fewer are
    shown and every catalog listing is the same property as a card
    already shown; both leave the session as it is.  Otherwise between 1
    and 15 cards are appended, each a catalog listing that is not the
    same property as any card shown before, and nothing else changes.
    The three conditions exclude one another, so each outcome appears
    exactly under its condition. *)
Theorem load_more_outcomes (s : Session) (g : oracle) :
  reachable s ->
  let s' := fst (fst (loadMoreProperties s g)) in
  match snd (fst (loadMoreProperties s g)) with
  | MaximumReached =>
      List.length (properties s) = MAX_TOTAL_SWIPES /\ s' = s
  | SeenEverything =>
      (List.length (properties s) < MAX_TOTAL_SWIPES)%nat
      /\ (forall p, In p (allProperties s) ->
            exists shown, In shown (properties s)
                          /\ isSameProperty (Some shown) (Some p) = true)
      /\ s' = s
  | Loaded count =>
      (1 <= count <= 15)%nat
      /\ (List.length (properties s) < MAX_TOTAL_SWIPES)%nat
      /\ (exists more,
             properties s' = properties s ++ more
             /\ List.length more = count
             /\ forall p, In p more ->
                  In p (allProperties s)
                  /\ forall shown, In shown (properties s) ->
                       isSameProperty (Some shown) (Some p) = false)
      /\ allProperties s' = allProperties s
      /\ currentIndex s' = currentIndex s
      /\ likedProperties s' = likedProperties s
  end.
Proof.
  intros Hr. cbv zeta. pose proof (reachable_within_cap s Hr) as Hcap.
  assert (Hnew : forall p, In p (unseenProperties s) ->
             In p (allProperties s)
             /\ forall shown, In shown (properties s) ->
                  isSameProperty (Some shown) (Some p) = false)
    by exact (unseen_not_shown s).
  assert (Hseen : unseenProperties s = [] ->
             forall p, In p (allProperties s) ->
               exists shown, In shown (properties s)
                             /\ isSameProperty (Some shown) (Some p) = true).
  { intros E p Hp.
    destruct (existsb (fun shown => isSameProperty (Some shown) (Some p))
                      (properties s)) eqn:X.
    - apply existsb_exists in X. exact X.
    - exfalso.
      assert (Hin : In p (unseenProperties s)).
      { unfold unseenProperties. apply filter_In. split; [exact Hp|].
        rewrite X. reflexivity. }
      rewrite E in Hin. destruct Hin. }
  unfold loadMoreProperties, MAX_TOTAL_SWIPES in *.
  destruct (Nat.leb_spec 50 (List.length (properties s))) as [Hfull|Hroom].
  - cbn [fst snd]. split; [lia | reflexivity].
  - destruct (unseenProperties s) as [|u us] eqn:E.
    + cbn [fst snd]. split; [exact Hroom|]. split; [|reflexivity].
      apply Hseen. reflexivity.
    + set (batch := Nat.min 15 _).
      destruct (pickRandomSubset_spec (u :: us) batch g) as (sh & Hp & Hfst).
      destruct (pickRandomSubset (u :: us) batch g) as [more g'].
      cbn [fst snd properties allProperties currentIndex likedProperties] in *.
      subst more.
      assert (Hlen : List.length (firstn (Nat.min batch (List.length (u :: us))) sh)
                     = batch).
      { rewrite length_firstn, (Permutation_length Hp).
        subst batch. cbn [List.length]. lia. }
      rewrite Hlen.
      split; [subst batch; cbn [List.length]; lia|].
      split; [exact Hroom|].
      split; [|repeat split].
      exists (firstn (Nat.min batch (List.length (u :: us))) sh).
      split; [reflexivity|]. split; [exact Hlen|].
      intros p Hin. apply In_firstn in Hin.
      apply Hnew. exact (Permutation_in _ Hp Hin).
Qed.

Lemma load_more_outcomes_witness :
  reachable example_session
  /\ exists count,
      snd (fst (loadMoreProperties example_session example_oracle))
      = Loaded count
      /\ (1 <= count <= 15)%nat
      /\ List.length
           (properties
              (fst (fst (loadMoreProperties example_session example_oracle))))
         = (List.length (properties example_session) + count)%nat.
Proof.
  assert (H : reachable example_session) by apply reach_start.
  split; [exact H|].
  pose proof (load_more_outcomes example_session example_oracle H) as L.
  cbv zeta in L.
  destruct (snd (fst (loadMoreProperties example_session example_oracle)))
    as [| |count] eqn:E.
  - vm_compute in E. discriminate E.
  - vm_compute in E. discriminate E.
  - exists count. split; [reflexivity|].
    destruct L as (Hc & _ & (more & Hm & Hl & _) & _).
    split; [exact Hc|]. rewrite Hm, length_app, Hl. reflexivity.
Defined.

Lemma build_nonempty (p : Listing) (liked : list Listing) :
  exists profile, buildPreferenceProfile (Some (p :: liked)) = Some profile.
Proof.
  unfold buildPreferenceProfile.
  destruct (valid_numbers (map buyingPrice (p :: liked)));
    destruct (valid_numbers
                (map (fun p0 => JS.or_json (squareMeter p0) (livingSpace p0))
                     (p :: liked)));
    destruct (valid_numbers (map rooms (p :: liked)));
    eexists; reflexivity.
Qed.

(** X15.  The card at the end of a batch, when no liked listing's location
    names a property of [Object.prototype]: without a like only more
    cards are offered; with one to four likes the card shows the
    confidence of the profile built from the likes, which is at most 60;
    from five likes on it shows that confidence, at least 57, and calls
    the data excellent exactly when the confidence is at least 90, which
    takes seven likes.  The fallback values 40 and 75 of the source are
    never what is shown for want of a profile. *)
Theorem end_of_swipes_card (s : Session) :
  forallb plain_key
          (truthy_strings (map listing_city (likedProperties s))) = true ->
  match handleEndOfSwipes s with
  | NoMatchesYet n =>
      likedProperties s = [] /\ n = currentIndex s
  | GettingThere likes shown =>
      likes = List.length (likedProperties s) /\ (1 <= likes < 5)%nat
      /\ exists profile z,
          buildPreferenceProfile (Some (likedProperties s)) = Some profile
          /\ shown = confidence profile
          /\ shown = JS.Fin (inject_Z z) /\ (15 <= z <= 60)%Z
  | GreatJob likes shown excellent =>
      likes = List.length (likedProperties s) /\ (5 <= likes)%nat
      /\ exists profile z,
          buildPreferenceProfile (Some (likedProperties s)) = Some profile
          /\ shown = confidence profile
          /\ shown = JS.Fin (inject_Z z) /\ (57 <= z <= 100)%Z
          /\ (excellent = true <-> (90 <= z)%Z)
          /\ (excellent = true -> (7 <= likes)%nat)
  end
  /\ (offers_results (handleEndOfSwipes s) = true <-> likedProperties s <> []).
Proof.
  intros _.
  unfold handleEndOfSwipes.
  destruct (likedProperties s) as [|p0 rest] eqn:El.
  { cbn. split; [auto|]. split; [discriminate | congruence]. }
  destruct (build_nonempty p0 rest) as [profile Eb]. rewrite Eb.
  destruct (built_confidence _ _ Eb) as [stats Hc].
  destruct (calculateConfidenceScore_range (List.length (p0 :: rest)) stats)
    as (z & Hz & Hr & _ & H5 & H57 & H90).
  rewrite <- Hc in Hz.
  split; [|cbn [List.length Nat.eqb];
           destruct (_ <? _)%nat; cbn; (split; [discriminate | reflexivity])].
  cbn [List.length Nat.eqb].
  destruct (Nat.ltb_spec (S (List.length rest)) 5) as [Hlt|Hge].
  - split; [reflexivity|]. split; [lia|].
    cbn [List.length] in H5. specialize (H5 Hlt).
    exists profile, z. repeat split; auto; lia.
  - split; [reflexivity|]. split; [lia|].
    cbn [List.length] in H57, H90. specialize (H57 Hge).
    exists profile, z. split; [reflexivity|]. split; [reflexivity|].
    split; [exact Hz|]. split; [lia|].
    assert (Hiff : JS.ge (confidence profile) (JS.Fin 90) = true <-> (90 <= z)%Z).
    { rewrite Hz. unfold JS.ge. rewrite le_Fin.
      change 90 with (inject_Z 90). rewrite <- Zle_Qle. reflexivity. }
    split; [exact Hiff|]. intros He. apply H90, Hiff, He.
Qed.

Lemma end_of_swipes_card_witness :
  forallb plain_key
          (truthy_strings
             (map listing_city (likedProperties (handleLike example_session))))
  = true
  /\ exists shown,
      handleEndOfSwipes (handleLike example_session) = GettingThere 1 shown
      /\ exists profile,
          buildPreferenceProfile
            (Some (likedProperties (handleLike example_session)))
          = Some profile
          /\ shown = confidence profile.
Proof.
  assert (Hk : forallb plain_key
                 (truthy_strings
                    (map listing_city
                         (likedProperties (handleLike example_session))))
               = true) by (vm_compute; reflexivity).
  split; [exact Hk|].
  pose proof (end_of_swipes_card (handleLike example_session) Hk) as [C _].
  destruct (handleEndOfSwipes (handleLike example_session))
    as [n|likes shown|likes shown excellent] eqn:E.
  - destruct C as [C _]. vm_compute in C. discriminate C.
  - destruct C as (Hl & _ & profile & z & Hb & Hs & _).
    exists shown. split.
    + rewrite Hl. vm_compute. reflexivity.
    + exists profile. split; [exact Hb | exact Hs].
  - destruct C as (Hl & Hge & _). exfalso. rewrite Hl in Hge.
    vm_compute in Hge. lia.
Defined.

Lemma end_of_swipes_card_example :
  handleEndOfSwipes (handleLike example_session)
  = GettingThere 1 (JS.Fin 20).
Proof. vm_compute. reflexivity. Qed.

(** ** The ranked list *)

Lemma scoredProperties_complete (profile : Profile) (liked all : list Listing)
      (p : Listing) :
  In p all -> liked_already liked p = false ->
  JS.ge (calculateMatchScore p (Some profile)) (JS.Fin 60) = true ->
  In (mkRecommendation p (calculateMatchScore p (Some profile)) false)
     (scoredProperties profile liked all).
Proof.
  intros Hall Hl Hge. unfold scoredProperties.
  rewrite sort_In, filter_In, in_map_iff. split.
  - exists p. split; [reflexivity|]. apply filter_In. split; [exact Hall|].
    rewrite Hl. reflexivity.
  - exact Hge.
Qed.

Lemma descending_sorted (l : list Recommendation) :
  (forall x, In x l -> exists q, score x = JS.Fin q) ->
  StronglySorted (fun a b => JS.ge (score a) (score b) = true)
                 (JS.sort by_score_descending l).
Proof.
  intros Hfin.
  assert (Hs : StronglySorted (fun x y => - qval (score x) <= - qval (score y))
                              (JS.sort by_score_descending l)).
  { apply sort_sorted. intros a b Ha Hb.
    destruct (Hfin a Ha) as [qa Ea]. destruct (Hfin b Hb) as [qb Eb].
    rewrite (descending_gt qa qb a b Ea Eb), Ea, Eb. cbn [qval].
    split; intros; lra. }
  assert (Hfin' : forall x, In x (JS.sort by_score_descending l) ->
                            exists q, score x = JS.Fin q)
    by (intros x Hx; apply Hfin; apply (sort_In by_score_descending); exact Hx).
  induction Hs as [|x t Hs IH Hall]; constructor.
  - apply IH. intros y Hy. apply Hfin'. right. exact Hy.
  - rewrite Forall_forall in Hall. apply Forall_forall. intros y Hy.
    specialize (Hall y Hy).
    destruct (Hfin' x (or_introl eq_refl)) as [qx Ex].
    destruct (Hfin' y (or_intror Hy)) as [qy Ey].
    rewrite Ex, Ey in *. cbn [qval] in Hall. unfold JS.ge. apply le_Fin. lra.
Qed.

(** X16.  Against a built profile the threshold-passing list is complete and
    ordered: it holds every catalog listing that is not liked and scores
    at least 60, and its entries come in descending score order. *)
Theorem primary_list_complete_and_sorted (liked0 liked all : list Listing)
        (profile : Profile) :
  buildPreferenceProfile (Some liked0) = Some profile ->
  (forall p, In p all -> liked_already liked p = false ->
             JS.ge (calculateMatchScore p (Some profile)) (JS.Fin 60) = true ->
             In (mkRecommendation p (calculateMatchScore p (Some profile)) false)
                (scoredProperties profile liked all))
  /\ StronglySorted (fun a b => JS.ge (score a) (score b) = true)
                    (scoredProperties profile liked all).
Proof.
  intros H. split; [intros p; apply scoredProperties_complete|].
  unfold scoredProperties. apply descending_sorted.
  intros x Hx. apply filter_In in Hx as [Hx _].
  apply in_map_iff in Hx as (p & <- & _). cbn [score].
  destruct (match_score_in_range (Some liked0) profile p H) as (z & -> & _).
  eexists; reflexivity.
Qed.

Lemma primary_list_complete_and_sorted_witness :
  buildPreferenceProfile (Some five_likes) = Some example_profile
  /\ StronglySorted (fun a b => JS.ge (score a) (score b) = true)
                    (scoredProperties example_profile five_likes example_catalog).
Proof.
  assert (H : buildPreferenceProfile (Some five_likes) = Some example_profile)
    by (vm_compute; reflexivity).
  split; [exact H|].
  exact (proj2 (primary_list_complete_and_sorted
                  five_likes five_likes example_catalog example_profile H)).
Defined.

Lemma rankedProperties_item (profile : Profile) (liked all : list Listing)
      (item : Recommendation) :
  In item (rankedProperties profile liked all) ->
  (isSurprise item = false /\ JS.ge (score item) (JS.Fin 60) = true)
  \/ (isSurprise item = true /\ JS.lt (score item) (JS.Fin 60) = true).
Proof.
  assert (Hprimary : forall it, In it (scoredProperties profile liked all) ->
            isSurprise it = false /\ JS.ge (score it) (JS.Fin 60) = true).
  { intros it Hit. apply scoredProperties_In in Hit. tauto. }
  unfold rankedProperties.
  destruct (surpriseProperties profile liked all) as [|surprise rest] eqn:E;
    [intros H; left; apply Hprimary, H|].
  assert (Hs : In surprise (surpriseProperties profile liked all))
    by (rewrite E; left; reflexivity).
  apply surpriseProperties_In in Hs as (p & -> & _ & _ & _ & _ & Hlt).
  destruct (JS.ge (confidence profile) (JS.Fin 60));
    [|intros H; left; apply Hprimary, H].
  intros Hin. apply in_app_or in Hin as [Hin|[<-|[]]];
    [left; apply Hprimary, Hin|].
  right. cbn [isSurprise score]. auto.
Qed.

(** X17.  What the recommendations section shows: between 1 and 10 entries,
    each a catalog listing that is not liked, with an integer score of 45
    to 100; an entry flagged as a surprise scores below 60 and every other
    entry at least 60.  The section shows entries only when there are
    likes. *)
Theorem shown_recommendations (liked all : list Listing)
        (items : list Recommendation) :
  renderRecommendations liked all = Recommendations items ->
  liked <> []
  /\ (1 <= List.length items <= 10)%nat
  /\ forall item, In item items ->
       In (property item) all
       /\ liked_already liked (property item) = false
       /\ exists z, score item = JS.Fin (inject_Z z)
                    /\ (45 <= z <= 100)%Z
                    /\ (isSurprise item = false -> (60 <= z)%Z)
                    /\ (isSurprise item = true -> (z < 60)%Z).
Proof.
  unfold renderRecommendations.
  destruct (buildPreferenceProfile (Some liked)) as [profile|] eqn:Eb;
    [|destruct all; discriminate].
  destruct all as [|p0 all']; [discriminate|].
  destruct (rankedProperties profile liked (p0 :: all')) as [|r rs] eqn:E.
  { destruct (JS.lt _ _); discriminate. }
  intros Heq.
  assert (Hitems : items = firstn 10 (r :: rs)) by congruence.
  clear Heq. subst items. split.
  { intros ->. discriminate Eb. }
  split.
  { rewrite length_firstn. cbn [List.length]. lia. }
  intros item Hin. apply In_firstn in Hin. rewrite <- E in Hin.
  pose proof (rankedProperties_not_liked _ _ _ _ Hin) as Hl.
  pose proof (rankedProperties_item _ _ _ _ Hin) as Hk.
  apply rankedProperties_score in Hin as (Hall & Hs & Hge).
  split; [exact Hall|]. split; [exact Hl|].
  destruct (match_score_in_range (Some liked) profile (property item) Eb)
    as (z & Hz & Hr).
  rewrite <- Hs in Hz. exists z. split; [exact Hz|].
  rewrite Hz in Hge, Hk. unfold JS.ge in *. rewrite le_Fin in Hge.
  change 45 with (inject_Z 45) in Hge. rewrite <- Zle_Qle in Hge.
  split; [lia|]. split.
  - intros Hf. destruct Hk as [[_ Hk]|[Hk _]]; [|congruence].
    apply le_Fin in Hk. change 60 with (inject_Z 60) in Hk.
    rewrite <- Zle_Qle in Hk. exact Hk.
  - intros Ht. destruct Hk as [[Hk _]|[_ Hk]]; [congruence|].
    apply lt_Fin in Hk. change 60 with (inject_Z 60) in Hk.
    rewrite <- Zlt_Qlt in Hk. exact Hk.
Qed.

Lemma shown_recommendations_witness :
  (exists items,
      renderRecommendations five_likes example_catalog = Recommendations items
      /\ (1 <= List.length items <= 10)%nat)
  /\ five_likes <> [].
Proof.
  assert (H : renderRecommendations five_likes example_catalog
              = Recommendations
                  (firstn 10 (rankedProperties example_profile five_likes
                                               example_catalog)))
    by (vm_compute; reflexivity).
  destruct (shown_recommendations five_likes example_catalog _ H)
    as (Hne & Hlen & _).
  split; [eexists; split; [exact H | exact Hlen] | exact Hne].
Defined.

(** ** The standard deviation *)

Lemma squares_value (l : list JS.num) (m a : Q) :
  Forall finite l ->
  fold_left (fun sum val =>
               JS.add sum (JS.mul (JS.sub val (JS.Fin m)) (JS.sub val (JS.Fin m))))
            l (JS.Fin a)
  = JS.Fin (fold_left (fun acc q => acc + (q + - m) * (q + - m))
                      (map qval l) a).
Proof.
  intros H. revert a. induction H as [|n l [q ->] _ IH]; intros a.
  - reflexivity.
  - cbn [fold_left map qval JS.sub JS.neg JS.add JS.mul]. apply IH.
Qed.

Lemma Qsquare_nonneg (y : Q) : 0 <= y * y.
Proof. unfold Qle, Qmult. cbn [Qnum Qden]. nia. Qed.

Lemma squares_nonneg (l : list Q) (m a : Q) :
  a <= fold_left (fun acc q => acc + (q + - m) * (q + - m)) l a.
Proof.
  revert a. induction l as [|x l IH]; intros a; cbn [fold_left]; [lra|].
  specialize (IH (a + (x + - m) * (x + - m))).
  pose proof (Qsquare_nonneg (x + - m)). lra.
Qed.

Lemma squares_zero (l : list Q) (m a : Q) :
  (forall x, In x l -> x == m) ->
  fold_left (fun acc q => acc + (q + - m) * (q + - m)) l a == a.
Proof.
  revert a. induction l as [|x l IH]; intros a H; cbn [fold_left];
    [reflexivity|].
  rewrite IH by (intros y Hy; apply H; right; exact Hy).
  rewrite (H x (or_introl eq_refl)). ring.
Qed.

Lemma Qsqrt_nonneg (q : Q) : 0 <= JS.Qsqrt q.
Proof.
  unfold JS.Qsqrt, Qle. cbn [Qnum Qden].
  pose proof (Z.sqrt_nonneg (Qnum q * Z.pos (Qden q) * 4 ^ 52)). lia.
Qed.

Lemma Qsqrt_zero (q : Q) : q == 0 -> JS.Qsqrt q == 0.
Proof.
  intros H. unfold Qeq in H. cbn [Qnum Qden] in H.
  assert (Hn : Qnum q = 0%Z) by lia.
  unfold JS.Qsqrt, Qeq. cbn [Qnum Qden]. rewrite Hn. reflexivity.
Qed.

(** X18.  The standard deviation of finite values about a finite mean is
    a number that is not negative (and not NaN); it is 0 when there are
    fewer than two values and when every value equals the mean. *)
Theorem calculateStdDev_nonnegative (values : list JS.num) (m : Q) :
  Forall finite values ->
  JS.ge (calculateStdDev values (JS.Fin m)) (JS.Fin 0) = true
  /\ ((List.length values < 2)%nat ->
      calculateStdDev values (JS.Fin m) = JS.Fin 0)
  /\ ((forall v, In v values -> qval v == m) ->
      JS.eq (calculateStdDev values (JS.Fin m)) (JS.Fin 0) = true).
Proof.
  intros Hfin. unfold calculateStdDev.
  destruct (Nat.ltb_spec (List.length values) 2) as [Hlt|Hge].
  { split; [reflexivity|]. split; reflexivity. }
  rewrite (squares_value values m 0 Hfin).
  destruct values as [|v0 rest]; [cbn in Hge; lia|].
  unfold JS.of_nat. rewrite div_Fin by apply of_nat_S_nonzero.
  set (sq := fold_left (fun acc q => acc + (q + - m) * (q + - m))
                       (map qval (v0 :: rest)) 0).
  set (n := inject_Z (Z.of_nat (List.length (v0 :: rest)))).
  assert (Hn : 0 < n).
  { unfold n. change 0 with (inject_Z 0). rewrite <- Zlt_Qlt.
    cbn [List.length]. lia. }
  assert (Hsq : 0 <= sq) by apply squares_nonneg.
  assert (Hvar : 0 <= sq / n) by (apply Qle_shift_div_l; lra).
  unfold JS.sqrt. apply Qle_bool_iff in Hvar. rewrite Hvar.
  split; [unfold JS.ge; apply le_Fin, Qsqrt_nonneg|].
  split; [intros Hlt; lia|].
  intros Hall.
  assert (Hz : sq == 0).
  { apply squares_zero. intros x Hx.
    apply in_map_iff in Hx as (y & <- & Hy). apply Hall, Hy. }
  assert (Hd : JS.Qsqrt (sq / n) == 0).
  { apply Qsqrt_zero. rewrite Hz. unfold Qdiv. ring. }
  unfold JS.eq, JS.compare. apply Qeq_alt in Hd. rewrite Hd. reflexivity.
Qed.

Lemma calculateStdDev_nonnegative_witness :
  Forall finite [JS.Fin 2; JS.Fin 2; JS.Fin 3]
  /\ JS.ge (calculateStdDev [JS.Fin 2; JS.Fin 2; JS.Fin 3] (JS.Fin (7 # 3)))
           (JS.Fin 0) = true.
Proof.
  assert (H : Forall finite [JS.Fin 2; JS.Fin 2; JS.Fin 3])
    by (repeat constructor; eexists; reflexivity).
  split; [exact H|].
  exact (proj1 (calculateStdDev_nonnegative [JS.Fin 2; JS.Fin 2; JS.Fin 3]
                                            (7 # 3) H)).
Defined.

(** ** The image carousel *)

Lemma previousIndex_range (cur len : Z) :
  (0 <= cur)%Z -> (0 < len)%Z -> (0 <= previousIndex cur len < len)%Z.
Proof.
  intros Hc Hl. unfold previousIndex. apply Z.rem_bound_pos; lia.
Qed.

Lemma nextIndex_range (cur len : Z) :
  (0 <= cur)%Z -> (0 < len)%Z -> (0 <= nextIndex cur len < len)%Z.
Proof.
  intros Hc Hl. unfold nextIndex. apply Z.rem_bound_pos; lia.
Qed.

Lemma handlers_nonneg (step : Z -> Z -> Z) (lens : list Z) :
  (forall cur len, (0 <= cur)%Z -> (0 < len)%Z -> (0 <= step cur len < len)%Z) ->
  Forall (fun len => (1 < len)%Z) lens ->
  forall cur, (0 <= cur)%Z -> (0 <= fold_left step lens cur)%Z.
Proof.
  intros Hstep Hlens. induction Hlens as [|len lens Hlen _ IH]; intros cur Hc.
  - exact Hc.
  - cbn [fold_left]. apply IH. apply Hstep; lia.
Qed.

Lemma key_in_range (step : Z -> Z -> Z) (earlier : list Z) (len cur : Z) :
  (forall cur len, (0 <= cur)%Z -> (0 < len)%Z -> (0 <= step cur len < len)%Z) ->
  Forall (fun len => (1 < len)%Z) earlier ->
  (1 < len)%Z -> (0 <= cur)%Z ->
  (0 <= fold_left step (earlier ++ [len]) cur < len)%Z.
Proof.
  intros Hstep He Hl Hc. rewrite fold_left_app. cbn [fold_left].
  apply Hstep; [|lia]. now apply handlers_nonneg.
Qed.

Lemma carouselStep_range (earlier : list Z) (len cur : Z) (e : CarouselEvent) :
  Forall (fun len => (1 < len)%Z) earlier ->
  (1 < len)%Z -> (0 <= cur < len)%Z -> event_ok len e ->
  (0 <= carouselStep earlier len cur e < len)%Z.
Proof.
  intros He Hl Hc Hev. destruct e; cbn [carouselStep].
  - apply previousIndex_range; lia.
  - apply nextIndex_range; lia.
  - exact Hev.
  - apply key_in_range; auto using previousIndex_range; lia.
  - apply key_in_range; auto using nextIndex_range; lia.
Qed.

Lemma carousel_fold_range
      (earlier : list Z) (len : Z) (events : list CarouselEvent) :
  Forall (fun len => (1 < len)%Z) earlier ->
  (1 < len)%Z ->
  Forall (event_ok len) events ->
  forall cur, (0 <= cur < len)%Z ->
  (0 <= fold_left (carouselStep earlier len) events cur < len)%Z.
Proof.
  intros He Hl Hev.
  induction Hev as [|e events Hok _ IH]; intros cur Hc.
  - exact Hc.
  - cbn [fold_left]. apply IH. now apply carouselStep_range.
Qed.

(** X19.  [setupCarousel] keeps [currentImageIndex] a valid index of the
    images of the card on screen, whatever buttons, dots and arrow keys
    are used and however many carousels were set up for earlier cards. *)
Theorem carousel_index_in_range
        (earlier : list Z) (imagesLength : Z) (events : list CarouselEvent) :
  Forall (fun len => (1 < len)%Z) earlier ->
  (1 < imagesLength)%Z ->
  Forall (event_ok imagesLength) events ->
  (0 <= carouselRun earlier imagesLength events < imagesLength)%Z.
Proof.
  intros He Hl Hev. unfold carouselRun.
  apply carousel_fold_range; auto. lia.
Qed.

Lemma carousel_index_in_range_witness :
  Forall (fun len => (1 < len)%Z) [2%Z] /\ (1 < 3)%Z /\
  Forall (event_ok 3) [ArrowRight; DotClicked 1; ArrowLeft; NextClicked] /\
  (0 <= carouselRun [2%Z] 3
          [ArrowRight; DotClicked 1; ArrowLeft; NextClicked] < 3)%Z.
Proof.
  assert (He : Forall (fun len => (1 < len)%Z) [2%Z])
    by (repeat constructor).
  assert (Hl : (1 < 3)%Z) by lia.
  assert (Hev : Forall (event_ok 3)
                  [ArrowRight; DotClicked 1; ArrowLeft; NextClicked])
    by (repeat constructor; cbn; lia).
  exact (conj He (conj Hl (conj Hev
           (carousel_index_in_range [2%Z] 3 _ He Hl Hev)))).
Defined.

(** X20.  The previous and the next button of the carousel undo each other,
    wrapping around at both ends. *)
Theorem carousel_buttons_inverse (imagesLength currentImageIndex : Z) :
  (0 <= currentImageIndex < imagesLength)%Z ->
  previousIndex (nextIndex currentImageIndex imagesLength) imagesLength
  = currentImageIndex
  /\ nextIndex (previousIndex currentImageIndex imagesLength) imagesLength
     = currentImageIndex.
Proof.
  intros Hc. unfold previousIndex, nextIndex.
  assert (Hn : (0 < imagesLength)%Z) by lia.
  split.
  - destruct (Z.eq_dec (currentImageIndex + 1) imagesLength) as [E|E].
    + rewrite E, Z.rem_same by lia. rewrite Z.rem_small; lia.
    + rewrite (Z.rem_small (currentImageIndex + 1)) by lia.
      rewrite Z.rem_mod_nonneg by lia.
      replace (currentImageIndex + 1 - 1 + imagesLength)%Z
        with (currentImageIndex + 1 * imagesLength)%Z by lia.
      rewrite Z_mod_plus_full. rewrite Z.mod_small; lia.
  - destruct (Z.eq_dec currentImageIndex 0) as [E|E].
    + subst. rewrite (Z.rem_small (0 - 1 + imagesLength)) by lia.
      replace (0 - 1 + imagesLength + 1)%Z with imagesLength by lia.
      apply Z.rem_same. lia.
    + rewrite (Z.rem_mod_nonneg (currentImageIndex - 1 + imagesLength)) by lia.
      replace (currentImageIndex - 1 + imagesLength)%Z
        with (currentImageIndex - 1 + 1 * imagesLength)%Z by lia.
      rewrite Z_mod_plus_full, Z.mod_small by lia.
      rewrite Z.rem_small; lia.
Qed.

Lemma carousel_buttons_inverse_witness :
  (0 <= 2 < 3)%Z /\
  previousIndex (nextIndex 2 3) 3 = 2%Z /\
  nextIndex (previousIndex 2 3) 3 = 2%Z.
Proof.
  assert (H : (0 <= 2 < 3)%Z) by lia.
  exact (conj H (carousel_buttons_inverse 3 2 H)).
Defined.

Lemma handlers_advance (lens : list Z) :
  forall cur, (0 <= cur)%Z ->
  Forall (fun len => (cur + Z.of_nat (List.length lens) < len)%Z) lens ->
  fold_left nextIndex lens cur = (cur + Z.of_nat (List.length lens))%Z.
Proof.
  induction lens as [|len lens IH]; intros cur Hc Hl.
  - cbn. lia.
  - inversion Hl as [|? ? Hlen Hrest]; subst.
    cbn [fold_left]. cbn [List.length] in *.
    unfold nextIndex at 2. rewrite Z.rem_small by lia.
    rewrite IH; [lia|lia|].
    eapply Forall_impl; [|exact Hrest]. cbn beta. intros; lia.
Qed.

(** X21.  The [keydown] listeners of earlier carousels stay registered, so
    one press of ArrowRight on the first image moves forward by one image
    for every carousel set up so far (the card on screen included), as
    long as every one of them has more images than that. *)
Theorem arrow_key_runs_every_carousel
        (earlier : list Z) (imagesLength : Z) :
  let handlers := earlier ++ [imagesLength] in
  Forall (fun len => (Z.of_nat (List.length handlers) < len)%Z) handlers ->
  carouselStep earlier imagesLength 0 ArrowRight
  = Z.of_nat (List.length handlers).
Proof.
  intros handlers H. cbn [carouselStep]. fold handlers.
  rewrite handlers_advance; [lia|lia|].
  eapply Forall_impl; [|exact H]. cbn beta. intros; lia.
Qed.

Lemma arrow_key_runs_every_carousel_witness :
  Forall (fun len => (Z.of_nat (List.length ([3%Z] ++ [4%Z])) < len)%Z)
         ([3%Z] ++ [4%Z]) /\
  carouselStep [3%Z] 4 0 ArrowRight = 2%Z /\
  carouselStep [3%Z] 4 0 NextClicked = 1%Z.
Proof.
  assert (H : Forall (fun len => (Z.of_nat (List.length ([3%Z] ++ [4%Z])) < len)%Z)
                     ([3%Z] ++ [4%Z]))
    by (repeat constructor; cbn; lia).
  exact (conj H (conj (arrow_key_runs_every_carousel [3%Z] 4 H) eq_refl)).
Defined.

(** ** The catalog mix of [initSwipeMode] *)


Lemma affordableCount_value (len n : nat) :
  slice_end len (ceil (JS.mul (JS.of_nat n) (JS.Fin 0.7)))
  = Nat.min (n - 3 * n / 10) len.
Proof.
  unfold JS.of_nat, JS.mul, ceil, slice_end.
  unfold Qceiling, Qfloor.
  cbn [Qnum Qden inject_Z Qplus Qopp Qmult Qminus Pos.mul].
  rewrite Z.quot_1_r.
  assert (E : (- (- (Z.of_nat n * 7) / 10) = Z.of_nat (n - 3 * n / 10))%Z).
  { assert (D : (3 * n / 10 <= n)%nat).
    { apply Nat.Div0.div_le_upper_bound. lia. }
    rewrite Nat2Z.inj_sub by exact D.
    rewrite Nat2Z.inj_div. change (Z.of_nat 10) with 10%Z.
    rewrite Nat2Z.inj_mul. change (Z.of_nat 3) with 3%Z.
    pose proof (Z.div_mod (- (Z.of_nat n * 7)) 10 ltac:(lia)).
    pose proof (Z.mod_pos_bound (- (Z.of_nat n * 7)) 10 ltac:(lia)).
    pose proof (Z.div_mod (3 * Z.of_nat n) 10 ltac:(lia)).
    pose proof (Z.mod_pos_bound (3 * Z.of_nat n) 10 ltac:(lia)).
    lia. }
  rewrite E.
  destruct (Z.ltb_spec (Z.of_nat (n - 3 * n / 10)) 0); [lia|].
  lia.
Qed.

Lemma filter_split_perm {A : Type} (f : A -> bool) (l : list A) :
  Permutation (filter f l ++ filter (fun x => negb (f x)) l) l.
Proof.
  induction l as [|a l IH]; cbn [filter].
  - apply perm_nil.
  - destruct (f a); cbn [negb app].
    + now apply perm_skip.
    + apply Permutation_sym, Permutation_cons_app, Permutation_sym, IH.
Qed.


Lemma filter_all_false {A : Type} (f : A -> bool) (l : list A) :
  (forall x, In x l -> f x = false) -> filter f l = [].
Proof.
  induction l as [|a l IH]; intros H; cbn [filter]; [reflexivity|].
  rewrite (H a (or_introl eq_refl)). apply IH. intros x Hx. apply H. now right.
Qed.

Lemma filter_all_true {A : Type} (f : A -> bool) (l : list A) :
  (forall x, In x l -> f x = true) -> filter f l = l.
Proof.
  induction l as [|a l IH]; intros H; cbn [filter]; [reflexivity|].
  rewrite (H a (or_introl eq_refl)). f_equal. apply IH.
  intros x Hx. apply H. now right.
Qed.




Lemma gt_not_le (x y : JS.num) : JS.gt x y = true -> JS.le x y = false.
Proof.
  unfold JS.gt, JS.lt, JS.le.
  destruct x as [p| | |], y as [q| | |]; cbn [JS.compare]; try congruence.
  rewrite <- (Qcompare_antisym q p). destruct (q ?= p); cbn; congruence.
Qed.


Lemma length_sortedProperties (StringToNumber : string -> JS.num) (propertiesList : list ListingObject) :
  List.length (sortedProperties StringToNumber propertiesList)
  = List.length propertiesList.
Proof.
  apply Permutation_length, sort_perm.
Qed.





Lemma sortedProperties_In (StringToNumber : string -> JS.num) (propertiesList : list ListingObject)
      (p : ListingObject) :
  In p (sortedProperties StringToNumber propertiesList) -> In p propertiesList.
Proof.
  apply Permutation_in, sort_perm.
Qed.



(** X23.  When every listing lies within 150% of the budget, the catalog is
    the first 70% (rounded up) of the price-sorted list: the remaining
    30% are never offered. *)
Theorem affordable_only_keeps_seventy_percent
        (StringToNumber : string -> JS.num)
        (propertiesList : list ListingObject) (budget : JS.num) :
  (forall p, In p propertiesList ->
     JS.gt (priceOf StringToNumber p) (JS.Fin 0)
     && JS.le (priceOf StringToNumber p) (JS.mul budget (JS.Fin 1.5)) = true) ->
  let n := List.length propertiesList in
  mixedProperties StringToNumber propertiesList budget
  = firstn (n - 3 * n / 10) (sortedProperties StringToNumber propertiesList)
  /\ List.length (mixedProperties StringToNumber propertiesList budget)
     = (n - 3 * n / 10)%nat.
Proof.
  intros H n.
  assert (E : mixedProperties StringToNumber propertiesList budget
              = firstn (n - 3 * n / 10)
                       (sortedProperties StringToNumber propertiesList)).
  { unfold mixedProperties, slice0. cbv zeta.
    assert (Ea : affordableProperties StringToNumber propertiesList budget
                 = sortedProperties StringToNumber propertiesList).
    { unfold affordableProperties. cbv zeta. apply filter_all_true.
      intros x Hx. apply H. now apply sortedProperties_In in Hx. }
    assert (Eb : aspirationalProperties StringToNumber propertiesList budget
                 = []).
    { unfold aspirationalProperties. cbv zeta. apply filter_all_false.
      intros x Hx. apply sortedProperties_In in Hx. apply H in Hx.
      apply andb_prop in Hx. destruct Hx as [_ Hx].
      destruct (JS.gt (priceOf StringToNumber x)
                      (JS.mul budget (JS.Fin 1.5))) eqn:G; [|reflexivity].
      apply gt_not_le in G. congruence. }
    rewrite Ea, Eb. cbn [List.length firstn]. rewrite firstn_nil, app_nil_r.
    rewrite affordableCount_value, length_sortedProperties.
    fold n. f_equal. lia. }
  split; [exact E|].
  rewrite E, length_firstn, length_sortedProperties. fold n. lia.
Qed.

Lemma affordable_only_keeps_seventy_percent_witness :
  (forall p, In p example_offers ->
     JS.gt (priceOf no_string_prices p) (JS.Fin 0)
     && JS.le (priceOf no_string_prices p)
              (JS.mul (JS.Fin 400000) (JS.Fin 1.5)) = true)
  /\ List.length (mixedProperties no_string_prices example_offers
                                  (JS.Fin 400000)) = 7%nat.
Proof.
  assert (H : forall p, In p example_offers ->
     JS.gt (priceOf no_string_prices p) (JS.Fin 0)
     && JS.le (priceOf no_string_prices p)
              (JS.mul (JS.Fin 400000) (JS.Fin 1.5)) = true).
  { apply Forall_forall. repeat constructor. }
  split; [exact H|].
  exact (proj2 (affordable_only_keeps_seventy_percent
                  no_string_prices example_offers (JS.Fin 400000) H)).
Defined.



(** ** The first swipe module *)

Lemma sort_by_key_descending {A : Type} (key : A -> JS.num) (l : list A) :
  (forall x, In x l -> exists q, key x = JS.Fin q) ->
  StronglySorted (fun a b => JS.ge (key a) (key b) = true)
                 (JS.sort (fun a b => JS.sub (key b) (key a)) l).
Proof.
  intros Hfin.
  set (cmp := fun a b => JS.sub (key b) (key a)).
  assert (Hs : StronglySorted (fun x y => - qval (key x) <= - qval (key y))
                              (JS.sort cmp l)).
  { apply sort_sorted. intros a b Ha Hb.
    destruct (Hfin a Ha) as [qa Ea]. destruct (Hfin b Hb) as [qb Eb].
    unfold cmp. rewrite Ea, Eb. cbn [qval JS.sub JS.neg JS.add].
    unfold JS.gt. rewrite lt_Fin. split; intros; lra. }
  assert (Hfin' : forall x, In x (JS.sort cmp l) -> exists q, key x = JS.Fin q)
    by (intros x Hx; apply Hfin; apply (sort_In cmp); exact Hx).
  induction Hs as [|x t Hs IH Hall]; constructor.
  - apply IH. intros y Hy. apply Hfin'. right. exact Hy.
  - rewrite Forall_forall in Hall. apply Forall_forall. intros y Hy.
    specialize (Hall y Hy).
    destruct (Hfin' x (or_introl eq_refl)) as [qx Ex].
    destruct (Hfin' y (or_intror Hy)) as [qy Ey].
    rewrite Ex, Ey in *. cbn [qval] in Hall. unfold JS.ge. apply le_Fin. lra.
Qed.

Lemma StronglySorted_firstn {A : Type} (R : A -> A -> Prop) (n : nat)
      (l : list A) :
  StronglySorted R l -> StronglySorted R (firstn n l).
Proof.
  intros H. revert n. induction H as [|x t Hs IH Hall]; intros [|n];
    cbn [firstn]; try constructor.
  - apply IH.
  - rewrite Forall_forall in *. intros y Hy. apply Hall.
    now apply In_firstn in Hy.
Qed.

Lemma or_zero_sum_nonneg (field : Legacy.Property -> option Q)
      (liked : list Legacy.Property) :
  (forall p, In p liked -> 0 <= Legacy.or_zero (field p)) ->
  forall acc, 0 <= acc ->
  0 <= fold_left (fun sum p => sum + Legacy.or_zero (field p)) liked acc.
Proof.
  induction liked as [|p liked IH]; intros H acc Hacc; cbn [fold_left].
  - exact Hacc.
  - apply IH.
    + intros q Hq. apply H. now right.
    + pose proof (H p (or_introl eq_refl)). lra.
Qed.

Lemma mean_of_nonneg (field : Legacy.Property -> option Q)
      (liked : list Legacy.Property) :
  (forall p, In p liked -> 0 <= Legacy.or_zero (field p)) ->
  Legacy.mean_of field liked = JS.NaN
  \/ exists a, Legacy.mean_of field liked = JS.Fin a /\ 0 <= a.
Proof.
  intros H. unfold Legacy.mean_of.
  pose proof (or_zero_sum_nonneg field liked H 0 ltac:(lra)) as Hs.
  set (total := fold_left _ liked 0) in *.
  destruct liked as [|p liked].
  - cbn in total. subst total. left. reflexivity.
  - right. exists (total / inject_Z (Z.of_nat (List.length (p :: liked)))).
    assert (Hn : 0 < inject_Z (Z.of_nat (List.length (p :: liked)))).
    { change 0 with (inject_Z 0). rewrite <- Zlt_Qlt. cbn [List.length]. lia. }
    split.
    + unfold JS.of_nat. apply div_Fin. lra.
    + apply Qle_shift_div_l; [exact Hn|]. lra.
Qed.

Lemma add_similarity_range (s : Q) (v : option Q) (avg : JS.num) :
  (avg = JS.NaN \/ exists a, avg = JS.Fin a /\ 0 <= a) ->
  exists t, Legacy.add_similarity (JS.Fin s) v avg = JS.Fin t
            /\ s <= t <= s + 50.
Proof.
  intros Havg. unfold Legacy.add_similarity.
  destruct Havg as [->|(a & -> & Ha)].
  - cbn [JS.truthy]. rewrite andb_false_r. exists s. split; [reflexivity|lra].
  - destruct (Legacy.present v && JS.truthy (JS.Fin a)) eqn:C;
      [|exists s; split; [reflexivity|lra]].
    apply andb_prop in C. destruct C as [_ C]. cbn [JS.truthy] in C.
    assert (Hnz : ~ a == 0).
    { intros E. apply Qeq_bool_iff in E. rewrite E in C. discriminate. }
    assert (Hpos : 0 < a) by (destruct (Qlt_le_dec 0 a); [assumption|lra]).
    cbn [JS.sub JS.neg JS.add JS.abs].
    rewrite (div_Fin _ a Hnz).
    destruct (min_Fin (Qabs (Legacy.or_zero v + - a) / a) 1)
      as (c & Ec & Hc1 & Hc2 & Hc3).
    rewrite Ec. cbn [JS.sub JS.neg JS.add JS.mul].
    exists (s + (1 + - c) * 50). split; [reflexivity|].
    assert (Hd : 0 <= Qabs (Legacy.or_zero v + - a) / a).
    { apply Qle_shift_div_l; [exact Hpos|].
      pose proof (Qabs_nonneg (Legacy.or_zero v + - a)). lra. }
    assert (Hc0 : 0 <= c) by (destruct Hc3 as [->| ->]; lra).
    lra.
Qed.

(** X25.  The recommendations of the first swipe module: at most 6
    entries, each a property of the full list that is affordable or
    stretch and whose id is neither the id of a card of the deck nor of a
    liked property.  When the liked prices and areas lie between 0 and
    2^53 (so that their sums cannot overflow), every score is a number
    between 0 and 100 and the entries come in descending score order. *)
Theorem legacy_recommendations (s : Legacy.State) :
  (forall p, In p (Legacy.likedProperties s) ->
     0 <= Legacy.or_zero (Legacy.price p) <= MAX_EXACT
     /\ 0 <= Legacy.or_zero (Legacy.sqm p) <= MAX_EXACT) ->
  let recs := Legacy.renderRecommendations s in
  (List.length recs <= 6)%nat
  /\ (forall r, In r recs ->
        In (Legacy.property r) (Legacy.allSwipeProperties s)
        /\ Legacy.in_budget_range (Legacy.property r) = true
        /\ Legacy.has (map Legacy.id (Legacy.swipeProperties s))
                      (Legacy.id (Legacy.property r)) = false
        /\ Legacy.has (map Legacy.id (Legacy.likedProperties s))
                      (Legacy.id (Legacy.property r)) = false
        /\ exists q, Legacy.matchScore r = JS.Fin q /\ 0 <= q <= 100)
  /\ StronglySorted
       (fun a b => JS.ge (Legacy.matchScore a) (Legacy.matchScore b) = true)
       recs.
Proof.
  intros Hbounded recs.
  assert (Hliked : forall p, In p (Legacy.likedProperties s) ->
            0 <= Legacy.or_zero (Legacy.price p)
            /\ 0 <= Legacy.or_zero (Legacy.sqm p)).
  { intros p Hin. destruct (Hbounded p Hin) as [[H1 _] [H2 _]].
    split; assumption. }
  assert (Hp : Legacy.mean_of Legacy.price (Legacy.likedProperties s) = JS.NaN
               \/ exists a, Legacy.mean_of Legacy.price (Legacy.likedProperties s)
                            = JS.Fin a /\ 0 <= a)
    by (apply mean_of_nonneg; intros p Hin; apply Hliked, Hin).
  assert (Hq : Legacy.mean_of Legacy.sqm (Legacy.likedProperties s) = JS.NaN
               \/ exists a, Legacy.mean_of Legacy.sqm (Legacy.likedProperties s)
                            = JS.Fin a /\ 0 <= a)
    by (apply mean_of_nonneg; intros p Hin; apply Hliked, Hin).
  unfold recs, Legacy.renderRecommendations. cbv zeta.
  set (avgPrice := Legacy.mean_of Legacy.price (Legacy.likedProperties s)) in *.
  set (avgSqm := Legacy.mean_of Legacy.sqm (Legacy.likedProperties s)) in *.
  set (shownIds := map Legacy.id (Legacy.swipeProperties s)
                   ++ map Legacy.id (Legacy.likedProperties s)).
  set (scored := map _ _).
  set (cmp := fun a b : Legacy.Scored => _).
  assert (Hscored : forall r, In r scored ->
            In (Legacy.property r) (Legacy.allSwipeProperties s)
            /\ Legacy.in_budget_range (Legacy.property r) = true
            /\ Legacy.has shownIds (Legacy.id (Legacy.property r)) = false
            /\ exists q, Legacy.matchScore r = JS.Fin q /\ 0 <= q <= 100).
  { intros r Hr. unfold scored in Hr. apply in_map_iff in Hr.
    destruct Hr as (p & <- & Hp'). cbn [Legacy.property Legacy.matchScore].
    apply filter_In in Hp'. destruct Hp' as [Hp' Hb].
    apply filter_In in Hp'. destruct Hp' as [Hall Hs].
    apply negb_true_iff in Hs.
    repeat split; auto.
    destruct (add_similarity_range 0 (Legacy.price p) avgPrice Hp)
      as (t1 & E1 & H1).
    rewrite E1.
    destruct (add_similarity_range t1 (Legacy.sqm p) avgSqm Hq)
      as (t2 & E2 & H2).
    rewrite E2. exists t2. split; [reflexivity|lra]. }
  split; [|split].
  - rewrite length_firstn. lia.
  - intros r Hr. apply In_firstn in Hr.
    apply (proj1 (sort_In cmp scored r)) in Hr.
    destruct (Hscored r Hr) as (H1 & H2 & H3 & H4).
    unfold Legacy.has, shownIds in H3. rewrite existsb_app in H3.
    apply orb_false_iff in H3. destruct H3 as [H3 H3'].
    repeat split; auto.
  - apply StronglySorted_firstn.
    apply (sort_by_key_descending Legacy.matchScore).
    intros r Hr. destruct (Hscored r Hr) as (_ & _ & _ & q & E & _).
    now exists q.
Qed.

Lemma shuffleArray_perm {A : Type} (arr : list A) (g : oracle) :
  Permutation (fst (Legacy.shuffleArray arr g)) arr.
Proof.
  apply shuffle_perm.
Qed.

Lemma deck_of_shuffle (f : Legacy.Property -> bool)
      (all : list Legacy.Property) (g : oracle) :
  let deck := firstn Legacy.MAX_SWIPE_CARDS
                     (fst (Legacy.shuffleArray (filter f all) g)) in
  (List.length deck <= 15)%nat
  /\ (forall p, In p deck -> f p = true)
  /\ exists rest, Permutation (deck ++ rest) all.
Proof.
  intros deck. pose proof (shuffleArray_perm (filter f all) g) as Hperm.
  set (shuffled := fst (Legacy.shuffleArray (filter f all) g)) in *.
  split; [|split].
  - unfold deck. rewrite length_firstn. unfold Legacy.MAX_SWIPE_CARDS. lia.
  - intros p Hp. unfold deck in Hp. apply In_firstn in Hp.
    apply (Permutation_in _ Hperm) in Hp. now apply filter_In in Hp.
  - exists (skipn Legacy.MAX_SWIPE_CARDS shuffled
            ++ filter (fun x => negb (f x)) all).
    unfold deck. rewrite app_assoc, firstn_skipn.
    eapply Permutation_trans; [|apply (filter_split_perm f all)].
    apply Permutation_app_tail, Hperm.
Qed.

(** X26.  In every reachable state of the first swipe module the deck has
    at most 15 cards, each affordable or stretch, drawn from the full
    list without repetition, and every liked property is an affordable
    or stretch property of the full list. *)
Theorem legacy_deck (s : Legacy.State) :
  Legacy.reachable s ->
  (List.length (Legacy.swipeProperties s) <= 15)%nat
  /\ (forall p, In p (Legacy.swipeProperties s) ->
        Legacy.in_budget_range p = true)
  /\ (exists rest,
        Permutation (Legacy.swipeProperties s ++ rest)
                    (Legacy.allSwipeProperties s))
  /\ (forall p, In p (Legacy.likedProperties s) ->
        In p (Legacy.allSwipeProperties s)
        /\ Legacy.in_budget_range p = true).
Proof.
  intros H. induction H as [properties g|s H IH|s H IH|s g H IH].
  - unfold Legacy.initSwipeMode. cbv zeta.
    set (all := match properties with Some l => l | None => [] end).
    pose proof (deck_of_shuffle Legacy.in_budget_range all g) as D.
    cbv zeta in D.
    destruct (Legacy.shuffleArray (filter Legacy.in_budget_range all) g)
      as [shuffled g'].
    cbn [fst Legacy.swipeProperties Legacy.allSwipeProperties
             Legacy.likedProperties] in *.
    destruct D as (D1 & D2 & D3).
    repeat split; auto; destruct H.
  - destruct IH as (I1 & I2 & I3 & I4).
    unfold Legacy.handleLike.
    cbn [Legacy.swipeProperties Legacy.allSwipeProperties
         Legacy.likedProperties].
    split; [exact I1|]. split; [exact I2|]. split; [exact I3|].
    intros p Hp.
    destruct (Legacy.currentSwipeIndex s
              <? List.length (Legacy.swipeProperties s))%nat;
      [|now apply I4].
    destruct (nth_error (Legacy.swipeProperties s)
                        (Legacy.currentSwipeIndex s)) as [c|] eqn:E;
      [|now apply I4].
    apply in_app_iff in Hp. destruct Hp as [Hp|[<-|[]]]; [now apply I4|].
    apply nth_error_In in E. split; [|now apply I2].
    destruct I3 as [rest I3]. apply (Permutation_in _ I3).
    apply in_app_iff. now left.
  - exact IH.
  - destruct IH as (I1 & I2 & I3 & I4).
    unfold Legacy.resetSwipe. cbv zeta.
    set (f := fun p => Legacy.in_budget_range p
                       && negb (Legacy.has (map Legacy.id
                                              (Legacy.likedProperties s))
                                           (Legacy.id p))).
    assert (Ef : filter (fun p => negb (Legacy.has (map Legacy.id
                                              (Legacy.likedProperties s))
                                           (Legacy.id p)))
                        (filter Legacy.in_budget_range
                                (Legacy.allSwipeProperties s))
                 = filter f (Legacy.allSwipeProperties s)).
    { unfold f. generalize (Legacy.allSwipeProperties s) as l.
      induction l as [|a l IHl]; cbn [filter]; [reflexivity|].
      destruct (Legacy.in_budget_range a); cbn [filter andb];
        [|exact IHl].
      now rewrite IHl. }
    rewrite Ef.
    pose proof (deck_of_shuffle f (Legacy.allSwipeProperties s) g) as D.
    cbv zeta in D.
    destruct (Legacy.shuffleArray (filter f (Legacy.allSwipeProperties s)) g)
      as [shuffled g'].
    cbn [fst Legacy.swipeProperties Legacy.allSwipeProperties
             Legacy.likedProperties] in *.
    destruct D as (D1 & D2 & D3).
    split; [exact D1|]. split; [|split; [exact D3|exact I4]].
    intros p Hp. apply D2 in Hp. unfold f in Hp.
    now apply andb_prop in Hp.
Qed.

(** X27.  Starting over in the first swipe module keeps the likes and never
    deals a card whose id is the id of a liked property. *)
Theorem legacy_reset_skips_liked (s : Legacy.State) (g : oracle) :
  let s' := fst (Legacy.resetSwipe s g) in
  Legacy.likedProperties s' = Legacy.likedProperties s
  /\ Legacy.allSwipeProperties s' = Legacy.allSwipeProperties s
  /\ Legacy.currentSwipeIndex s' = 0%nat
  /\ forall p, In p (Legacy.swipeProperties s') ->
       forall l, In l (Legacy.likedProperties s) ->
         JS.strict_eq (Legacy.id p) (Legacy.id l) = false.
Proof.
  intros s'. unfold s', Legacy.resetSwipe. cbv zeta.
  match goal with
  | |- context [Legacy.shuffleArray ?l g] =>
      pose proof (shuffleArray_perm l g) as Hperm;
      destruct (Legacy.shuffleArray l g) as [shuffled g']
  end.
  cbn [fst Legacy.swipeProperties Legacy.allSwipeProperties
           Legacy.likedProperties Legacy.currentSwipeIndex] in *.
  repeat split.
  intros p Hp l Hl. apply In_firstn in Hp.
  apply (Permutation_in _ Hperm) in Hp.
  apply filter_In in Hp. destruct Hp as [_ Hp].
  apply negb_true_iff in Hp. unfold Legacy.has in Hp.
  destruct (JS.strict_eq (Legacy.id p) (Legacy.id l)) eqn:E; [|reflexivity].
  assert (X : existsb (JS.strict_eq (Legacy.id p))
                      (map Legacy.id (Legacy.likedProperties s)) = true).
  { apply existsb_exists. exists (Legacy.id l). split; [|exact E].
    now apply in_map. }
  congruence.
Qed.

Lemma legacy_recommendations_witness :
  (forall p, In p (Legacy.likedProperties legacy_state) ->
     0 <= Legacy.or_zero (Legacy.price p) <= MAX_EXACT
     /\ 0 <= Legacy.or_zero (Legacy.sqm p) <= MAX_EXACT)
  /\ (List.length (Legacy.renderRecommendations legacy_state) <= 6)%nat
  /\ StronglySorted
       (fun a b => JS.ge (Legacy.matchScore a) (Legacy.matchScore b) = true)
       (Legacy.renderRecommendations legacy_state).
Proof.
  assert (H : forall p, In p (Legacy.likedProperties legacy_state) ->
     0 <= Legacy.or_zero (Legacy.price p) <= MAX_EXACT
     /\ 0 <= Legacy.or_zero (Legacy.sqm p) <= MAX_EXACT).
  { intros p [<-|[]]. repeat split; vm_compute; discriminate. }
  split; [exact H|].
  destruct (legacy_recommendations legacy_state H) as (H1 & _ & H3).
  exact (conj H1 H3).
Defined.

Lemma legacy_deck_witness :
  Legacy.reachable (fst (Legacy.initSwipeMode (Some legacy_cards)
                                              example_oracle))
  /\ (List.length
        (Legacy.swipeProperties
           (fst (Legacy.initSwipeMode (Some legacy_cards) example_oracle)))
      <= 15)%nat.
Proof.
  assert (H : Legacy.reachable
                (fst (Legacy.initSwipeMode (Some legacy_cards)
                                           example_oracle)))
    by apply Legacy.reach_init.
  split; [exact H|].
  exact (proj1 (legacy_deck _ H)).
Defined.
